(** * tcmirs: matching MIRS granules to a tropical-cyclone track

    A shallow embedding of the Python package [tcmirs] (modules
    [ibtracs], [mirs], [output], [cli], [config]) and the properties of
    its specification.

    Conventions of the embedding
    - Python exceptions are values of [exception]; a function that may
      raise returns [result A = exception + A].
    - A [float] the code computes with is a binary64 value
      ([Py.float64]): every operation is the exact one followed by
      rounding to the nearest value, ties to even. The numbers stored
      in a netCDF file (attributes, latitudes, longitudes) are the
      rationals they are exactly, NaN being [None] in an [option Q].
    - A pandas [Timestamp] is its number of nanoseconds since the epoch
      together with a flag telling whether it is timezone-aware (UTC).
    - The algorithms of the libraries the package calls (shapely's
      geometry, xarray's [concat] and [merge], pandas' reading of a
      column of timestamps, reading a file) are fields of the classes
      [Shapely], [Xarray] and [Pandas]: every theorem holds whatever
      they compute.
    - Where a library call is written out for the inputs the package
      meets (ISO 8601 timestamps, decimal numerals, command lines of
      full option strings), every other input is left to a field of a
      class ([to_datetime_other], [float_other], [parse_args_other]),
      so nothing is decided here that the library decides otherwise. *)

From Stdlib Require Import ZArith QArith Qround Qminmax Qabs Qpower String Ascii List Lia Lqa DecimalString.
From stdpp Require Import gmap strings list sorting.

Local Open Scope Z_scope.

(** ** Exceptions *)

Inductive exception : Type :=
  | ValueError (msg : string)   (* the package's own [raise ValueError(...)] *)
  | KeyError (key : string)     (* a missing variable or attribute *)
  | IndexError                  (* [.iloc] or indexing out of range *)
  | TypeError                   (* comparing naive with aware timestamps, ... *)
  | ParseError (text : string)  (* [pd.to_datetime] or [float] on bad text *)
  | LibError (what : string)    (* a failure inside xarray, shapely or the OS *)
  | SystemExit.                 (* argparse rejecting the command line *)

Definition result (A : Type) : Type := exception + A.

Definition ok {A} (a : A) : result A := inr a.
Definition raise {A} (e : exception) : result A := inl e.

#[global] Instance result_bind : MBind result :=
  fun A B (k : A -> result B) (m : result A) =>
    match m with
    | inl e => inl e
    | inr a => k a
    end.

Definition of_option {A} (e : exception) (o : option A) : result A :=
  match o with
  | Some a => ok a
  | None => raise e
  end.

(** [[f(x) for x in xs]] where [f] may raise: the first failure wins. *)
Fixpoint mapM {A B} (f : A -> result B) (xs : list A) : result (list B) :=
  match xs with
  | [] => ok []
  | x :: xs' => y ← f x; ys ← mapM f xs'; ok (y :: ys)
  end.

(** ** Calendar time *)

Module Time.

(** Nanoseconds, the resolution of a pandas [Timestamp]. *)
Definition second : Z := 1000000000.
Definition hour : Z := 3600 * second.
Definition day : Z := 24 * hour.

Record Timestamp : Type := mkTimestamp {
  ns : Z;          (* nanoseconds since 1970-01-01T00:00:00 *)
  tz_utc : bool    (* timezone-aware (UTC) or naive *)
}.

Definition is_leap (y : Z) : bool :=
  ((y mod 4 =? 0) && negb (y mod 100 =? 0)) || (y mod 400 =? 0).

Definition days_in_month (y m : Z) : Z :=
  if m =? 2 then (if is_leap y then 29 else 28)
  else if (m =? 4) || (m =? 6) || (m =? 9) || (m =? 11) then 30
  else 31.

(** Days from 1970-01-01 to the civil date [y-m-d] of the proleptic
    Gregorian calendar. *)
Definition days_from_civil (y m d : Z) : Z :=
  let y' := if m <=? 2 then y - 1 else y in
  let era := y' / 400 in
  let yoe := y' - era * 400 in
  let mp := if m <=? 2 then m + 9 else m - 3 in
  let doy := (153 * mp + 2) / 5 + d - 1 in
  let doe := yoe * 365 + yoe / 4 - yoe / 100 + doy in
  era * 146097 + doe - 719468.

(** Days in the years before the end of year [y], counted from year 0. *)
Definition year_days (y : Z) : Z := 365 * y + y / 4 - y / 100 + y / 400.

Definition valid_civil (y mo d h mi s : Z) : bool :=
  (1000 <=? y) && (1 <=? mo) && (mo <=? 12) && (1 <=? d) && (d <=? days_in_month y mo)
  && (h <? 24) && (mi <? 60) && (s <? 60).

Definition civil_ns (y mo d h mi s : Z) : Z :=
  days_from_civil y mo d * day + h * hour + mi * (60 * second) + s * second.

Definition digit_of (c : ascii) : option Z :=
  let n := Z.of_N (N_of_ascii c) in
  if (48 <=? n) && (n <=? 57) then Some (n - 48) else None.

(** Read exactly [n] decimal digits. *)
Fixpoint digits (n : nat) (acc : Z) (l : list ascii) : option (Z * list ascii) :=
  match n with
  | O => Some (acc, l)
  | S n' =>
      match l with
      | c :: l' =>
          match digit_of c with
          | Some v => digits n' (10 * acc + v) l'
          | None => None
          end
      | [] => None
      end
  end.

Definition expect (c : ascii) (l : list ascii) : option (list ascii) :=
  match l with
  | c' :: l' => if Ascii.eqb c c' then Some l' else None
  | [] => None
  end.

Definition build (y mo d h mi s : Z) (aware : bool) : option Timestamp :=
  if valid_civil y mo d h mi s
  then Some (mkTimestamp (civil_ns y mo d h mi s) aware)
  else None.

(** The clock part [hh:mm:ss] with an optional final [Z]. *)
Definition parse_clock (y mo d : Z) (l : list ascii) : option Timestamp :=
  '(h, l) ← digits 2 0 l;
  l ← expect ":" l;
  '(mi, l) ← digits 2 0 l;
  l ← expect ":" l;
  '(s, l) ← digits 2 0 l;
  match l with
  | [] => build y mo d h mi s false
  | ["Z"%char] => build y mo d h mi s true
  | _ => None
  end.

(** The timestamps written as the package meets them: a four-digit
    year from 1000 on (["2021"], the first instant of that year), an
    ISO 8601 date,
    and an ISO 8601 date and time separated by a blank or a [T],
    timezone-aware when it ends in [Z]. [pd.to_datetime] reads each of
    them as the instant it names; what it makes of any other text is
    not decided here ([None]). *)
Definition iso8601 (text : string) : option Timestamp :=
  '(y, l) ← digits 4 0 (list_ascii_of_string text);
  match l with
  | [] => build y 1 1 0 0 0 false
  | _ =>
      l ← expect "-" l;
      '(mo, l) ← digits 2 0 l;
      l ← expect "-" l;
      '(d, l) ← digits 2 0 l;
      match l with
      | [] => build y mo d 0 0 0 false
      | c :: l' =>
          if Ascii.eqb c " " || Ascii.eqb c "T"
          then parse_clock y mo d l'
          else None
      end
  end.

(** [str(n)] for a Python [int]. *)
Definition str (n : Z) : string := NilEmpty.string_of_int (Z.to_int n).

End Time.

(** ** Python numbers and strings *)

Module Py.

(** Read as many decimal digits as there are; the count comes back too. *)
Fixpoint read_digits (acc : Z) (cnt : nat) (l : list ascii) : Z * nat * list ascii :=
  match l with
  | c :: l' =>
      match Time.digit_of c with
      | Some v => read_digits (10 * acc + v) (S cnt) l'
      | None => (acc, cnt, l)
      end
  | [] => (acc, cnt, l)
  end.

Fixpoint lstrip (l : list ascii) : list ascii :=
  match l with
  | c :: l' => if Ascii.eqb c " " then lstrip l' else l
  | [] => []
  end.

Definition strip (l : list ascii) : list ascii :=
  rev (lstrip (rev (lstrip l))).

Definition unsigned_decimal (l : list ascii) : option Q :=
  let '(ip, ni, l) := read_digits 0 0 l in
  match l with
  | [] => if (0 <? ni)%nat then Some (inject_Z ip) else None
  | c :: l' =>
      if Ascii.eqb c "."
      then
        let '(fp, nf, l'') := read_digits 0 0 l' in
        match l'' with
        | [] =>
            if (0 <? ni + nf)%nat
            then Some (Qmake (ip * 10 ^ Z.of_nat nf + fp) (Z.to_pos (10 ^ Z.of_nat nf)))
            else None
        | _ => None
        end
      else None
  end.

(** The nearest integer, ties to the even one. *)
Definition round_half_even (x : Q) : Z :=
  let f := Qfloor x in
  let r := (x - inject_Z f)%Q in
  match Qcompare r (1 # 2) with
  | Lt => f
  | Gt => f + 1
  | Eq => if Z.even f then f else f + 1
  end.

(** [round(x, 2)]: to the nearest hundredth, ties to the even one. *)
Definition round2 (x : Q) : Q := Qmake (round_half_even (x * 100)) 100.

(** A Python [float], an IEEE 754 binary64 value: NaN, an infinity, or
    a finite value, kept as the rational it is exactly. Zero has no
    sign here. *)
Inductive float64 : Type :=
  | Fnan
  | Finf (negative : bool)
  | Ffin (q : Q).

(** [floor(log2 |q|)] for [q <> 0]. *)
Definition log2_floor (q : Q) : Z :=
  let c := Z.log2 (Z.abs (Qnum q)) - Z.log2 (Zpos (Qden q)) in
  if Qle_bool (2 ^ c) (Qabs q) then c else c - 1.

(** The exponent of the last place of the binary64 values around [q]:
    53 significant bits, and no finer than [2^-1074]. *)
Definition ulp_exponent (q : Q) : Z := Z.max (log2_floor q - 52) (-1074).

(** [c] is a whole multiple of [2^u]. *)
Definition on_grid (c : Q) (u : Z) : Prop :=
  exists k : Z, (c == inject_Z k * 2 ^ u)%Q.

(** The binary64 value nearest to the real [q], ties to the even
    significand; an infinity from [2^1024] on. *)
Definition rnd (q : Q) : float64 :=
  if Qeq_bool q 0 then Ffin 0
  else
    let u := ulp_exponent q in
    let r := (inject_Z (round_half_even (q / 2 ^ u)) * 2 ^ u)%Q in
    if Qle_bool (2 ^ 1024) (Qabs r) then Finf (negb (Qle_bool 0 q))
    else Ffin (Qred r).

(** The integer part of [q], towards zero. *)
Definition trunc (q : Q) : Z := if Qle_bool 0 q then Qfloor q else - Qfloor (- q).

(** C's [fmod(x, m)] for a finite [m <> 0]: [x - m * trunc(x / m)],
    which is a binary64 value, so nothing is rounded. *)
Definition fmod (x : float64) (m : Q) : float64 :=
  match x with
  | Ffin q => Ffin (Qred (q - m * inject_Z (trunc (q / m))))
  | _ => Fnan
  end.

(** [x % m] on floats, for a finite [m <> 0] (CPython's [float_rem]):
    the remainder of [fmod], moved by [m] when its sign is not the
    sign of [m]; that addition is rounded. *)
Definition mod_ (x : float64) (m : Q) : float64 :=
  match fmod x m with
  | Ffin r =>
      if Qeq_bool r 0 then Ffin 0
      else if xorb (negb (Qle_bool 0 m)) (negb (Qle_bool 0 r)) then rnd (r + m)
      else Ffin r
  | other => other
  end.

(** [a + x] for a finite [a]. *)
Definition add (a : Q) (x : float64) : float64 :=
  match x with
  | Ffin q => rnd (a + q)
  | other => other
  end.

(** [float(text)] for a plain decimal numeral ([-89.60], [29.1],
    [12]), surrounding blanks ignored: the binary64 value nearest to
    it. Other text (exponents, [inf], [nan], ...) is not decided here
    ([None]). *)
Definition float_decimal (text : string) : option float64 :=
  match strip (list_ascii_of_string text) with
  | c :: l =>
      if Ascii.eqb c "-" then (fun q => rnd (- q)) <$> unsigned_decimal l
      else if Ascii.eqb c "+" then rnd <$> unsigned_decimal l
      else rnd <$> unsigned_decimal (c :: l)
  | [] => None
  end.

(** [int(text)] for an optionally signed decimal numeral, surrounding
    blanks ignored; other text is not decided here ([None]). *)
Definition int (text : string) : option Z :=
  let unsigned (l : list ascii) : option Z :=
    let '(v, n, rest) := read_digits 0 0 l in
    match rest with
    | [] => if (0 <? n)%nat then Some v else None
    | _ => None
    end in
  match strip (list_ascii_of_string text) with
  | c :: l =>
      if Ascii.eqb c "-" then Z.opp <$> unsigned l
      else if Ascii.eqb c "+" then unsigned l
      else unsigned (c :: l)
  | [] => None
  end.

Definition upper_ascii (c : ascii) : ascii :=
  let n := N_of_ascii c in
  if ((97 <=? n) && (n <=? 122))%N then ascii_of_N (n - 32) else c.

(** [s.upper()] on ASCII text. *)
Fixpoint upper (s : string) : string :=
  match s with
  | EmptyString => EmptyString
  | String c s' => String (upper_ascii c) (upper s')
  end.

(** [s.endswith(suffix)] and [s.startswith(p)]. *)
Definition endswith (s suffix : string) : bool :=
  String.prefix (String.rev suffix) (String.rev s).

Definition startswith (s p : string) : bool := String.prefix p s.

End Py.

(** ** What the libraries decide *)

(** A column of timestamps as pandas holds it ([datetime64[ns]] or
    [datetime64[ns, UTC]]): the column as a whole is timezone-aware or
    naive; each value is an instant in nanoseconds, or [NaT] ([None]). *)
Record DatetimeSeries : Type := mkSeries {
  tz_aware : bool;
  stamps : list (option Z)
}.

(** pandas' [to_datetime].
    - [to_datetime_other text]: a scalar text that is not one of
      [Time.iso8601]; [None] when pandas raises, [Some None] for [NaT].
    - [to_datetime_year year]: [str(year)] for a year that is not
      written with four digits; the text of an integer names no time
      zone, so the result, if any, is [NaT] or a naive instant.
    - [to_datetime_series cells]: a column of texts, read as a whole
      (pandas infers one format for the column, so the cells are not
      read one by one); [None] when pandas raises. The result has one
      value for each cell, and an empty column gives an empty naive
      column. *)
Class Pandas : Type := {
  to_datetime_other : string -> option (option Time.Timestamp);
  to_datetime_year : Z -> option (option Z);
  to_datetime_series : list string -> option DatetimeSeries;
  to_datetime_series_length :
    forall cells s, to_datetime_series cells = Some s -> length (stamps s) = length cells;
  to_datetime_series_nil : to_datetime_series [] = Some (mkSeries false [])
}.

(** Python's [float] on a text that is not a plain decimal numeral;
    [None] when it raises. *)
Class Python : Type := {
  float_other : string -> option Py.float64
}.

Module Lib.
Section Lib.

Context `{Pandas} `{Python}.

(** [pd.to_datetime(text)] on a scalar: [None] when pandas raises,
    [Some None] for [NaT]. *)
Definition to_datetime (text : string) : option (option Time.Timestamp) :=
  match Time.iso8601 text with
  | Some ts => Some (Some ts)
  | None => to_datetime_other text
  end.

(** [float(text)]; [None] when Python raises. *)
Definition float (text : string) : option Py.float64 :=
  match Py.float_decimal text with
  | Some x => Some x
  | None => float_other text
  end.

End Lib.
End Lib.

(** ** config.py *)

Module Config.

Definition SND_VARS_TO_KEEP : list string :=
  ["Player"; "Plevel"; "PTemp"; "PVapor"; "PClw"; "PRain"; "PGraupel"].

Definition IMG_VARS_TO_REMOVE : list string :=
  ["Atm_type"; "ChanSel"; "SWP"; "IWP"; "Snow";
   "SWE"; "SnowGS"; "SIce"; "SIce_MY"; "SIce_FY"; "SFR";
   "CldTop"; "CldBase"; "CldThick"; "PrecipType"; "RFlag"; "SurfM";
   "WindSp"; "WindDir"; "WindU"; "WindV"; "Prob_SF"; "quality_information"].

Definition IBTRACS_EXTRACT_VARS : list string :=
  ["NAME"; "ISO_TIME"; "WMO_WIND"; "WMO_PRES"; "LAT"; "LON";
   "USA_R34_NE"; "USA_R34_NW"; "USA_R34_SE"; "USA_R34_SW";
   "USA_R50_NE"; "USA_R50_NW"; "USA_R50_SE"; "USA_R50_SW";
   "USA_R64_NE"; "USA_R64_NW"; "USA_R64_SE"; "USA_R64_SW";
   "REUNION_R34_NE"; "REUNION_R34_NW"; "REUNION_R34_SE"; "REUNION_R34_SW";
   "REUNION_R50_NE"; "REUNION_R50_NW"; "REUNION_R50_SE"; "REUNION_R50_SW";
   "REUNION_R64_NE"; "REUNION_R64_NW"; "REUNION_R64_SE"; "REUNION_R64_SW";
   "BOM_R34_NE"; "BOM_R34_SE"; "BOM_R34_NW"; "BOM_R34_SW";
   "BOM_R50_NE"; "BOM_R50_SE"; "BOM_R50_NW"; "BOM_R50_SW";
   "BOM_R64_NE"; "BOM_R64_SE"; "BOM_R64_NW"; "BOM_R64_SW"].

Definition TIME_WINDOW_HOURS : Z := 12.

End Config.

(** ** ibtracs.py *)

Module Ibtracs.
Section Ibtracs.

Context `{Pandas} `{Python}.

(** One line of the IBTrACS CSV as [pd.read_csv] delivers it. The line
    of units under the header makes every column a column of text, so
    each cell is a string. The six columns the code names are fields;
    [other] holds the remaining columns by name. *)
Record csv_row : Type := mkCsvRow {
  NAME : string;
  ISO_TIME : string;
  WMO_WIND : string;
  WMO_PRES : string;
  LAT : string;
  LON : string;
  other : list (string * string)
}.

(** The parsed table: the names of its columns and its lines, the
    line of units first. *)
Record DataFrame : Type := mkDataFrame {
  columns : list string;
  rows : list csv_row
}.

(** A row of the frame [get_storm_track] returns: [ISO_TIME] parsed
    (a naive timestamp, in nanoseconds), [LON] converted to 0-360
    degrees, [LON_180] the original text of the longitude. *)
Record track_row : Type := mkTrackRow {
  t_NAME : string;
  t_ISO_TIME : Z;
  t_WMO_WIND : string;
  t_WMO_PRES : string;
  t_LAT : string;
  t_LON : Py.float64;
  t_LON_180 : string;
  t_other : list (string * string)
}.

Definition _lon_to_360 (dlon : Py.float64) : Py.float64 :=
  Py.mod_ (Py.add 360 (Py.mod_ dlon 360)) 360.

(** [pd.to_datetime(str(year))]: a naive instant, or [NaT] ([None]). *)
Definition year_bound (year : Z) : result (option Z) :=
  match Time.iso8601 (Time.str year) with
  | Some ts => ok (Some (Time.ns ts))
  | None => of_option (ParseError (Time.str year)) (to_datetime_year year)
  end.

(** [data["ISO_TIME"] = pd.to_datetime(data["ISO_TIME"])]: the column
    is read as a whole, and each line gets the value read for it. *)
Definition parse_times (data : list csv_row)
  : result (bool * list (csv_row * option Z)) :=
  s ← of_option (ParseError "ISO_TIME") (to_datetime_series (ISO_TIME <$> data));
  ok (tz_aware s, zip data (stamps s)).

(** Comparing the column with a bound: pandas refuses to compare a
    timezone-aware column with a naive instant; against [NaT] every
    comparison is [False]. *)
Definition compare_bound (aware : bool) (bound : option Z) : result unit :=
  match bound with
  | Some _ => if aware then raise TypeError else ok tt
  | None => ok tt
  end.

(** [(data["ISO_TIME"] >= year_start) & (data["ISO_TIME"] < year_end)] *)
Definition in_year (year_start year_end : option Z) (rt : csv_row * option Z) : bool :=
  match year_start, year_end, rt.2 with
  | Some lo, Some hi, Some t => (lo <=? t) && (t <? hi)
  | _, _, _ => false
  end.

(** [data[mask]]: the lines kept carry an instant. *)
Definition masked (year_start year_end : option Z) (data : list (csv_row * option Z))
  : list (csv_row * Z) :=
  omap (fun rt => if in_year year_start year_end rt
                  then t ← rt.2; Some (rt.1, t)
                  else None) data.

(** [data[vars_to_extract]]: every requested column must exist. *)
Fixpoint check_columns (cols vars : list string) : result unit :=
  match vars with
  | [] => ok tt
  | v :: vars' =>
      if bool_decide (v ∈ cols) then check_columns cols vars' else raise (KeyError v)
  end.

Definition project (vars : list string) (r : csv_row) : list (string * string) :=
  filter (fun kv => bool_decide (kv.1 ∈ vars)) (other r).

(** [data["LON_180"] = data["LON"]; data["LON"] = data["LON"].astype(float).apply(_lon_to_360)] *)
Definition convert (vars : list string) (rt : csv_row * Z) : result track_row :=
  match Lib.float (LON rt.1) with
  | None => raise (ParseError (LON rt.1))
  | Some x =>
      ok {| t_NAME := NAME rt.1;
            t_ISO_TIME := rt.2;
            t_WMO_WIND := WMO_WIND rt.1;
            t_WMO_PRES := WMO_PRES rt.1;
            t_LAT := LAT rt.1;
            t_LON := _lon_to_360 x;
            t_LON_180 := LON rt.1;
            t_other := project vars rt.1 |}
  end.

Definition wmo_present (rt : csv_row * Z) : bool :=
  negb (String.eqb (WMO_WIND rt.1) " ") && negb (String.eqb (WMO_PRES rt.1) " ").

(** [IBTRACS_EXTRACT_VARS.copy()] extended by the extra variables it
    does not hold yet. *)
Definition vars_to_extract (extra_vars : option (list string)) : list string :=
  Config.IBTRACS_EXTRACT_VARS ++
  match extra_vars with
  | Some vs => filter (fun v => negb (bool_decide (v ∈ Config.IBTRACS_EXTRACT_VARS))) vs
  | None => []
  end.

(** [ibtracs_csv] is the table [pd.read_csv] has read from the path. *)
Definition get_storm_track (name : string) (year : Z) (ibtracs_csv : DataFrame)
    (filter_missing_wmo : bool) (extra_vars : option (list string))
  : result (list track_row) :=
  let data := drop 1 (rows ibtracs_csv) in                  (* drop units row *)
  year_start ← year_bound year;
  year_end ← year_bound (year + 1);
  _ ← check_columns (columns ibtracs_csv) ["NAME"];
  let data := filter (fun r => String.eqb (NAME r) name) data in
  _ ← check_columns (columns ibtracs_csv) ["ISO_TIME"];
  '(aware, data) ← parse_times data;
  _ ← compare_bound aware year_start;
  _ ← compare_bound aware year_end;
  let data := masked year_start year_end data in
  let vars := vars_to_extract extra_vars in
  _ ← check_columns (columns ibtracs_csv) vars;
  let data := if filter_missing_wmo then filter wmo_present data else data in
  mapM (convert vars) data.

End Ibtracs.
End Ibtracs.

(** ** xarray datasets and the libraries around them *)

(** The value of a global attribute: text, or a float ([None] is NaN). *)
Inductive attr : Type :=
  | AStr (s : string)
  | AFloat (x : option Q).

(** A variable's data: its rows along the first dimension ([Scanline]
    for a granule), NaN as [None]. *)
Abbreviation DataArray := (list (list (option Q))).

Record Dataset : Type := mkDataset {
  attrs : gmap string attr;
  data_vars : gmap string DataArray
}.

(** One storm of the IBTrACS netCDF file: [name] and [season] have the
    dimension [storm]; [iso_time], [lat] and [lon] have the dimensions
    [storm] and [date_time], so each is the list of the storm's records. *)
Record ibt_storm : Type := mkIbtStorm {
  name : string;
  season : Z;
  iso_time : list string;
  lat : list (option Q);
  lon : list (option Q)
}.

(** shapely: [wkt.loads] and [Point(x, y).within(polygon)]. *)
Class Shapely : Type := {
  Polygon : Type;
  wkt_loads : string -> option Polygon;
  within : Py.float64 -> Py.float64 -> Polygon -> bool
}.

(** xarray: [xr.concat(datasets, dim="Scanline")] and
    [xr.merge([ds_img, ds_snd, ds_storm])]; [None] when the library
    raises. *)
Class Xarray : Type := {
  xr_concat : list Dataset -> option Dataset;
  xr_merge : Dataset -> Dataset -> list ibt_storm -> option Dataset
}.

(** A directory of granule files: what [os.listdir] returns and what
    [xr.open_dataset] reads under each name ([None]: the file cannot be
    opened). *)
Record Directory : Type := mkDirectory {
  listdir : list string;
  open_dataset : string -> option Dataset
}.

(** ** mirs.py *)

Module Mirs.
Section Mirs.

Context `{Pandas} `{Python} `{Shapely} `{Xarray}.

(** [pd.to_datetime(ds.attrs[key])]. A NaN attribute gives [NaT]
    ([None] here), as does a text pandas reads as [NaT]; a number gives
    a naive timestamp. *)
Definition coverage_time (ds : Dataset) (key : string) : result (option Time.Timestamp) :=
  match attrs ds !! key with
  | None => raise (KeyError key)
  | Some (AStr s) => of_option (ParseError s) (Lib.to_datetime s)
  | Some (AFloat None) => ok None
  | Some (AFloat (Some x)) => ok (Some (Time.mkTimestamp (Qfloor x) false))
  end.

(** [a <= b] where [a] is timezone-aware: [False] against [NaT], a
    [TypeError] against a naive timestamp. *)
Definition aware_le (a : Z) (b : option Time.Timestamp) : result bool :=
  match b with
  | None => ok false
  | Some ts => if Time.tz_utc ts then ok (a <=? Time.ns ts) else raise TypeError
  end.

Definition aware_ge (a : Z) (b : option Time.Timestamp) : result bool :=
  match b with
  | None => ok false
  | Some ts => if Time.tz_utc ts then ok (Time.ns ts <=? a) else raise TypeError
  end.

(** [ds.attrs["geospatial_first_scanline_first_fov_lon"] >= 0] *)
Definition first_fov_lon_nonneg (ds : Dataset) : result bool :=
  match attrs ds !! "geospatial_first_scanline_first_fov_lon" with
  | None => raise (KeyError "geospatial_first_scanline_first_fov_lon")
  | Some (AStr _) => raise TypeError
  | Some (AFloat None) => ok false
  | Some (AFloat (Some x)) => ok (Qle_bool 0 x)
  end.

Definition point_in_bounds (ds : Dataset) (lat lon_180 : string) : result bool :=
  match attrs ds !! "geospatial_bounds" with
  | None => raise (KeyError "geospatial_bounds")
  | Some (AFloat _) => raise TypeError
  | Some (AStr text) =>
      polygon_val ← of_option (LibError "wkt.loads") (wkt_loads text);
      x ← of_option (ParseError lon_180) (Lib.float lon_180);
      y ← of_option (ParseError lat) (Lib.float lat);
      ok (within x y polygon_val)
  end.

(** [t_behind] and [t_ahead] are timezone-aware (UTC) instants, in
    nanoseconds. *)
Definition _granule_overlaps_track_point (ds : Dataset) (lat lon_180 : string)
    (t_behind t_ahead : Z) (require_east_of_dateline : bool) : result bool :=
  start ← coverage_time ds "time_coverage_start";
  end_ ← coverage_time ds "time_coverage_end";
  b1 ← aware_le t_behind start;
  b2 ← (if (b1 : bool) then aware_ge t_ahead end_ else ok false);    (* [and] *)
  if negb b2 then ok false
  else
    excluded ← (if require_east_of_dateline then first_fov_lon_nonneg ds
                else ok false);
    if (excluded : bool) then ok false
    else point_in_bounds ds lat lon_180.

(** [track[col].iloc[ipt]]: a negative index counts from the end. *)
Definition iloc {A} (l : list A) (ipt : Z) : result A :=
  let n := Z.of_nat (length l) in
  let i := if ipt <? 0 then ipt + n else ipt in
  if (0 <=? i) && (i <? n)
  then of_option IndexError (l !! Z.to_nat i)
  else raise IndexError.

(** The inner loop over the directory's files, for one track point. *)
Fixpoint scan_files (mirs_dir : Directory) (lat_val lon_val : string)
    (t_behind t_ahead : Z) (require_east_of_dateline : bool)
    (files : list string) (matched : gset string) : result (gset string) :=
  match files with
  | [] => ok matched
  | fname :: files' =>
      if negb (Py.endswith fname ".nc")
      then scan_files mirs_dir lat_val lon_val t_behind t_ahead
             require_east_of_dateline files' matched
      else
        ds ← of_option (LibError "open_dataset") (open_dataset mirs_dir fname);
        b ← _granule_overlaps_track_point ds lat_val lon_val t_behind t_ahead
              require_east_of_dateline;
        scan_files mirs_dir lat_val lon_val t_behind t_ahead
          require_east_of_dateline files'
          (if (b : bool) then {[fname]} ∪ matched else matched)
  end.

(** The outer loop over the track points. *)
Fixpoint scan_track (track : list Ibtracs.track_row) (mirs_dir : Directory)
    (time_window_hours : Z) (require_east_of_dateline : bool)
    (indices : list Z) (matched : gset string) : result (gset string) :=
  match indices with
  | [] => ok matched
  | ipt :: indices' =>
      pt ← iloc track ipt;
      let t_val := Ibtracs.t_ISO_TIME pt in
      let lat_val := Ibtracs.t_LAT pt in
      let lon_val := Ibtracs.t_LON_180 pt in
      let t_ahead := t_val + time_window_hours * Time.hour in
      let t_behind := t_val - time_window_hours * Time.hour in
      matched' ← scan_files mirs_dir lat_val lon_val t_behind t_ahead
                   require_east_of_dateline (listdir mirs_dir) matched;
      scan_track track mirs_dir time_window_hours require_east_of_dateline
        indices' matched'
  end.

(** The indices [find_mirs_files] loops over. *)
Definition track_points (track : list Ibtracs.track_row)
    (track_indices : option (list Z)) : list Z :=
  match track_indices with
  | Some l => l
  | None => Z.of_nat <$> seq 0 (length track)
  end.

(** [sorted(f for f in matched if f.startswith(p))] *)
Definition sorted_with_prefix (p : string) (matched : gset string) : list string :=
  merge_sort String.le (filter (fun f => Py.startswith f p) (elements matched)).

Definition find_mirs_files (track : list Ibtracs.track_row) (mirs_dir : Directory)
    (time_window_hours : Z) (require_east_of_dateline : bool)
    (track_indices : option (list Z)) : result (list string * list string) :=
  let indices := track_points track track_indices in
  matched ← scan_track track mirs_dir time_window_hours require_east_of_dateline
              indices ∅;
  let img_files := sorted_with_prefix "NPR-MIRS-IMG" matched in
  let snd_files := sorted_with_prefix "NPR-MIRS-SND" matched in
  ok (img_files, snd_files).

(** [ds.drop_vars(names, errors="ignore")] *)
Definition drop_vars (ds : Dataset) (names : list string) : Dataset :=
  mkDataset (attrs ds) (filter (fun kv => kv.1 ∉ names) (data_vars ds)).

(** [ds[names]]: a [KeyError] for a variable the dataset lacks. *)
Definition select_vars (ds : Dataset) (names : list string) : result Dataset :=
  vs ← mapM (fun k => v ← of_option (KeyError k) (data_vars ds !! k); ok (k, v)) names;
  ok (mkDataset (attrs ds) (list_to_map vs)).

Definition open_all (mirs_dir : Directory) (files : list string) : result (list Dataset) :=
  mapM (fun f => of_option (LibError "open_dataset") (open_dataset mirs_dir f)) files.

Definition load_and_merge_mirs (img_files snd_files : list string) (mirs_dir : Directory)
    (snd_vars_to_keep img_vars_to_remove : list string) : result (Dataset * Dataset) :=
  match img_files with
  | [] => raise (ValueError "No MIRS IMG files provided.")
  | _ =>
      match snd_files with
      | [] => raise (ValueError "No MIRS SND files provided.")
      | _ =>
          ds_img_list ← open_all mirs_dir img_files;
          c_img ← of_option (LibError "concat") (xr_concat ds_img_list);
          let ds_img := drop_vars c_img img_vars_to_remove in
          ds_snd_list ← open_all mirs_dir snd_files;
          c_snd ← of_option (LibError "concat") (xr_concat ds_snd_list);
          ds_snd ← select_vars c_snd snd_vars_to_keep;
          ok (ds_img, ds_snd)
      end
  end.

End Mirs.
End Mirs.

(** ** output.py *)

Module Output.
Section Output.

Context `{Xarray}.

(** [float(a.min())] and [float(a.max())]: xarray skips NaN; an array
    of NaN only gives NaN. *)
Fixpoint nanmin (l : list (option Q)) : option Q :=
  match l with
  | [] => None
  | None :: l' => nanmin l'
  | Some x :: l' =>
      match nanmin l' with
      | None => Some x
      | Some m => Some (Qmin x m)
      end
  end.

Fixpoint nanmax (l : list (option Q)) : option Q :=
  match l with
  | [] => None
  | None :: l' => nanmax l'
  | Some x :: l' =>
      match nanmax l' with
      | None => Some x
      | Some m => Some (Qmax x m)
      end
  end.

(** [ds_ibt.where(ds_ibt.name == name, drop=True)] followed by
    [.where(ds_storm.season == float(year), drop=True)] *)
Definition select_storm (ds_ibt : list ibt_storm) (storm_name : string)
    (storm_year : Z) : list ibt_storm :=
  filter (fun s => season s = storm_year)
    (filter (fun s => name s = storm_name) ds_ibt).

(** [ds_storm["iso_time"][:, 0].item()]: the first record's time of the
    only storm selected; [item] raises unless there is exactly one. *)
Definition first_time (ds_storm : list ibt_storm) : result string :=
  t0s ← mapM (fun s => of_option IndexError (iso_time s !! 0%nat)) ds_storm;
  match t0s with
  | [t0] => ok t0
  | _ => raise (LibError "item")
  end.

Definition build_output_dataset (ds_img ds_snd : Dataset) (ds_ibt : list ibt_storm)
    (storm_name : string) (storm_year : Z) : result Dataset :=
  let ds_storm := select_storm ds_ibt storm_name storm_year in
  ds_merged ← of_option (LibError "merge") (xr_merge ds_img ds_snd ds_storm);
  let a := <["TC_name" := AStr storm_name]> (attrs ds_merged) in
  t0 ← first_time ds_storm;
  let a := <["TC_time_start" := AStr t0]> a in
  let a := <["TC_minimum_lat" := AFloat (Py.round2 <$> nanmin (concat (lat <$> ds_storm)))]> a in
  let a := <["TC_minimum_lon" := AFloat (Py.round2 <$> nanmin (concat (lon <$> ds_storm)))]> a in
  let a := <["TC_maximum_lat" := AFloat (Py.round2 <$> nanmax (concat (lat <$> ds_storm)))]> a in
  let a := <["TC_maximum_lon" := AFloat (Py.round2 <$> nanmax (concat (lon <$> ds_storm)))]> a in
  ok (mkDataset a (data_vars ds_merged)).

End Output.
End Output.

(** ** cli.py *)

Module Cli.

(** The [argparse.Namespace] of [parse_args]. *)
Record Namespace : Type := mkNamespace {
  arg_name : string;
  arg_year : Z;
  arg_mirs_dir : string;
  arg_ibt_nc : string;
  arg_ibt_csv : string;
  arg_output : option string;
  arg_test_indices : option (list Z);
  arg_filter_missing_wmo : bool
}.

(** argparse on a command line that is not made of option strings
    written in full, each value a token of its own (abbreviated
    options, [--opt=value], values that start with a dash, [--], ...). *)
Class Argparse : Type := {
  parse_args_other : list string -> result Namespace
}.

(** What is known of argparse's answer: it accepts with a result, it
    exits, or the command line has a form that is left to
    [parse_args_other]. *)
Inductive outcome (A : Type) : Type :=
  | Parsed (a : A)
  | Rejected
  | Other.
Arguments Parsed {A} a.
Arguments Rejected {A}.
Arguments Other {A}.

Section Cli.

Context `{Pandas} `{Python} `{Shapely} `{Xarray} `{Argparse}.

(** The options still being read: [--name] and [--year] are required
    and start absent. *)
Record partial : Type := mkPartial {
  p_name : option string;
  p_year : option Z;
  p_mirs_dir : string;
  p_ibt_nc : string;
  p_ibt_csv : string;
  p_output : option string;
  p_test_indices : option (list Z);
  p_filter_missing_wmo : bool
}.

Definition defaults : partial :=
  {| p_name := None;
     p_year := None;
     p_mirs_dir := "/Users/sophiahu/Documents/MIRS_DATA/";
     p_ibt_nc := "IBTrACS.ALL.v04r00.nc";
     p_ibt_csv := "ibtracs.ALL.list.v04r00.csv";
     p_output := None;
     p_test_indices := None;
     p_filter_missing_wmo := true |}.

(** What the option last read still expects. *)
Inductive pending : Type :=
  | Ready
  | Value (opt : string)          (* exactly one argument *)
  | Indices (sofar : list Z).     (* [nargs="+"], [type=int] *)

Definition valued_options : list string :=
  ["--name"; "--year"; "--mirs-dir"; "--ibt-nc"; "--ibt-csv"; "--output"].

Definition toggles : list string :=
  ["--filter-missing-wmo"; "--no-filter-missing-wmo"].

(** The option strings of the parser, those of [-h] included. *)
Definition option_strings : list string :=
  ["-h"; "--help"] ++ valued_options ++ ["--test-indices"] ++ toggles.

Definition set_value (opt v : string) (p : partial) : outcome partial :=
  if String.eqb opt "--name" then
    Parsed (mkPartial (Some v) (p_year p) (p_mirs_dir p) (p_ibt_nc p) (p_ibt_csv p)
              (p_output p) (p_test_indices p) (p_filter_missing_wmo p))
  else if String.eqb opt "--year" then
    match Py.int v with
    | Some y =>
        Parsed (mkPartial (p_name p) (Some y) (p_mirs_dir p) (p_ibt_nc p) (p_ibt_csv p)
                  (p_output p) (p_test_indices p) (p_filter_missing_wmo p))
    | None => Other
    end
  else if String.eqb opt "--mirs-dir" then
    Parsed (mkPartial (p_name p) (p_year p) v (p_ibt_nc p) (p_ibt_csv p)
              (p_output p) (p_test_indices p) (p_filter_missing_wmo p))
  else if String.eqb opt "--ibt-nc" then
    Parsed (mkPartial (p_name p) (p_year p) (p_mirs_dir p) v (p_ibt_csv p)
              (p_output p) (p_test_indices p) (p_filter_missing_wmo p))
  else if String.eqb opt "--ibt-csv" then
    Parsed (mkPartial (p_name p) (p_year p) (p_mirs_dir p) (p_ibt_nc p) v
              (p_output p) (p_test_indices p) (p_filter_missing_wmo p))
  else
    Parsed (mkPartial (p_name p) (p_year p) (p_mirs_dir p) (p_ibt_nc p) (p_ibt_csv p)
              (Some v) (p_test_indices p) (p_filter_missing_wmo p)).

Definition set_indices (l : list Z) (p : partial) : partial :=
  mkPartial (p_name p) (p_year p) (p_mirs_dir p) (p_ibt_nc p) (p_ibt_csv p)
    (p_output p) (Some l) (p_filter_missing_wmo p).

Definition set_filter (b : bool) (p : partial) : partial :=
  mkPartial (p_name p) (p_year p) (p_mirs_dir p) (p_ibt_nc p) (p_ibt_csv p)
    (p_output p) (p_test_indices p) b.

(** A token where an option is expected. An option string written in
    full starts its option; [-h] and [--help] print the help and exit;
    any other token that starts with a dash is left to argparse; a
    token without a dash is an argument nobody takes, and argparse
    exits on it. *)
Definition read_option (tok : string) (p : partial) : outcome (partial * pending) :=
  if bool_decide (tok ∈ valued_options) then Parsed (p, Value tok)
  else if String.eqb tok "--test-indices" then Parsed (p, Indices [])
  else if String.eqb tok "--filter-missing-wmo" then Parsed (set_filter true p, Ready)
  else if String.eqb tok "--no-filter-missing-wmo" then Parsed (set_filter false p, Ready)
  else if String.eqb tok "-h" || String.eqb tok "--help" then Rejected
  else if Py.startswith tok "-" then Other
  else Rejected.

(** The command line, token by token; a repeated option overrides the
    earlier one. A value that starts with a dash, and a value of
    [--year] or [--test-indices] that is not a plain numeral, are left
    to argparse, but for the negative numerals after [--test-indices],
    which argparse takes as arguments. *)
Fixpoint parse_tokens (argv : list string) (p : partial) (st : pending)
  : outcome partial :=
  match argv with
  | [] =>
      match st with
      | Ready => Parsed p
      | Value _ => Rejected
      | Indices [] => Rejected
      | Indices l => Parsed (set_indices l p)
      end
  | tok :: argv' =>
      match st with
      | Ready =>
          match read_option tok p with
          | Parsed (p', st') => parse_tokens argv' p' st'
          | Rejected => Rejected
          | Other => Other
          end
      | Value opt =>
          if Py.startswith tok "-" then Other
          else
            match set_value opt tok p with
            | Parsed p' => parse_tokens argv' p' Ready
            | Rejected => Rejected
            | Other => Other
            end
      | Indices l =>
          if bool_decide (tok ∈ option_strings) then
            match l with
            | [] => Rejected
            | _ =>
                match read_option tok (set_indices l p) with
                | Parsed (p', st') => parse_tokens argv' p' st'
                | Rejected => Rejected
                | Other => Other
                end
            end
          else
            match Py.int tok with
            | Some i => parse_tokens argv' p (Indices (l ++ [i]))
            | None => Other
            end
      end
  end.

Definition parse_args (argv : list string) : result Namespace :=
  match parse_tokens argv defaults Ready with
  | Parsed p =>
      match p_name p, p_year p with
      | Some n, Some y =>
          ok (mkNamespace n y (p_mirs_dir p) (p_ibt_nc p) (p_ibt_csv p)
                (p_output p) (p_test_indices p) (p_filter_missing_wmo p))
      | _, _ => raise SystemExit
      end
  | Rejected => raise SystemExit
  | Other => parse_args_other argv
  end.

(** The files the run reads: the track table behind a path, the
    granule directory behind a path, the IBTrACS netCDF file behind a
    path ([None]: unreadable). *)
Record World : Type := mkWorld {
  read_csv : string -> option Ibtracs.DataFrame;
  directory : string -> option Directory;
  open_ibt : string -> option (list ibt_storm)
}.

(** Everything [main] does once the track is loaded. The result is
    the path written and the dataset written there. *)
Definition after_track (w : World) (args : Namespace) (storm_name output_file : string)
    (track : list Ibtracs.track_row) : result (string * Dataset) :=
  mirs_dir ← of_option (LibError "listdir") (directory w (arg_mirs_dir args));
  '(img_files, snd_files) ←
    Mirs.find_mirs_files track mirs_dir Config.TIME_WINDOW_HOURS true
      (arg_test_indices args);
  '(ds_img, ds_snd) ←
    Mirs.load_and_merge_mirs img_files snd_files mirs_dir
      Config.SND_VARS_TO_KEEP Config.IMG_VARS_TO_REMOVE;
  ds_ibt ← of_option (LibError "open_dataset") (open_ibt w (arg_ibt_nc args));
  ds_out ← Output.build_output_dataset ds_img ds_snd ds_ibt storm_name (arg_year args);
  ok (output_file, ds_out).

(** [get_storm_track] as [main] reaches it: the table is read from
    the path first. *)
Definition load_track (w : World) (storm_name : string) (year : Z) (ibtracs_csv : string)
    (filter_missing_wmo : bool) : result (list Ibtracs.track_row) :=
  csv ← of_option (LibError "read_csv") (read_csv w ibtracs_csv);
  Ibtracs.get_storm_track storm_name year csv filter_missing_wmo None.

Definition default_output (storm_name : string) (year : Z) : string :=
  storm_name +:+ "_" +:+ Time.str year +:+ "_all_data.nc".

Definition main (w : World) (argv : list string) : result (string * Dataset) :=
  args ← parse_args argv;
  let storm_name := Py.upper (arg_name args) in
  let output_file :=
    match arg_output args with
    | Some o => if String.eqb o "" then default_output storm_name (arg_year args) else o
    | None => default_output storm_name (arg_year args)
    end in
  (* 2021 IBTrACS data has blank WMO fields; skip that filter *)
  let filter_wmo := arg_filter_missing_wmo args && negb (arg_year args =? 2021) in
  track ← load_track w storm_name (arg_year args) (arg_ibt_csv args) filter_wmo;
  after_track w args storm_name output_file track.

End Cli.
End Cli.

(** ** Vocabulary of the properties *)

Module TrackSpec.
Section TrackSpec.
Import Ibtracs.

Context `{Pandas} `{Python}.

(** The lines of the table under the line of units. *)
Definition body (csv : DataFrame) : list csv_row := drop 1 (rows csv).

(** The lines named exactly like the storm. *)
Definition named (name : string) (csv : DataFrame) : list csv_row :=
  filter (fun r => String.eqb (NAME r) name) (body csv).

(** pandas has read the [ISO_TIME] cells of the storm's lines as the
    naive column [times]. *)
Definition read_times (name : string) (csv : DataFrame) (times : list (option Z)) : Prop :=
  to_datetime_series (ISO_TIME <$> named name csv) = Some (mkSeries false times).

(** The storm's lines, each with the timestamp read for it ([None]:
    [NaT]). *)
Definition stamped (name : string) (csv : DataFrame) (times : list (option Z))
  : list (csv_row * option Z) :=
  zip (named name csv) times.

(** The first instant of a year, [year-01-01T00:00:00]. *)
Definition year_start (year : Z) : Z := Time.civil_ns year 1 1 0 0 0.

(** The timestamp of the line lies in [[lo, hi)]. *)
Definition selected (lo hi : Z) (rt : csv_row * option Z) : bool :=
  match rt.2 with
  | Some t => (lo <=? t) && (t <? hi)
  | None => false
  end.

(** The wind field or the pressure field is the blank cell [" "]. *)
Definition wmo_blank (r : csv_row) : bool :=
  String.eqb (WMO_WIND r) " " || String.eqb (WMO_PRES r) " ".

Definition kept (lo hi : Z) (filter_missing_wmo : bool) (rt : csv_row * option Z) : bool :=
  selected lo hi rt && (negb filter_missing_wmo || negb (wmo_blank rt.1)).

(** The row of the result that a line of the table, with its
    timestamp, becomes. *)
Definition produced_from (rt : csv_row * option Z) (tr : track_row) : Prop :=
  t_NAME tr = NAME rt.1 /\
  rt.2 = Some (t_ISO_TIME tr) /\
  t_WMO_WIND tr = WMO_WIND rt.1 /\
  t_WMO_PRES tr = WMO_PRES rt.1 /\
  t_LAT tr = LAT rt.1 /\
  t_LON_180 tr = LON rt.1 /\
  exists x, Lib.float (LON rt.1) = Some x /\ t_LON tr = _lon_to_360 x.

Definition track_blank (tr : track_row) : bool :=
  String.eqb (t_WMO_WIND tr) " " || String.eqb (t_WMO_PRES tr) " ".

(** A line that passed the mask keeps the line and carries its instant. *)
Definition parsed_from (rt : csv_row * option Z) (rt' : csv_row * Z) : Prop :=
  rt.1 = rt'.1 /\ rt.2 = Some rt'.2.

(** The selection by name and year alone: the rows returned are the
    lines named [name] and timed in the year, nothing more asked. *)
Definition exact_name_year (name : string) (year : Z) (csv : DataFrame)
    (filter_missing_wmo : bool) (extra_vars : option (list string)) : Prop :=
  forall out,
    get_storm_track name year csv filter_missing_wmo extra_vars = ok out ->
    exists times,
      read_times name csv times /\
      Forall2 produced_from
        (filter (selected (year_start year) (year_start (year + 1)))
           (stamped name csv times)) out.

End TrackSpec.
End TrackSpec.

Module TurnSpec.

(** [x] is a finite value of [[0, 360)]. *)
Definition in_turn (x : Py.float64) : Prop :=
  exists q, x = Py.Ffin q /\ (0 <= q)%Q /\ (q < 360)%Q.

(** [x] and [y] are finite and a whole number of turns apart. *)
Definition congruent_360 (x y : Py.float64) : Prop :=
  exists (p q : Q) (k : Z),
    x = Py.Ffin p /\ y = Py.Ffin q /\ (p == q + 360 * inject_Z k)%Q.

(** [x] is finite and at most [eps] away from a value a whole number
    of turns from the finite [y]. *)
Definition near_congruent_360 (eps : Q) (x y : Py.float64) : Prop :=
  exists (p q : Q) (k : Z),
    x = Py.Ffin p /\ y = Py.Ffin q /\ (Qabs (p - (q + 360 * inject_Z k)) <= eps)%Q.

(** The longitude of [[0, 360)] a whole number of turns from [q]. *)
Definition turn_of (q : Q) : Q := (q - 360 * inject_Z (Qfloor (q / 360)))%Q.

(** The normalization as the specification words it: for every finite
    longitude, a value of [[0, 360)] congruent to it modulo 360. *)
Definition normalizes_exactly : Prop :=
  forall q, in_turn (Ibtracs._lon_to_360 (Py.Ffin q)) /\
            congruent_360 (Ibtracs._lon_to_360 (Py.Ffin q)) (Py.Ffin q).

End TurnSpec.

Module GranuleSpec.
Section GranuleSpec.

Context `{Pandas} `{Python} `{Shapely} `{Xarray}.

(** The granule declares the coverage [[start, end_]], both ends
    timezone-aware instants in nanoseconds. *)
Definition coverage (ds : Dataset) (start end_ : Z) : Prop :=
  Mirs.coverage_time ds "time_coverage_start" = ok (Some (Time.mkTimestamp start true)) /\
  Mirs.coverage_time ds "time_coverage_end" = ok (Some (Time.mkTimestamp end_ true)).

(** A file of the directory passes the test of the track point [ipt]. *)
Definition matches_point (track : list Ibtracs.track_row) (mirs_dir : Directory)
    (time_window_hours : Z) (east : bool) (ipt : Z) (fname : string) : Prop :=
  fname ∈ listdir mirs_dir /\ Py.endswith fname ".nc" = true /\
  exists pt ds,
    Mirs.iloc track ipt = ok pt /\
    open_dataset mirs_dir fname = Some ds /\
    Mirs._granule_overlaps_track_point ds (Ibtracs.t_LAT pt) (Ibtracs.t_LON_180 pt)
      (Ibtracs.t_ISO_TIME pt - time_window_hours * Time.hour)
      (Ibtracs.t_ISO_TIME pt + time_window_hours * Time.hour) east = ok true.

End GranuleSpec.
End GranuleSpec.

Module ExtentSpec.

(** [m] is the least (greatest) of the values of [xs] that are not NaN. *)
Definition is_min (m : Q) (xs : list (option Q)) : Prop :=
  Some m ∈ xs /\ forall x, Some x ∈ xs -> (m <= x)%Q.

Definition is_max (m : Q) (xs : list (option Q)) : Prop :=
  Some m ∈ xs /\ forall x, Some x ∈ xs -> (x <= m)%Q.

(** The attribute [a] is the extreme value of [xs] rounded to two
    decimal places, or NaN when [xs] holds no value. *)
Definition rounded_extent (extreme : Q -> list (option Q) -> Prop)
    (xs : list (option Q)) (a : option attr) : Prop :=
  (exists m, extreme m xs /\ a = Some (AFloat (Some (Py.round2 m)))) \/
  ((forall x, Some x ∉ xs) /\ a = Some (AFloat None)).

(** The attributes [build_output_dataset] attaches. *)
Definition summary_attrs : list string :=
  ["TC_name"; "TC_time_start"; "TC_minimum_lat"; "TC_minimum_lon";
   "TC_maximum_lat"; "TC_maximum_lon"].

End ExtentSpec.

Module CliSpec.

(** A command line of option strings written in full, each value a
    token of its own: one whose reading is not left to
    [parse_args_other]. *)
Definition plain (argv : list string) : Prop :=
  Cli.parse_tokens argv Cli.defaults Cli.Ready <> Cli.Other.

End CliSpec.

(** ** A small world to run the package on *)

Module Sample.

(** A pandas that reads a column of timestamps written
    [YYYY-MM-DD hh:mm:ss], or [YYYY-MM-DDThh:mm:ss], in one way
    throughout: the first cell that is a text of that length sets the
    separator of the column; an empty cell is [NaT]; any other cell
    makes the reading fail. *)
Definition separator (text : string) : option ascii :=
  if (String.length text =? 19)%nat then String.get 10 text else None.

Definition read_cell (sep : ascii) (text : string) : option (option Z) :=
  if String.eqb text "" then Some None
  else if bool_decide (separator text = Some sep)
  then (fun ts => Some (Time.ns ts)) <$> Time.iso8601 text
  else None.

Fixpoint read_cells (sep : ascii) (cells : list string) : option (list (option Z)) :=
  match cells with
  | [] => Some []
  | c :: cells' =>
      match read_cell sep c, read_cells sep cells' with
      | Some t, Some ts => Some (t :: ts)
      | _, _ => None
      end
  end.

Definition read_column (cells : list string) : option (list (option Z)) :=
  read_cells (default " "%char (head (omap separator cells))) cells.

#[local] Instance iso_only : Pandas.
Proof.
  refine {|
    to_datetime_other text := if String.eqb text "" then Some None else None;
    to_datetime_year _ := None;
    to_datetime_series cells := mkSeries false <$> read_column cells
  |}.
  - intros cells s. unfold read_column.
    generalize (default " "%char (head (omap separator cells))). intros sep.
    revert s. induction cells as [|c cells IH]; intros s E.
    + inversion E. reflexivity.
    + cbn in E. destruct (read_cell sep c); [|discriminate].
      destruct (read_cells sep cells) as [ts|]; [|discriminate].
      inversion E. cbn. f_equal. apply (IH (mkSeries false ts)). reflexivity.
  - reflexivity.
Defined.

(** A Python that reads plain decimal numerals only. *)
#[local] Instance decimals_only : Python := {|
  float_other _ := None
|}.

(** An argparse that takes full option strings only. *)
#[local] Instance full_options : Cli.Argparse := {|
  Cli.parse_args_other _ := raise SystemExit
|}.

(** Axis-parallel boxes [(xmin, xmax, ymin, ymax)] stand for polygons;
    a point is within a box when it is strictly inside. *)
#[local] Instance boxes : Shapely := {|
  Polygon := Q * Q * Q * Q;
  wkt_loads text :=
    if String.eqb text "POLYGON((-100 20,-80 20,-80 40,-100 40,-100 20))"
    then Some (-100, -80, 20, 40)%Q
    else if String.eqb text "POLYGON((100 -40,120 -40,120 -20,100 -20,100 -40))"
    then Some (100, 120, -40, -20)%Q
    else None;
  within x y b :=
    match x, y with
    | Py.Ffin x, Py.Ffin y =>
        let '(x0, x1, y0, y1) := b in
        negb (Qle_bool x x0) && negb (Qle_bool x1 x)
        && negb (Qle_bool y y0) && negb (Qle_bool y1 y)
    | _, _ => false
    end
|}.

(** Variables of the first dataset, each extended by the rows the
    later datasets have under the same name; a merge that keeps the
    imagery attributes and adds the sounding variables. *)
#[local] Instance lists : Xarray := {|
  xr_concat dss :=
    match dss with
    | [] => None
    | ds :: rest =>
        Some (mkDataset (attrs ds)
                (map_imap (fun k v =>
                   Some (v ++ concat ((fun d => default [] (data_vars d !! k)) <$> rest)))
                   (data_vars ds)))
    end;
  xr_merge ds_img ds_snd ds_storm :=
    Some (mkDataset (attrs ds_img) (data_vars ds_img ∪ data_vars ds_snd))
|}.

Definition granule (t0 t1 : string) (first_lon : Q) (bounds : string)
    (vars : list (string * DataArray)) : Dataset :=
  mkDataset
    (<["time_coverage_start" := AStr t0]>
     (<["time_coverage_end" := AStr t1]>
      (<["geospatial_first_scanline_first_fov_lon" := AFloat (Some first_lon)]>
       (<["geospatial_bounds" := AStr bounds]> ∅))))
    (list_to_map vars).

Definition atlantic : string := "POLYGON((-100 20,-80 20,-80 40,-100 40,-100 20))".
Definition elsewhere : string := "POLYGON((100 -40,120 -40,120 -20,100 -20,100 -40))".

Definition img_vars : list (string * DataArray) :=
  [("TPW", [[Some 51.5%Q]]); ("Snow", [[Some 0%Q]])].
Definition snd_vars : list (string * DataArray) :=
  (fun k => (k, [[Some 1%Q]])) <$> ("Extra" :: Config.SND_VARS_TO_KEEP).

Definition img_a : Dataset :=
  granule "2020-08-26T10:00:00Z" "2020-08-26T10:30:00Z" (-95) atlantic img_vars.
Definition img_c : Dataset :=
  granule "2020-08-27T00:00:00Z" "2020-08-27T06:00:01Z" (-95) atlantic img_vars.
Definition img_d : Dataset :=
  granule "2020-08-26T10:00:00Z" "2020-08-26T10:30:00Z" 5 atlantic img_vars.
Definition snd_a : Dataset :=
  granule "2020-08-26T10:00:00Z" "2020-08-26T10:30:00Z" (-95) atlantic snd_vars.

Definition files : list (string * Dataset) :=
  [("NPR-MIRS-SND_a.nc", snd_a);
   ("NPR-MIRS-IMG_a.nc", img_a);
   ("NPR-MIRS-IMG_b.nc",
     granule "2020-08-26T10:00:00Z" "2020-08-26T10:30:00Z" 110 elsewhere img_vars);
   ("NPR-MIRS-IMG_c.nc", img_c);
   ("NPR-MIRS-IMG_d.nc", img_d);
   ("README.txt", mkDataset ∅ ∅)].

Definition dir : Directory :=
  {| listdir := files.*1;
     open_dataset f := snd <$> List.find (fun kv => String.eqb kv.1 f) files |}.

Definition row (n t wind pres la lo : string) : Ibtracs.csv_row :=
  Ibtracs.mkCsvRow n t wind pres la lo [("SID", "2020239N25270"); ("USA_R34_NE", " ")].

Definition units : Ibtracs.csv_row :=
  row " " " " "kts" "mb" "degrees_north" "degrees_east".

Definition table : Ibtracs.DataFrame :=
  {| Ibtracs.columns := "SID" :: Config.IBTRACS_EXTRACT_VARS;
     Ibtracs.rows :=
       [units;
        row "TEST" "2019-12-31 18:00:00" "30" "1000" "24.9" "-89.0";
        row "TEST" "2020-08-26 12:00:00" "35" "998" "25.10" "-89.60";
        row "OTHER" "2020-08-26 12:00:00" "50" "990" "25.10" "-89.60";
        row "TEST" "2020-08-26 18:00:00" " " "996" "26.004" "-90.25";
        row "TEST" "2020-12-31 23:59:59" "40" " " "27.0" "-91.0";
        row "TEST" "2021-01-01 00:00:00" "45" "990" "28.0" "-92.0"] |}.

(** A table of 2021, where the WMO cells are blank. *)
Definition table_2021 : Ibtracs.DataFrame :=
  {| Ibtracs.columns := "SID" :: Config.IBTRACS_EXTRACT_VARS;
     Ibtracs.rows :=
       [units;
        row "IDA" "2021-12-31T23:59:59" " " " " "29.1" "-90.2";
        row "IDA" "2022-01-01T00:00:00" " " " " "29.2" "-90.1"] |}.

Definition ibt : list ibt_storm :=
  [mkIbtStorm "TEST" 2019 ["2019-06-01 00:00:00"] [Some 10%Q] [Some (-50)%Q];
   mkIbtStorm "TEST" 2020 ["2020-08-26 12:00:00"; "2020-08-26 18:00:00"; ""]
     [Some 25.104%Q; Some 26.004%Q; None] [Some (-89.6)%Q; Some (-90.257)%Q; None];
   mkIbtStorm "OTHER" 2020 ["2020-08-26 12:00:00"] [Some 60%Q] [Some 170%Q]].

(** The track of storm TEST in 2020, wind and pressure cells blank or
    not. *)
Definition track : list Ibtracs.track_row :=
  Eval vm_compute in
    match Ibtracs.get_storm_track "TEST" 2020 table false None with
    | inr t => t
    | inl _ => []
    end.

Definition world : Cli.World :=
  {| Cli.read_csv p := if String.eqb p "ibtracs.ALL.list.v04r00.csv" then Some table else None;
     Cli.directory p := if String.eqb p "/data/mirs/" then Some dir else None;
     Cli.open_ibt p := if String.eqb p "IBTrACS.ALL.v04r00.nc" then Some ibt else None |}.

(** The second track point of the sample, 2020-08-26 18:00:00. *)
Definition t1 : Z := 1598464800000000000.

Definition track_filtered : list Ibtracs.track_row :=
  Eval vm_compute in
    match Ibtracs.get_storm_track "TEST" 2020 table true None with
    | inr t => t
    | inl _ => []
    end.

(** The track of storm IDA in 2021 with the missing-field filter off. *)
Definition track_2021 : list Ibtracs.track_row :=
  Eval vm_compute in
    match Ibtracs.get_storm_track "IDA" 2021 table_2021 false None with
    | inr t => t
    | inl _ => []
    end.

(** The output built for storm TEST of 2020 from two sample granules. *)
Definition sample_output : Dataset :=
  match Output.build_output_dataset img_a snd_a ibt "TEST" 2020 with
  | inr out => out
  | inl _ => mkDataset ∅ ∅
  end.

Definition argv_2021 : list string :=
  ["--name"; "ida"; "--year"; "2021"; "--filter-missing-wmo"].

Definition args_2021 : Cli.Namespace :=
  {| Cli.arg_name := "ida";
     Cli.arg_year := 2021;
     Cli.arg_mirs_dir := "/Users/sophiahu/Documents/MIRS_DATA/";
     Cli.arg_ibt_nc := "IBTrACS.ALL.v04r00.nc";
     Cli.arg_ibt_csv := "ibtracs.ALL.list.v04r00.csv";
     Cli.arg_output := None;
     Cli.arg_test_indices := None;
     Cli.arg_filter_missing_wmo := true |}.

End Sample.

(** ** More of the small world *)

Module Sample2.
Import Sample.
#[local] Existing Instance iso_only.
#[local] Existing Instance decimals_only.
#[local] Existing Instance full_options.
#[local] Existing Instance boxes.
#[local] Existing Instance lists.

(** The first row of the sample track; its longitude is the float
    [270.4]. *)
Definition point0 : Ibtracs.track_row :=
  {| Ibtracs.t_NAME := "TEST";
     Ibtracs.t_ISO_TIME := 1598443200000000000;
     Ibtracs.t_WMO_WIND := "35";
     Ibtracs.t_WMO_PRES := "998";
     Ibtracs.t_LAT := "25.10";
     Ibtracs.t_LON := Py.Ffin (2378463553205043 # 8796093022208);
     Ibtracs.t_LON_180 := "-89.60";
     Ibtracs.t_other := [("USA_R34_NE", " ")] |}.

(** The sample table without the line of storm OTHER. *)
Definition table_test_only : Ibtracs.DataFrame :=
  {| Ibtracs.columns := Ibtracs.columns table;
     Ibtracs.rows :=
       [units;
        row "TEST" "2019-12-31 18:00:00" "30" "1000" "24.9" "-89.0";
        row "TEST" "2020-08-26 12:00:00" "35" "998" "25.10" "-89.60";
        row "TEST" "2020-08-26 18:00:00" " " "996" "26.004" "-90.25";
        row "TEST" "2020-12-31 23:59:59" "40" " " "27.0" "-91.0";
        row "TEST" "2021-01-01 00:00:00" "45" "990" "28.0" "-92.0"] |}.

(** What the sample search returns with a window of 24 hours, and with
    the dateline option on. *)
Definition found_24 : list string * list string :=
  Eval vm_compute in
    match Mirs.find_mirs_files track dir 24 false None with
    | inr r => r
    | inl _ => ([], [])
    end.

Definition found_east : list string * list string :=
  Eval vm_compute in
    match Mirs.find_mirs_files track dir 12 true None with
    | inr r => r
    | inl _ => ([], [])
    end.

Definition found_second : list string * list string :=
  Eval vm_compute in
    match Mirs.find_mirs_files track dir 12 false (Some [1]) with
    | inr r => r
    | inl _ => ([], [])
    end.

(** The sample directory listed backwards. *)
Definition dir_reversed : Directory :=
  {| listdir := reverse (listdir dir); open_dataset := open_dataset dir |}.

(** A directory with a granule file that cannot be opened. *)
Definition dir_broken : Directory :=
  {| listdir := "NPR-MIRS-IMG_x.nc" :: listdir dir; open_dataset := open_dataset dir |}.

(** A directory without granule files. *)
Definition dir_other : Directory :=
  {| listdir := ["README.txt"; "notes.nc4"]; open_dataset := fun _ => None |}.

(** The two datasets merged from one imagery and one sounding file. *)
Definition merged_pair : Dataset * Dataset :=
  match Mirs.load_and_merge_mirs ["NPR-MIRS-IMG_a.nc"] ["NPR-MIRS-SND_a.nc"] dir
          Config.SND_VARS_TO_KEEP Config.IMG_VARS_TO_REMOVE with
  | inr r => r
  | inl _ => (mkDataset ∅ ∅, mkDataset ∅ ∅)
  end.

Definition concat_of (dss : list Dataset) : Dataset :=
  default (mkDataset ∅ ∅) (xr_concat dss).

(** The sounding list holding an imagery file by mistake. *)
Definition c_img_a : Dataset := concat_of [img_a].

(** A command line for the sample world, and what its run returns. *)
Definition argv_2020 : list string :=
  ["--name"; "test"; "--year"; "2020"; "--mirs-dir"; "/data/mirs/"].

Definition sample_run : string * Dataset :=
  match Cli.main world argv_2020 with
  | inr r => r
  | inl _ => ("", mkDataset ∅ ∅)
  end.

Definition args_2020 : Cli.Namespace :=
  {| Cli.arg_name := "test";
     Cli.arg_year := 2020;
     Cli.arg_mirs_dir := "/data/mirs/";
     Cli.arg_ibt_nc := "IBTrACS.ALL.v04r00.nc";
     Cli.arg_ibt_csv := "ibtracs.ALL.list.v04r00.csv";
     Cli.arg_output := None;
     Cli.arg_test_indices := None;
     Cli.arg_filter_missing_wmo := true |}.

Definition args_off : Cli.Namespace :=
  {| Cli.arg_name := "ida";
     Cli.arg_year := 2021;
     Cli.arg_mirs_dir := "/Users/sophiahu/Documents/MIRS_DATA/";
     Cli.arg_ibt_nc := "IBTrACS.ALL.v04r00.nc";
     Cli.arg_ibt_csv := "ibtracs.ALL.list.v04r00.csv";
     Cli.arg_output := None;
     Cli.arg_test_indices := None;
     Cli.arg_filter_missing_wmo := false |}.

End Sample2.

(** * Properties *)

(** ** Evaluation on concrete inputs *)

Example iso8601_year :
  Time.iso8601 "2021" = Some (Time.mkTimestamp 1609459200000000000 false).
Proof. reflexivity. Qed.

Example iso8601_date_time :
  Time.iso8601 "2021-12-31T23:59:59" = Some (Time.mkTimestamp 1640995199000000000 false).
Proof. reflexivity. Qed.

Example iso8601_utc :
  Time.iso8601 "2021-08-29 12:00:00Z" = Some (Time.mkTimestamp 1630238400000000000 true).
Proof. reflexivity. Qed.

Example iso8601_units_row : Time.iso8601 " " = None.
Proof. reflexivity. Qed.

(** [float("-89.60")] is the binary64 value [-89.6]. *)
Example float_of_cell :
  Py.float_decimal "-89.60" = Some (Py.Ffin (-3152519739159347 # 35184372088832)).
Proof. vm_compute. reflexivity. Qed.

(** [_lon_to_360(-90.2)] is [269.79999999999995], and
    [_lon_to_360(-1e-20)] is [0.0]. *)
Example lon_to_360_west :
  Ibtracs._lon_to_360 (Py.rnd (-902 # 10)) = Py.Ffin (1186592948695859 # 4398046511104).
Proof. vm_compute. reflexivity. Qed.

Example lon_to_360_tiny :
  Ibtracs._lon_to_360 (Py.rnd (-1 # 100000000000000000000)) = Py.Ffin 0.
Proof. vm_compute. reflexivity. Qed.

(** [_lon_to_360(-90.0)] is [270.0]. *)
Example lon_to_360_whole : Ibtracs._lon_to_360 (Py.Ffin (-90)) = Py.Ffin 270.
Proof. vm_compute. reflexivity. Qed.

(** ** Rounding to an integer *)

Lemma round_half_even_near (x : Q) : (Qabs (inject_Z (Py.round_half_even x) - x) <= 1 # 2)%Q.
Proof.
  unfold Py.round_half_even.
  pose proof (Qfloor_le x) as Hlo. pose proof (Qlt_floor x) as Hhi.
  rewrite inject_Z_plus in Hhi. change (inject_Z 1) with 1%Q in Hhi.
  set (f := Qfloor x) in *.
  assert (Hup : (Qabs (inject_Z (f + 1) - x) <= 1 # 2)%Q <->
                (1 # 2 <= x - inject_Z f)%Q).
  { rewrite inject_Z_plus. change (inject_Z 1) with 1%Q.
    rewrite Qabs_Qle_condition. split; intros; [|split]; lra. }
  assert (Hdn : (Qabs (inject_Z f - x) <= 1 # 2)%Q <-> (x - inject_Z f <= 1 # 2)%Q).
  { rewrite Qabs_Qle_condition. split; intros; [|split]; lra. }
  destruct (Qcompare (x - inject_Z f) (1 # 2)) eqn:Hc.
  - apply Qeq_alt in Hc. destruct (Z.even f); [apply Hdn|apply Hup]; lra.
  - apply Qlt_alt in Hc. apply Hdn. lra.
  - apply Qgt_alt in Hc. apply Hup. lra.
Qed.

(** Rounding keeps the order. *)
Lemma round_half_even_mono (x y : Q) :
  (x <= y)%Q -> Py.round_half_even x <= Py.round_half_even y.
Proof.
  intros Hxy. unfold Py.round_half_even.
  pose proof (Qfloor_le x) as Hx1. pose proof (Qlt_floor x) as Hx2.
  pose proof (Qfloor_le y) as Hy1. pose proof (Qlt_floor y) as Hy2.
  pose proof (Qfloor_resp_le _ _ Hxy) as Hf.
  rewrite inject_Z_plus in Hx2, Hy2. change (inject_Z 1) with 1%Q in Hx2, Hy2.
  set (fx := Qfloor x) in *. set (fy := Qfloor y) in *.
  destruct (Z.eq_dec fx fy) as [Efy|Hne].
  - rewrite <- Efy in *. clear Efy fy Hf.
    destruct (Qcompare (x - inject_Z fx) (1 # 2)) eqn:Hcx;
      destruct (Qcompare (y - inject_Z fx) (1 # 2)) eqn:Hcy;
      first [apply Qeq_alt in Hcx | apply Qlt_alt in Hcx | apply Qgt_alt in Hcx];
      first [apply Qeq_alt in Hcy | apply Qlt_alt in Hcy | apply Qgt_alt in Hcy];
      try lia; try (exfalso; lra);
      destruct (Z.even fx); lia.
  - assert (Hlt : fx + 1 <= fy) by lia.
    assert (Hup : forall f, (if Z.even f then f else f + 1) <= f + 1)
      by (intros f; destruct (Z.even f); lia).
    assert (Hdn : forall f, f <= (if Z.even f then f else f + 1))
      by (intros f; destruct (Z.even f); lia).
    pose proof (Hup fx) as Hux. pose proof (Hdn fy) as Hdy.
    destruct (Qcompare (x - inject_Z fx) (1 # 2));
      destruct (Qcompare (y - inject_Z fy) (1 # 2)); lia.
Qed.

(** ** Floats and the longitude normalisation *)

Module FloatFacts.
Import Py.
Local Open Scope Q_scope.

Lemma pow2_pos (e : Z) : 0 < 2 ^ e.
Proof. apply Qpower_0_lt. reflexivity. Qed.

Lemma pow2_add (a b : Z) : 2 ^ (a + b) == 2 ^ a * 2 ^ b.
Proof. apply Qpower_plus. discriminate. Qed.

Lemma pow2_le (a b : Z) : (a <= b)%Z -> 2 ^ a <= 2 ^ b.
Proof. intros. apply Qpower_le_compat_l; [done|]. discriminate. Qed.

Lemma pow2_succ (a : Z) : 2 ^ (a + 1) == 2 * 2 ^ a.
Proof. rewrite pow2_add. change (2 ^ 1) with 2. ring. Qed.

Lemma pow2_Z (n : Z) : (0 <= n)%Z -> 2 ^ n == inject_Z (2 ^ n).
Proof. intros. symmetry. apply (Zpower_Qpower 2 n); assumption. Qed.

Lemma Qabs_num_den (q : Q) : Qabs q == inject_Z (Z.abs (Qnum q)) / inject_Z (Zpos (Qden q)).
Proof.
  destruct q as [n d]. unfold Qabs. cbn [Qnum Qden].
  rewrite (Qmake_Qdiv (Z.abs n) d). reflexivity.
Qed.

(** [log2_floor q] is the exponent of the binade of [q]. *)
Lemma log2_floor_spec (q : Q) :
  ~ q == 0 -> 2 ^ log2_floor q <= Qabs q /\ Qabs q < 2 ^ (log2_floor q + 1).
Proof.
  intros Hq. unfold log2_floor.
  set (n := Z.abs (Qnum q)). set (d := Zpos (Qden q)).
  assert (Hn : (0 < n)%Z).
  { subst n. destruct q as [[|p|p] dd]; cbn; try lia. destruct Hq. reflexivity. }
  assert (Hd : (0 < d)%Z) by (subst d; lia).
  destruct (Z.log2_spec n Hn) as [Hn1 Hn2]. destruct (Z.log2_spec d Hd) as [Hd1 Hd2].
  pose proof (Z.log2_nonneg n) as Hln. pose proof (Z.log2_nonneg d) as Hld.
  set (ln := Z.log2 n) in *. set (ld := Z.log2 d) in *.
  assert (EN1 : 2 ^ ln <= inject_Z n).
  { rewrite pow2_Z by lia. rewrite <- Zle_Qle. exact Hn1. }
  assert (EN2 : inject_Z n < 2 * 2 ^ ln).
  { rewrite <- pow2_succ. rewrite pow2_Z by lia. rewrite <- Zlt_Qlt.
    replace (ln + 1)%Z with (Z.succ ln) by lia. exact Hn2. }
  assert (ED1 : 2 ^ ld <= inject_Z d).
  { rewrite pow2_Z by lia. rewrite <- Zle_Qle. exact Hd1. }
  assert (ED2 : inject_Z d < 2 * 2 ^ ld).
  { rewrite <- pow2_succ. rewrite pow2_Z by lia. rewrite <- Zlt_Qlt.
    replace (ld + 1)%Z with (Z.succ ld) by lia. exact Hd2. }
  pose proof (pow2_pos ln) as Pn. pose proof (pow2_pos ld) as Pd.
  assert (Ec : 2 ^ (ln - ld) * 2 ^ ld == 2 ^ ln).
  { rewrite <- pow2_add. replace (ln - ld + ld)%Z with ln by lia. reflexivity. }
  pose proof (pow2_pos (ln - ld)) as Pc.
  assert (Ex : Qabs q * inject_Z d == inject_Z n).
  { rewrite Qabs_num_den. fold n d. field. intros E.
    assert (0 < inject_Z d) by (rewrite <- (Zlt_Qlt 0); exact Hd). lra. }
  assert (HD : 0 < inject_Z d) by (rewrite <- (Zlt_Qlt 0); exact Hd).
  pose proof (Qabs_nonneg q) as Hx.
  set (x := Qabs q) in *. set (N := inject_Z n) in *. set (D := inject_Z d) in *.
  set (a := 2 ^ ln) in *. set (b := 2 ^ ld) in *.
  destruct (Qle_bool (2 ^ (ln - ld)) x) eqn:Hb.
  - apply Qle_bool_iff in Hb. split; [exact Hb|].
    rewrite pow2_succ. set (P := 2 ^ (ln - ld)) in *.
    (* x * D = N < 2 a = 2 P b <= 2 P D *)
    apply Qnot_le_lt. intros Hle.
    assert (2 * P * D <= x * D) by (apply Qmult_le_compat_r; lra).
    assert (2 * P * b <= 2 * P * D) by (apply Qmult_le_l; lra).
    lra.
  - assert (Hlt : x < 2 ^ (ln - ld)).
    { apply Qnot_le_lt. intros Hle. apply Qle_bool_iff in Hle. congruence. }
    replace (ln - ld - 1 + 1)%Z with (ln - ld)%Z by lia. split; [|exact Hlt].
    assert (E2 : 2 * 2 ^ (ln - ld - 1) == 2 ^ (ln - ld)).
    { rewrite <- pow2_succ. replace (ln - ld - 1 + 1)%Z with (ln - ld)%Z by lia. reflexivity. }
    pose proof (pow2_pos (ln - ld - 1)) as Pc'.
    set (P := 2 ^ (ln - ld)) in *. set (P' := 2 ^ (ln - ld - 1)) in *.
    (* x D = N >= a = P b = 2 P' b > P' D *)
    apply Qnot_lt_le. intros Hle.
    assert (x * D < P' * D) by (apply Qmult_lt_compat_r; lra).
    assert (P' * D < P' * (2 * b)) by (apply Qmult_lt_l; lra).
    assert (P * b == 2 * P' * b) by (rewrite <- E2; ring).
    lra.
Qed.

(** Below [2^k], the binade's exponent is below [k]. *)
Lemma log2_floor_lt (q : Q) (k : Z) : ~ q == 0 -> Qabs q < 2 ^ k -> (log2_floor q < k)%Z.
Proof.
  intros Hq Hk. destruct (log2_floor_spec q Hq) as [Hlo _].
  apply (Qpower_lt_compat_l_inv 2); [|reflexivity].
  eapply Qle_lt_trans; [exact Hlo|exact Hk].
Qed.

Lemma round_half_even_Z (k : Z) : round_half_even (inject_Z k) = k.
Proof.
  unfold round_half_even. rewrite Qfloor_Z.
  replace (Qcompare (inject_Z k - inject_Z k) (1 # 2)) with Lt; [reflexivity|].
  symmetry. apply Qlt_alt. assert (E : inject_Z k - inject_Z k == 0) by ring.
  rewrite E. reflexivity.
Qed.
(** Away from overflow, [rnd q] is the multiple of the last place
    nearest to [q], at most half a last place away. *)
Lemma rnd_small (q : Q) :
  ~ q == 0 -> Qabs q < 1024 ->
  (ulp_exponent q <= -43)%Z /\
  exists r, rnd q = Ffin r /\
    r == inject_Z (round_half_even (q / 2 ^ ulp_exponent q)) * 2 ^ ulp_exponent q /\
    Qabs (r - q) <= 2 ^ (ulp_exponent q - 1).
Proof.
  intros Hq Hsmall.
  assert (Hu : (ulp_exponent q <= -43)%Z).
  { unfold ulp_exponent. pose proof (log2_floor_lt q 10 Hq Hsmall). lia. }
  split; [exact Hu|].
  set (u := ulp_exponent q) in *.
  pose proof (pow2_pos u) as Pu.
  pose proof (round_half_even_near (q / 2 ^ u)) as Hnear.
  set (R := round_half_even (q / 2 ^ u)) in *.
  assert (Hhalf : 2 * 2 ^ (u - 1) == 2 ^ u).
  { rewrite <- pow2_succ. replace (u - 1 + 1)%Z with u by lia. reflexivity. }
  assert (Herr : Qabs (inject_Z R * 2 ^ u - q) <= 2 ^ (u - 1)).
  { set (p := 2 ^ u) in *. set (h := 2 ^ (u - 1)) in *.
    assert (E : inject_Z R * p - q == (inject_Z R - q / p) * p) by (field; lra).
    rewrite E, Qabs_Qmult, (Qabs_pos p) by lra.
    apply Qle_trans with ((1 # 2) * p); [|lra].
    apply Qmult_le_compat_r; [exact Hnear|lra]. }
  assert (H1 : 2 ^ (u - 1) <= 1).
  { change 1 with (2 ^ 0). apply pow2_le. lia. }
  assert (Hbig : 2048 <= 2 ^ 1024).
  { change 2048 with (2 ^ 11). apply pow2_le. lia. }
  exists (Qred (inject_Z R * 2 ^ u)). split; [|split].
  - unfold rnd. fold u. fold R.
    destruct (Qeq_bool q 0) eqn:E0; [apply Qeq_bool_iff in E0; contradiction|].
    destruct (Qle_bool (2 ^ 1024) (Qabs (inject_Z R * 2 ^ u))) eqn:E1; [|reflexivity].
    exfalso. apply Qle_bool_iff in E1.
    set (r := inject_Z R * 2 ^ u) in *. set (h := 2 ^ (u - 1)) in *.
    set (B := 2 ^ 1024) in *.
    pose proof (Qabs_triangle (r - q) q) as T.
    assert (E : r - q + q == r) by ring. rewrite E in T. lra.
  - apply Qred_correct.
  - rewrite Qred_correct. exact Herr.
Qed.

Lemma on_grid_finer (c0 e0 u : Z) : (u <= e0)%Z -> on_grid (inject_Z c0 * 2 ^ e0) u.
Proof.
  intros Hu. exists (c0 * 2 ^ (e0 - u))%Z.
  rewrite inject_Z_mult, <- (pow2_Z (e0 - u)) by lia.
  rewrite <- Qmult_assoc, <- pow2_add. replace (e0 - u + u)%Z with e0 by lia. reflexivity.
Qed.

(** Rounding does not cross a value of the grid. *)
Lemma rnd_grid (q c r : Q) :
  ~ q == 0 -> Qabs q < 1024 -> on_grid c (ulp_exponent q) -> rnd q = Ffin r ->
  (q <= c -> r <= c) /\ (c <= q -> c <= r).
Proof.
  intros Hq Hsmall [k Hk] Hr.
  destruct (rnd_small q Hq Hsmall) as (_ & r' & Hr' & Er & _).
  rewrite Hr in Hr'. inversion Hr'; subst r'. clear Hr'.
  set (u := ulp_exponent q) in *. pose proof (pow2_pos u) as Pu.
  assert (Ek : inject_Z k == c / 2 ^ u) by (rewrite Hk; field; lra).
  split; intros Hle.
  - assert (Hm : (round_half_even (q / 2 ^ u) <= k)%Z).
    { rewrite <- (round_half_even_Z k). apply round_half_even_mono. rewrite Ek.
      apply Qmult_le_compat_r; [exact Hle|]. apply Qlt_le_weak, Qinv_lt_0_compat, Pu. }
    rewrite Er, Hk. apply Qmult_le_compat_r; [|lra]. rewrite <- Zle_Qle. exact Hm.
  - assert (Hm : (k <= round_half_even (q / 2 ^ u))%Z).
    { rewrite <- (round_half_even_Z k) at 1. apply round_half_even_mono. rewrite Ek.
      apply Qmult_le_compat_r; [exact Hle|]. apply Qlt_le_weak, Qinv_lt_0_compat, Pu. }
    rewrite Er, Hk. apply Qmult_le_compat_r; [|lra]. rewrite <- Zle_Qle. exact Hm.
Qed.

(** The remainder of [fmod]: less than [m] in size, with the sign of
    [q], and a whole number of [m] away from [q]. *)
Lemma fmod_spec (q m : Q) :
  0 < m ->
  exists (f : Q) (n : Z),
    fmod (Ffin q) m = Ffin f /\ f == q - m * inject_Z n /\
    (0 <= q -> 0 <= f /\ f < m) /\ (q <= 0 -> - m < f /\ f <= 0).
Proof.
  intros Hm. exists (Qred (q - m * inject_Z (trunc (q / m)))), (trunc (q / m)).
  split; [reflexivity|]. split; [apply Qred_correct|]. rewrite Qred_correct.
  assert (Eq : q == m * (q / m)) by (field; lra).
  set (x := q / m) in *. unfold trunc.
  destruct (Qle_bool 0 x) eqn:Hx.
  - apply Qle_bool_iff in Hx.
    pose proof (Qfloor_le x) as H1. pose proof (Qlt_floor x) as H2.
    rewrite inject_Z_plus in H2. change (inject_Z 1) with 1 in H2.
    set (t := inject_Z (Qfloor x)) in *.
    assert (E : q - m * t == m * (x - t)) by (rewrite Eq at 1; ring).
    assert (P1 : 0 <= m * (x - t)) by (apply Qmult_le_0_compat; lra).
    assert (P2 : m * (x - t) < m * 1) by (apply Qmult_lt_l; lra).
    split; intros Hq.
    + rewrite E. lra.
    + assert (Hx0 : x <= 0).
      { apply Qnot_lt_le. intros Hpos.
        assert (0 < m * x) by (apply Qmult_lt_0_compat; lra). lra. }
      assert (Ht : Qfloor x = 0%Z).
      { assert (Hx1 : x == 0) by lra.
        assert (A : (Qfloor x <= 0)%Z) by (rewrite Zle_Qle; fold t; change (inject_Z 0) with 0; lra).
        assert (B : (0 < Qfloor x + 1)%Z).
        { rewrite Zlt_Qlt, inject_Z_plus. fold t. change (inject_Z 0) with 0.
          change (inject_Z 1) with 1. lra. }
        lia. }
      subst t. rewrite Ht in *. change (inject_Z 0) with 0 in *. rewrite E. lra.
  - assert (Hneg : x < 0).
    { apply Qnot_le_lt. intros Hle. apply Qle_bool_iff in Hle. congruence. }
    pose proof (Qfloor_le (- x)) as H1. pose proof (Qlt_floor (- x)) as H2.
    rewrite inject_Z_plus in H2. change (inject_Z 1) with 1 in H2.
    rewrite inject_Z_opp. set (t := inject_Z (Qfloor (- x))) in *.
    assert (E : q - m * - t == - (m * (- x - t))) by (rewrite Eq at 1; ring).
    assert (P1 : 0 <= m * (- x - t)) by (apply Qmult_le_0_compat; lra).
    assert (P2 : m * (- x - t) < m * 1) by (apply Qmult_lt_l; lra).
    split; intros Hq.
    + exfalso. assert (m * x < 0).
      { assert (E' : m * x == - (m * - x)) by ring.
        assert (0 < m * - x) by (apply Qmult_lt_0_compat; lra). lra. }
      lra.
    + rewrite E. lra.
Qed.

Lemma on_grid_0 (u : Z) : on_grid 0 u.
Proof. exists 0%Z. change (inject_Z 0) with 0. ring. Qed.

Lemma on_grid_360 (u : Z) : (u <= 3)%Z -> on_grid 360 u.
Proof.
  intros Hu. destruct (on_grid_finer 45 3 u Hu) as [k Hk]. exists k.
  rewrite <- Hk. reflexivity.
Qed.

Lemma on_grid_720 (u : Z) : (u <= 3)%Z -> on_grid 720 u.
Proof.
  intros Hu. destruct (on_grid_finer 90 3 u Hu) as [k Hk]. exists k.
  rewrite <- Hk. reflexivity.
Qed.

Lemma half_ulp_small (u : Z) : (u <= -43)%Z -> 2 ^ (u - 1) <= 2 ^ (-44).
Proof. intros. apply pow2_le. lia. Qed.

(** [q % 360]: a value of [[0, 360]], at most [2^-44] away from a
    value a whole number of turns from [q]; exact for [q >= 0]. *)
Lemma mod_360_spec (q : Q) :
  exists (r : Q) (n : Z),
    mod_ (Ffin q) 360 = Ffin r /\ 0 <= r /\ r <= 360 /\
    Qabs (r - (q - 360 * inject_Z n)) <= 2 ^ (-44) /\
    (0 <= q -> r == q - 360 * inject_Z n /\ r < 360).
Proof.
  destruct (fmod_spec q 360 ltac:(reflexivity)) as (f & n & Ef & Efq & Hpos & Hneg).
  pose proof (pow2_pos (-44)) as Pe. set (eps := 2 ^ (-44)) in *.
  unfold mod_. rewrite Ef. change (Qle_bool 0 360) with true. cbn [negb xorb].
  destruct (Qeq_bool f 0) eqn:E0.
  - apply Qeq_bool_iff in E0. exists 0, n. split; [reflexivity|].
    split; [lra|]. split; [lra|]. split.
    + apply Qabs_Qle_condition. lra.
    + intros _. lra.
  - assert (Hf0 : ~ f == 0).
    { intros E. apply Qeq_bool_iff in E. congruence. }
    destruct (Qle_bool 0 f) eqn:E1; cbn [negb].
    + apply Qle_bool_iff in E1.
      assert (Hq : 0 <= q).
      { apply Qnot_lt_le. intros Hq. destruct Hneg as [_ Hle]; lra. }
      destruct (Hpos Hq) as [_ Hlt].
      exists f, n. split; [reflexivity|]. split; [lra|]. split; [lra|]. split.
      * apply Qabs_Qle_condition. lra.
      * intros _. lra.
    + assert (Hfneg : f < 0).
      { apply Qnot_le_lt. intros Hle. apply Qle_bool_iff in Hle. congruence. }
      assert (Hq : q <= 0).
      { apply Qnot_lt_le. intros Hq. destruct Hpos as [Hge _]; lra. }
      destruct (Hneg Hq) as [Hgt _].
      assert (Hnz : ~ f + 360 == 0) by lra.
      assert (Hsm : Qabs (f + 360) < 1024) by (apply Qabs_Qlt_condition; lra).
      destruct (rnd_small _ Hnz Hsm) as (Hu & r & Hr & _ & Herr).
      pose proof (half_ulp_small _ Hu) as Hh. fold eps in Hh.
      assert (Hu3 : (ulp_exponent (f + 360) <= 3)%Z) by lia.
      destruct (rnd_grid _ 0 r Hnz Hsm (on_grid_0 _) Hr) as [_ Hlo].
      destruct (rnd_grid _ 360 r Hnz Hsm (on_grid_360 _ Hu3) Hr) as [Hhi _].
      exists r, (n - 1)%Z. split; [exact Hr|].
      split; [apply Hlo; lra|]. split; [apply Hhi; lra|]. split.
      * replace (n - 1)%Z with (n + -1)%Z by lia.
        rewrite inject_Z_plus. change (inject_Z (-1)) with (-1).
        set (h := 2 ^ (ulp_exponent (f + 360) - 1)) in *.
        apply Qabs_Qle_condition in Herr. apply Qabs_Qle_condition. lra.
      * intros Hq'. exfalso. destruct Hpos as [Hge _]; lra.
Qed.

(** [360 + r] for [r] in [[0, 360]]. *)
Lemma add_360_spec (r : Q) :
  0 <= r -> r <= 360 ->
  exists s, add 360 (Ffin r) = Ffin s /\ 360 <= s /\ s <= 720 /\
    Qabs (s - (360 + r)) <= 2 ^ (-44).
Proof.
  intros H0 H1.
  assert (Hnz : ~ 360 + r == 0) by lra.
  assert (Hsm : Qabs (360 + r) < 1024) by (apply Qabs_Qlt_condition; lra).
  destruct (rnd_small _ Hnz Hsm) as (Hu & s & Hs & _ & Herr).
  pose proof (half_ulp_small _ Hu) as Hh.
  assert (Hu3 : (ulp_exponent (360 + r) <= 3)%Z) by lia.
  destruct (rnd_grid _ 360 s Hnz Hsm (on_grid_360 _ Hu3) Hs) as [_ Hlo].
  destruct (rnd_grid _ 720 s Hnz Hsm (on_grid_720 _ Hu3) Hs) as [Hhi _].
  exists s. split; [exact Hs|]. split; [apply Hlo; lra|]. split; [apply Hhi; lra|].
  eapply Qle_trans; [exact Herr|exact Hh].
Qed.

(** The conversion of a finite longitude: a value of [[0, 360)], at
    most [2^-43] away from a value a whole number of turns from it. *)
Lemma lon_to_360_finite (q : Q) :
  exists (r : Q) (k : Z),
    Ibtracs._lon_to_360 (Ffin q) = Ffin r /\ 0 <= r /\ r < 360 /\
    Qabs (r - (q + 360 * inject_Z k)) <= 2 ^ (-43).
Proof.
  destruct (mod_360_spec q) as (r1 & n1 & E1 & H10 & H11 & Herr1 & _).
  destruct (add_360_spec r1 H10 H11) as (s & E2 & Hs0 & Hs1 & Herr2).
  destruct (mod_360_spec s) as (r & n2 & E3 & Hr0 & _ & _ & Hexact).
  destruct (Hexact ltac:(lra)) as [Er Hr1].
  exists r, (1 - n1 - n2)%Z. unfold Ibtracs._lon_to_360. rewrite E1, E2, E3.
  split; [reflexivity|]. split; [exact Hr0|]. split; [exact Hr1|].
  assert (Ek : inject_Z (1 - n1 - n2) == 1 - inject_Z n1 - inject_Z n2).
  { replace (1 - n1 - n2)%Z with (1 + - n1 + - n2)%Z by lia.
    rewrite !inject_Z_plus, !inject_Z_opp. change (inject_Z 1) with 1. ring. }
  rewrite Ek.
  assert (E44 : 2 * 2 ^ (-44) == 2 ^ (-43)) by reflexivity.
  set (eps := 2 ^ (-44)) in *. set (eps' := 2 ^ (-43)) in *.
  set (a := inject_Z n1) in *. set (b := inject_Z n2) in *.
  apply Qabs_Qle_condition in Herr1. apply Qabs_Qle_condition in Herr2.
  apply Qabs_Qle_condition. lra.
Qed.

Lemma lon_to_360_not_finite (x : float64) :
  (forall q, x <> Ffin q) -> Ibtracs._lon_to_360 x = Fnan.
Proof. destruct x as [|b|q]; intros H; [reflexivity|reflexivity|]. by destruct (H q). Qed.
End FloatFacts.

(** C7, as the code computes it. For every finite longitude [L],
    [(360 + (L % 360)) % 360] on floats is a finite value of
    [[0, 360)], at most [2^-43] away from a value that differs from
    [L] by a whole number of turns; for an infinite or NaN [L] it is
    NaN. *)
Theorem lon_to_360_normalizes (L : Py.float64) :
  (forall q, L = Py.Ffin q ->
     TurnSpec.in_turn (Ibtracs._lon_to_360 L) /\
     TurnSpec.near_congruent_360 (2 ^ (-43)) (Ibtracs._lon_to_360 L) L) /\
  ((forall q, L <> Py.Ffin q) -> Ibtracs._lon_to_360 L = Py.Fnan).
Proof.
  split.
  - intros q ->.
    destruct (FloatFacts.lon_to_360_finite q) as (r & k & E & Hr0 & Hr1 & Herr).
    rewrite E. split.
    + exists r. done.
    + exists r, q, k. done.
  - apply FloatFacts.lon_to_360_not_finite.
Qed.

(** ** The exception monad *)

Lemma bind_ok {A B} (m : result A) (k : A -> result B) (b : B) :
  (x ← m; k x) = ok b <-> exists a, m = ok a /\ k a = ok b.
Proof.
  destruct m as [e|a]; cbn; split.
  - discriminate.
  - intros (a & Ha & _). discriminate.
  - eauto.
  - intros (a' & Ha & Hk). now inversion Ha.
Qed.

Lemma of_option_ok {A} (e : exception) (o : option A) (a : A) :
  of_option e o = ok a <-> o = Some a.
Proof. destruct o; cbn; unfold ok, raise; split; congruence. Qed.

Lemma mapM_ok {A B} (f : A -> result B) (xs : list A) (ys : list B) :
  mapM f xs = ok ys <-> Forall2 (fun x y => f x = ok y) xs ys.
Proof.
  revert ys. induction xs as [|x xs IH]; intros ys; cbn.
  - split.
    + intros E. inversion E. constructor.
    + intros E. now inversion E.
  - rewrite bind_ok. split.
    + intros (y & Hy & E). apply bind_ok in E as (ys' & Hys & E).
      inversion E; subst. constructor; [done|]. now apply IH.
    + intros E. inversion E as [|? y ? ys' Hy Hys]; subst.
      exists y. split; [done|]. apply bind_ok. exists ys'. split; [|done].
      now apply IH.
Qed.

Lemma bind_raise {A B} (m : result A) (k : A -> result B) (e : exception) :
  (x ← m; k x) = raise e <-> m = raise e \/ exists a, m = ok a /\ k a = raise e.
Proof.
  destruct m as [e'|a]; cbn; split.
  - intros E. left. inversion E. done.
  - intros [E|(a & E & _)]; [inversion E; done|discriminate].
  - intros E. right. eauto.
  - intros [E|(a' & E & Hk)]; [discriminate|]. by inversion E.
Qed.

Lemma mapM_raise {A B} (f : A -> result B) (xs : list A) (e : exception) :
  mapM f xs = raise e -> exists x, x ∈ xs /\ f x = raise e.
Proof.
  induction xs as [|x xs IH]; cbn; [discriminate|].
  intros E. apply bind_raise in E as [E|(y & Hy & E)].
  - exists x. split; [by left|done].
  - apply bind_raise in E as [E|(ys & Hys & E)]; [|discriminate].
    destruct (IH E) as (x' & Hx' & Hf). exists x'. split; [by right|done].
Qed.

(** ** Lists *)

Lemma Forall2_filter_bool {A B} (R : A -> B -> Prop) (P : A -> bool) (Q : B -> bool)
    (l : list A) (k : list B) :
  Forall2 R l k -> (forall x y, R x y -> P x = Q y) ->
  Forall2 R (filter P l) (filter Q k).
Proof.
  intros HR HPQ. induction HR as [|x y l k Hxy HR IH]; [constructor|].
  rewrite !filter_cons. rewrite (HPQ x y Hxy).
  destruct (Q y); cbn; [constructor|]; done.
Qed.

Lemma Forall2_compose {A B C} (R : A -> B -> Prop) (S : B -> C -> Prop)
    (T : A -> C -> Prop) (l : list A) (k : list B) (m : list C) :
  (forall x y z, R x y -> S y z -> T x z) ->
  Forall2 R l k -> Forall2 S k m -> Forall2 T l m.
Proof.
  intros HT HR. revert m. induction HR as [|x y l k Hxy HR IH]; intros m HS.
  - inversion HS. constructor.
  - inversion HS as [|? z ? m' Hyz HS']; subst. constructor; eauto.
Qed.

Lemma filter_bool_ext {A} (P Q : A -> bool) (l : list A) :
  (forall x, x ∈ l -> P x = Q x) -> filter P l = filter Q l.
Proof.
  induction l as [|x l IH]; intros HPQ; [done|].
  rewrite !filter_cons, (HPQ x) by (by left).
  rewrite IH by (intros y Hy; apply HPQ; by right). done.
Qed.

Lemma filter_bool_filter {A} (P Q : A -> bool) (l : list A) :
  filter P (filter Q l) = filter (fun x => Q x && P x) l.
Proof.
  induction l as [|x l IH]; [done|].
  destruct (Q x) eqn:HQ.
  - rewrite (filter_cons_True Q) by (by rewrite HQ). destruct (P x) eqn:HP.
    + rewrite !filter_cons_True by (by rewrite ?HQ, ?HP). by rewrite IH.
    + rewrite !filter_cons_False by (rewrite ?HQ, ?HP; cbn; auto). done.
  - rewrite !filter_cons_False by (rewrite HQ; cbn; auto). done.
Qed.

(** ** The storm track *)

Module TrackFacts.
Section TrackFacts.
Import Ibtracs TrackSpec.

Context {pandas : Pandas} {python : Python}.

Lemma convert_ok vars rt tr :
  convert vars rt = ok tr <->
  exists x, Lib.float (LON rt.1) = Some x /\
    tr = mkTrackRow (NAME rt.1) rt.2 (WMO_WIND rt.1) (WMO_PRES rt.1) (LAT rt.1)
           (_lon_to_360 x) (LON rt.1) (project vars rt.1).
Proof.
  unfold convert. destruct (Lib.float (LON rt.1)) as [x|]; split.
  - intros E. inversion E. eauto.
  - intros (x' & E & ->). by inversion E.
  - discriminate.
  - intros (x' & E & _). discriminate.
Qed.

Lemma convert_produced vars rt rt' tr :
  parsed_from rt rt' -> convert vars rt' = ok tr -> produced_from rt tr.
Proof.
  intros [E1 E2] E. apply convert_ok in E as (x & Hx & ->).
  unfold produced_from; cbn. rewrite E1, E2. eauto 10.
Qed.

Lemma convert_blank vars rt tr :
  convert vars rt = ok tr -> wmo_present rt = negb (track_blank tr).
Proof.
  intros E. apply convert_ok in E as (x & Hx & ->).
  unfold wmo_present, track_blank; cbn. by rewrite negb_orb.
Qed.

(** The mask keeps the lines whose instant passes both comparisons. *)
Lemma masked_spec lo hi data :
  Forall2 parsed_from (filter (in_year lo hi) data) (masked lo hi data).
Proof.
  induction data as [|[r t] data IH]; [constructor|].
  change (masked lo hi ((r, t) :: data))
    with (match (if in_year lo hi (r, t) then t' ← t; Some (r, t') else None) with
          | Some y => y :: masked lo hi data
          | None => masked lo hi data
          end).
  destruct (in_year lo hi (r, t)) eqn:E.
  - rewrite filter_cons_True by (by rewrite E).
    unfold in_year in E. cbn in E. destruct lo, hi, t as [t|]; try discriminate.
    cbn. constructor; [done|exact IH].
  - rewrite filter_cons_False by (rewrite E; cbn; auto). exact IH.
Qed.

(** What a successful call has computed on its way. *)
Lemma get_storm_track_ok name year csv flt extra out :
  get_storm_track name year csv flt extra = ok out <->
  exists lo hi s,
    year_bound year = ok lo /\ year_bound (year + 1) = ok hi /\
    check_columns (columns csv) ["NAME"] = ok tt /\
    check_columns (columns csv) ["ISO_TIME"] = ok tt /\
    to_datetime_series (ISO_TIME <$> named name csv) = Some s /\
    compare_bound (tz_aware s) lo = ok tt /\
    compare_bound (tz_aware s) hi = ok tt /\
    check_columns (columns csv) (vars_to_extract extra) = ok tt /\
    mapM (convert (vars_to_extract extra))
      (if flt then filter wmo_present (masked lo hi (zip (named name csv) (stamps s)))
       else masked lo hi (zip (named name csv) (stamps s))) = ok out.
Proof.
  unfold get_storm_track, parse_times, named, body. split.
  - intros E.
    apply bind_ok in E as (lo & Hlo & E). apply bind_ok in E as (hi & Hhi & E).
    apply bind_ok in E as ([] & Hc1 & E). apply bind_ok in E as ([] & Hc2 & E).
    apply bind_ok in E as ([aware data] & Hp & E).
    apply bind_ok in Hp as (s & Hs & Hp). apply of_option_ok in Hs.
    inversion Hp; subst aware data. clear Hp.
    apply bind_ok in E as ([] & Hb1 & E). apply bind_ok in E as ([] & Hb2 & E).
    apply bind_ok in E as ([] & Hc3 & E).
    exists lo, hi, s. done.
  - intros (lo & hi & s & Hlo & Hhi & Hc1 & Hc2 & Hs & Hb1 & Hb2 & Hc3 & E).
    apply bind_ok. exists lo. split; [done|].
    apply bind_ok. exists hi. split; [done|].
    apply bind_ok. exists tt. split; [done|].
    apply bind_ok. exists tt. split; [done|].
    apply bind_ok. eexists (_, _). split.
    { apply bind_ok. exists s. split; [by apply of_option_ok|reflexivity]. }
    apply bind_ok. exists tt. split; [done|].
    apply bind_ok. exists tt. split; [done|].
    apply bind_ok. exists tt. split; [done|]. done.
Qed.

(** The lines a call keeps, and the rows they become. *)
Lemma get_storm_track_rows name year csv flt extra out :
  get_storm_track name year csv flt extra = ok out ->
  exists lo hi s,
    year_bound year = ok lo /\ year_bound (year + 1) = ok hi /\
    to_datetime_series (ISO_TIME <$> named name csv) = Some s /\
    compare_bound (tz_aware s) lo = ok tt /\
    compare_bound (tz_aware s) hi = ok tt /\
    Forall2 produced_from
      (filter (fun rt => in_year lo hi rt && (negb flt || negb (wmo_blank rt.1)))
         (zip (named name csv) (stamps s))) out.
Proof.
  intros E. apply get_storm_track_ok in E
    as (lo & hi & s & Hlo & Hhi & _ & _ & Hs & Hb1 & Hb2 & _ & E).
  exists lo, hi, s. repeat (split; [done|]).
  apply mapM_ok in E.
  pose proof (masked_spec lo hi (zip (named name csv) (stamps s))) as Hy.
  destruct flt.
  - assert (Hw : Forall2 parsed_from
              (filter (fun rt => negb (wmo_blank rt.1))
                 (filter (in_year lo hi) (zip (named name csv) (stamps s))))
              (filter wmo_present (masked lo hi (zip (named name csv) (stamps s))))).
    { apply Forall2_filter_bool; [done|]. intros rt rt' [E1 _].
      unfold wmo_blank, wmo_present. rewrite E1. by rewrite negb_orb. }
    rewrite filter_bool_filter in Hw.
    eapply Forall2_compose; [|exact Hw|exact E].
    intros rt rt' tr. apply convert_produced.
  - rewrite (filter_bool_ext _ (in_year lo hi)).
    + eapply Forall2_compose; [|exact Hy|exact E].
      intros rt rt' tr. apply convert_produced.
    + intros rt _. cbn. by rewrite andb_true_r.
Qed.

Lemma year_bound_table :
  forallb (fun n => let y := Z.of_nat n in
             match Time.iso8601 (Time.str y) with
             | Some ts => Time.ns ts =? year_start y
             | None => false
             end) (seq (Z.to_nat 1000) (Z.to_nat 9000)) = true.
Proof. vm_compute. reflexivity. Qed.

(** [pd.to_datetime(str(year))] is the first instant of a four-digit year. *)
Lemma year_bound_four_digits year :
  1000 <= year <= 9999 -> year_bound year = ok (Some (year_start year)).
Proof.
  intros Hy. pose proof year_bound_table as Ht.
  rewrite forallb_forall in Ht.
  specialize (Ht (Z.to_nat year)). rewrite Z2Nat.id in Ht by lia. cbv zeta in Ht.
  unfold year_bound.
  destruct (Time.iso8601 (Time.str year)) as [ts|].
  - do 2 f_equal. apply Z.eqb_eq, Ht, in_seq. lia.
  - discriminate Ht. apply in_seq. lia.
Qed.

Lemma check_columns_ok cols vars :
  check_columns cols vars = ok tt <-> forall v, v ∈ vars -> v ∈ cols.
Proof.
  induction vars as [|v vars IH]; cbn.
  - split; [|done]. intros _ v Hv. by apply elem_of_nil in Hv.
  - destruct (bool_decide (v ∈ cols)) eqn:Hv.
    + apply bool_decide_eq_true in Hv. rewrite IH. split.
      * intros Hvars v' Hv'. apply elem_of_cons in Hv' as [->|Hv']; auto.
      * intros Hvars v' Hv'. apply Hvars. by right.
    + apply bool_decide_eq_false in Hv. split; [discriminate|].
      intros Hvars. destruct Hv. apply Hvars. by left.
Qed.

Lemma Forall2_elem_of_l {A B} (R : A -> B -> Prop) l k x :
  Forall2 R l k -> x ∈ l -> exists y, y ∈ k /\ R x y.
Proof.
  induction 1 as [|x' y l k Hxy HR IH]; intros Hx.
  - by apply elem_of_nil in Hx.
  - apply elem_of_cons in Hx as [->|Hx].
    + exists y. split; [by left|done].
    + destruct (IH Hx) as (y' & Hy' & HR'). exists y'. split; [by right|done].
Qed.

Lemma Forall2_elem_of_r {A B} (R : A -> B -> Prop) l k y :
  Forall2 R l k -> y ∈ k -> exists x, x ∈ l /\ R x y.
Proof.
  induction 1 as [|x y' l k Hxy HR IH]; intros Hy.
  - by apply elem_of_nil in Hy.
  - apply elem_of_cons in Hy as [->|Hy].
    + exists x. split; [by left|done].
    + destruct (IH Hy) as (x' & Hx' & HR'). exists x'. split; [by right|done].
Qed.

(** Against two instants the mask is the test of the interval, and a
    column that was compared with an instant is naive. *)
Lemma in_year_selected lo hi rt : in_year (Some lo) (Some hi) rt = selected lo hi rt.
Proof. unfold in_year, selected. by destruct rt.2. Qed.

Lemma compare_bound_naive s lo :
  compare_bound (tz_aware s) (Some lo) = ok tt -> s = mkSeries false (stamps s).
Proof.
  unfold compare_bound. destruct s as [[] ts]; cbn; [discriminate|done].
Qed.

(** The rows of a call whose two bounds are instants. *)
Lemma get_storm_track_kept name year csv flt extra out lo hi :
  get_storm_track name year csv flt extra = ok out ->
  year_bound year = ok (Some lo) -> year_bound (year + 1) = ok (Some hi) ->
  exists times,
    read_times name csv times /\
    Forall2 produced_from (filter (kept lo hi flt) (stamped name csv times)) out.
Proof.
  intros E Hlo Hhi.
  destruct (get_storm_track_rows _ _ _ _ _ _ E)
    as (lo' & hi' & s & Hlo' & Hhi' & Hs & Hb1 & _ & HF).
  rewrite Hlo in Hlo'. rewrite Hhi in Hhi'. inversion Hlo'; inversion Hhi'; subst lo' hi'.
  exists (stamps s). split.
  - unfold read_times. rewrite Hs. f_equal. by eapply compare_bound_naive.
  - unfold stamped. erewrite filter_bool_ext; [exact HF|].
    intros rt _. unfold kept. by rewrite in_year_selected.
Qed.

(** pandas reads a column in one way. *)
Lemma read_times_unique name csv times times' :
  read_times name csv times -> read_times name csv times' -> times = times'.
Proof. unfold read_times. intros E E'. rewrite E in E'. by inversion E'. Qed.

(** C4, as the code has it. For a four-digit year, the rows returned
    are, in the order of the table, the lines under the line of units
    whose name is exactly the storm's, whose timestamp, as pandas has
    read it, lies in [[year-01-01, (year+1)-01-01)] and, when the
    missing-field filter is on, whose wind and pressure cells are not
    blank. For 2021, such a line stamped [2021-12-31T23:59:59] is
    returned, and no row returned comes from a line stamped
    [2022-01-01T00:00:00]. *)
Theorem track_rows_exact name year csv flt extra out :
  1000 <= year <= 9998 ->
  get_storm_track name year csv flt extra = ok out ->
  exists times,
    read_times name csv times /\
    (forall r, r ∈ named name csv <-> r ∈ body csv /\ NAME r = name) /\
    Forall2 produced_from
      (filter (kept (year_start year) (year_start (year + 1)) flt)
         (stamped name csv times)) out /\
    (year = 2021 ->
     forall r, (r, Some (Time.civil_ns 2021 12 31 23 59 59)) ∈ stamped name csv times ->
       (flt = true -> wmo_blank r = false) ->
       exists tr, tr ∈ out /\
                  produced_from (r, Some (Time.civil_ns 2021 12 31 23 59 59)) tr) /\
    (year = 2021 ->
     forall r tr, tr ∈ out ->
       ~ produced_from (r, Some (Time.civil_ns 2022 1 1 0 0 0)) tr).
Proof.
  intros Hy E.
  pose proof (year_bound_four_digits year ltac:(lia)) as Hlo.
  pose proof (year_bound_four_digits (year + 1) ltac:(lia)) as Hhi.
  destruct (get_storm_track_kept _ _ _ _ _ _ _ _ E Hlo Hhi) as (times & Hread & HF).
  exists times. split; [done|]. split; [|split; [done|split]].
  - intros r. unfold named. rewrite list_elem_of_filter. split.
    + intros [Hn Hr]. split; [done|]. by apply Is_true_true, String.eqb_eq in Hn.
    + intros [Hr Hn]. split; [|done]. by apply Is_true_true, String.eqb_eq.
  - intros -> r Hr Hb.
    eapply Forall2_elem_of_l; [exact HF|].
    apply list_elem_of_filter. split; [|done]. apply Is_true_true.
    unfold kept, selected. cbn [snd fst].
    destruct flt; [rewrite Hb by done|]; vm_compute; done.
  - intros -> r tr Htr Hp.
    destruct (Forall2_elem_of_r _ _ _ _ HF Htr) as ([r' t'] & Hin & Hp').
    apply list_elem_of_filter in Hin as [Hk _]. apply Is_true_true in Hk.
    destruct Hp as (_ & Ht & _). destruct Hp' as (_ & Ht' & _). cbn in Ht, Ht'.
    subst t'. inversion Ht as [Ht'']. unfold kept, selected in Hk. cbn in Hk.
    rewrite <- Ht'' in Hk.
    apply andb_true_iff in Hk as [Hk _]. apply andb_true_iff in Hk as [_ Hk].
    vm_compute in Hk. discriminate.
Qed.

(** C5. With the filter on, no row returned has a blank wind or
    pressure cell, and no row returned comes from a line that has one.
    With the filter off, every line of the storm and year is returned,
    blank cells or not; the call with the filter on then returns the
    same rows less those with a blank cell. *)
Theorem missing_field_filter name year csv extra :
  (forall out, get_storm_track name year csv true extra = ok out ->
     Forall (fun tr => t_WMO_WIND tr <> " " /\ t_WMO_PRES tr <> " ") out /\
     forall rt tr, wmo_blank rt.1 = true -> tr ∈ out -> ~ produced_from rt tr) /\
  (forall out, get_storm_track name year csv false extra = ok out ->
     get_storm_track name year csv true extra =
       ok (filter (fun tr => negb (track_blank tr)) out) /\
     forall lo hi times rt,
       year_bound year = ok (Some lo) -> year_bound (year + 1) = ok (Some hi) ->
       read_times name csv times ->
       rt ∈ stamped name csv times -> selected lo hi rt = true ->
       exists tr, tr ∈ out /\ produced_from rt tr).
Proof.
  split.
  - intros out E.
    assert (Hall : forall tr, tr ∈ out -> track_blank tr = false).
    { intros tr Htr.
      destruct (get_storm_track_rows _ _ _ _ _ _ E) as (lo & hi & s & _ & _ & _ & _ & _ & HF).
      destruct (Forall2_elem_of_r _ _ _ _ HF Htr) as (rt & Hr & Hp).
      apply list_elem_of_filter in Hr as [Hk _]. apply Is_true_true in Hk.
      apply andb_true_iff in Hk as [_ Hk]. cbn in Hk.
      destruct Hp as (_ & _ & Hw & Hp & _). unfold track_blank, wmo_blank in *.
      rewrite Hw, Hp. by destruct (_ || _). }
    split.
    + apply Forall_forall. intros tr Htr. specialize (Hall tr Htr).
      unfold track_blank in Hall. apply orb_false_iff in Hall as [H1 H2].
      apply String.eqb_neq in H1, H2. done.
    + intros rt tr Hb Htr Hp. specialize (Hall tr Htr).
      destruct Hp as (_ & _ & Hw & Hpr & _). unfold track_blank, wmo_blank in *.
      rewrite Hw, Hpr in Hall. congruence.
  - intros out E. split.
    + apply get_storm_track_ok in E
        as (lo & hi & s & Hlo & Hhi & Hc1 & Hc2 & Hs & Hb1 & Hb2 & Hc3 & E).
      apply get_storm_track_ok. exists lo, hi, s.
      repeat (split; [done|]).
      apply mapM_ok. apply mapM_ok in E.
      apply Forall2_filter_bool; [done|]. intros rt tr. apply convert_blank.
    + intros lo hi times rt Hlo Hhi Hread Hin Hs.
      destruct (get_storm_track_kept _ _ _ _ _ _ _ _ E Hlo Hhi) as (times' & Hread' & HF).
      rewrite (read_times_unique _ _ _ _ Hread Hread') in Hin.
      eapply Forall2_elem_of_l; [exact HF|].
      apply list_elem_of_filter. split; [|done]. apply Is_true_true.
      unfold kept. rewrite Hs. done.
Qed.
End TrackFacts.
End TrackFacts.

(** ** The granule matcher *)

Module MirsFacts.
Section MirsFacts.
Context {pandas : Pandas} {python : Python} `{Shapely} `{Xarray}.
Import GranuleSpec.

Lemma aware_le_true a b :
  Mirs.aware_le a b = ok true <-> exists t, b = Some (Time.mkTimestamp t true) /\ a <= t.
Proof.
  unfold Mirs.aware_le. destruct b as [[t [|]]|]; cbn; split.
  - intros E. inversion E as [E']. exists t. split; [done|]. lia.
  - intros (t' & E & Hle). inversion E; subst. f_equal. lia.
  - discriminate.
  - intros (t' & E & _). discriminate.
  - discriminate.
  - intros (t' & E & _). discriminate.
Qed.

Lemma aware_ge_true a b :
  Mirs.aware_ge a b = ok true <-> exists t, b = Some (Time.mkTimestamp t true) /\ t <= a.
Proof.
  unfold Mirs.aware_ge. destruct b as [[t [|]]|]; cbn; split.
  - intros E. inversion E as [E']. exists t. split; [done|]. lia.
  - intros (t' & E & Hle). inversion E; subst. f_equal. lia.
  - discriminate.
  - intros (t' & E & _). discriminate.
  - discriminate.
  - intros (t' & E & _). discriminate.
Qed.

(** When the granule test answers [True]. *)
Lemma overlaps_true ds lat lon_180 t_behind t_ahead east :
  Mirs._granule_overlaps_track_point ds lat lon_180 t_behind t_ahead east = ok true <->
  exists start end_,
    coverage ds start end_ /\ t_behind <= start /\ end_ <= t_ahead /\
    (east = true -> Mirs.first_fov_lon_nonneg ds = ok false) /\
    Mirs.point_in_bounds ds lat lon_180 = ok true.
Proof.
  unfold Mirs._granule_overlaps_track_point, coverage. split.
  - intros E.
    destruct (Mirs.coverage_time ds "time_coverage_start") as [?|start] eqn:Es;
      [discriminate|].
    destruct (Mirs.coverage_time ds "time_coverage_end") as [?|end_] eqn:Ee;
      [discriminate|].
    cbn in E.
    destruct (Mirs.aware_le t_behind start) as [?|[|]] eqn:E1; try discriminate.
    apply aware_le_true in E1 as (s & -> & Hs). cbn in E.
    destruct (Mirs.aware_ge t_ahead end_) as [?|[|]] eqn:E2; try discriminate.
    apply aware_ge_true in E2 as (e & -> & He). cbn in E.
    exists s, e. repeat split; try done.
    + intros ->. destruct (Mirs.first_fov_lon_nonneg ds) as [?|[|]]; done.
    + destruct east; cbn in E; [|done].
      destruct (Mirs.first_fov_lon_nonneg ds) as [?|[|]]; done.
  - intros (s & e & [Hs He] & Hle1 & Hle2 & Heast & Hpt).
    rewrite Hs, He. cbn.
    replace (t_behind <=? s) with true by lia. cbn.
    replace (e <=? t_ahead) with true by lia. cbn.
    destruct east; cbn; [rewrite Heast by done; cbn|]; done.
Qed.

Lemma overlaps_outside ds lat lon_180 t_behind t_ahead east start end_ :
  coverage ds start end_ -> start < t_behind \/ t_ahead < end_ ->
  Mirs._granule_overlaps_track_point ds lat lon_180 t_behind t_ahead east = ok false.
Proof.
  intros [Hs He] Hout. unfold Mirs._granule_overlaps_track_point.
  rewrite Hs, He. cbn.
  destruct (t_behind <=? start) eqn:E1; cbn; [|done].
  destruct (end_ <=? t_ahead) eqn:E2; cbn; [lia|done].
Qed.

Lemma scan_files_spec mirs_dir lat lon_180 t_behind t_ahead east files :
  forall matched matched',
  Mirs.scan_files mirs_dir lat lon_180 t_behind t_ahead east files matched = ok matched' ->
  forall f, f ∈ matched' <->
    f ∈ matched \/
    (f ∈ files /\ Py.endswith f ".nc" = true /\
     exists ds, open_dataset mirs_dir f = Some ds /\
       Mirs._granule_overlaps_track_point ds lat lon_180 t_behind t_ahead east = ok true).
Proof.
  induction files as [|fname files IH]; intros matched matched' E f; cbn in E.
  - inversion E; subst. split; [by left|].
    intros [Hin|(Hin & _)]; [done|]. by apply elem_of_nil in Hin.
  - destruct (Py.endswith fname ".nc") eqn:Hnc; cbn in E.
    + apply bind_ok in E as (ds & Hds & E). apply of_option_ok in Hds.
      apply bind_ok in E as (b & Hb & E).
      rewrite (IH _ _ E f). split.
      * intros [Hin|(Hin & Hf & ds' & Hds' & Hov)].
        -- destruct b; [|by left].
           apply elem_of_union in Hin as [Hin|Hin]; [|by left].
           apply elem_of_singleton in Hin as ->. right.
           split; [by left|]. eauto.
        -- right. split; [by right|]. eauto.
      * intros [Hin|(Hin & Hf & ds' & Hds' & Hov)].
        -- left. destruct b; [|done]. apply elem_of_union. by right.
        -- apply elem_of_cons in Hin as [->|Hin].
           ++ left. rewrite Hds in Hds'. inversion Hds'; subst ds'.
              rewrite Hov in Hb. inversion Hb; subst b.
              apply elem_of_union. left. by apply elem_of_singleton.
           ++ right. eauto.
    + rewrite (IH _ _ E f). split.
      * intros [Hin|(Hin & Hf & Hex)]; [by left|].
        right. split; [by right|]. eauto.
      * intros [Hin|(Hin & Hf & Hex)]; [by left|].
        apply elem_of_cons in Hin as [->|Hin]; [congruence|].
        right. eauto.
Qed.

Lemma scan_track_spec track mirs_dir w east indices :
  forall matched matched',
  Mirs.scan_track track mirs_dir w east indices matched = ok matched' ->
  forall f, f ∈ matched' <->
    f ∈ matched \/ exists ipt, ipt ∈ indices /\ matches_point track mirs_dir w east ipt f.
Proof.
  induction indices as [|ipt indices IH]; intros matched matched' E f; cbn in E.
  - inversion E; subst. split; [by left|].
    intros [Hin|(ipt & Hin & _)]; [done|]. by apply elem_of_nil in Hin.
  - apply bind_ok in E as (pt & Hpt & E).
    apply bind_ok in E as (m1 & Hm1 & E).
    rewrite (IH _ _ E f), (scan_files_spec _ _ _ _ _ _ _ _ _ Hm1 f). split.
    + intros [[Hin|(Hin & Hf & ds & Hds & Hov)]|(i & Hi & Hm)].
      * by left.
      * right. exists ipt. split; [by left|].
        split; [done|]. split; [done|]. exists pt, ds. done.
      * right. exists i. split; [by right|done].
    + intros [Hin|(i & Hi & Hm)]; [by left; left|].
      apply elem_of_cons in Hi as [->|Hi].
      * left. right. destruct Hm as (Hin & Hf & pt' & ds & Hpt' & Hds & Hov).
        rewrite Hpt in Hpt'. inversion Hpt'; subst pt'. eauto.
      * right. eauto.
Qed.

(** The two lists come from one set of names. *)
Lemma find_mirs_files_ok track mirs_dir w east track_indices img snd :
  Mirs.find_mirs_files track mirs_dir w east track_indices = ok (img, snd) ->
  exists matched : gset string,
    Mirs.scan_track track mirs_dir w east
      (Mirs.track_points track track_indices) ∅ = ok matched /\
    img = Mirs.sorted_with_prefix "NPR-MIRS-IMG" matched /\
    snd = Mirs.sorted_with_prefix "NPR-MIRS-SND" matched.
Proof.
  unfold Mirs.find_mirs_files. intros E.
  apply bind_ok in E as (matched & Hm & E). inversion E; subst. eauto.
Qed.

Lemma sorted_with_prefix_perm p (matched : gset string) :
  Mirs.sorted_with_prefix p matched ≡ₚ
    filter (fun f => Py.startswith f p) (elements matched).
Proof. apply merge_sort_Permutation. Qed.

Lemma elem_of_sorted_with_prefix p (matched : gset string) f :
  f ∈ Mirs.sorted_with_prefix p matched <-> f ∈ matched /\ Py.startswith f p = true.
Proof.
  rewrite sorted_with_prefix_perm, list_elem_of_filter, elem_of_elements.
  rewrite Is_true_true. tauto.
Qed.

Lemma NoDup_sorted_with_prefix p (matched : gset string) :
  NoDup (Mirs.sorted_with_prefix p matched).
Proof.
  rewrite sorted_with_prefix_perm. apply NoDup_filter, NoDup_elements.
Qed.

Lemma Sorted_sorted_with_prefix p (matched : gset string) :
  StronglySorted String.le (Mirs.sorted_with_prefix p matched).
Proof. apply Sorted_StronglySorted; [apply _|]. apply Sorted_merge_sort, _. Qed.

Lemma StronglySorted_strict (l : list string) :
  StronglySorted String.le l -> NoDup l -> StronglySorted (strict String.le) l.
Proof.
  induction 1 as [|x l Hl IH Hx]; intros Hnd; [constructor|].
  apply NoDup_cons in Hnd as [Hx' Hnd]. constructor; [auto|].
  apply Forall_forall. intros y Hy. split.
  - rewrite Forall_forall in Hx. auto.
  - intros Hyx. rewrite Forall_forall in Hx.
    assert (x = y) as -> by (apply (anti_symm String.le); auto). done.
Qed.

(** C1. A granule with declared coverage [[start, end_]] passes the
    test for a track point at [t] with a window of [W] hours only if
    [t - W <= start] and [end_ <= t + W]; a granule reaching beyond the
    window on either side, were it by one second, is answered [False];
    and every file name [find_mirs_files] returns belongs to a granule
    whose coverage lies inside the window of one of the track points
    scanned. *)
Theorem granule_time_containment :
  (forall ds lat lon_180 t W east start end_,
     coverage ds start end_ ->
     (Mirs._granule_overlaps_track_point ds lat lon_180
        (t - W * Time.hour) (t + W * Time.hour) east = ok true ->
      t - W * Time.hour <= start /\ end_ <= t + W * Time.hour) /\
     (start < t - W * Time.hour \/ t + W * Time.hour < end_ ->
      Mirs._granule_overlaps_track_point ds lat lon_180
        (t - W * Time.hour) (t + W * Time.hour) east = ok false) /\
     (end_ = t + W * Time.hour + Time.second ->
      Mirs._granule_overlaps_track_point ds lat lon_180
        (t - W * Time.hour) (t + W * Time.hour) east = ok false)) /\
  (forall track mirs_dir W east track_indices img snd f,
     Mirs.find_mirs_files track mirs_dir W east track_indices = ok (img, snd) ->
     f ∈ img ++ snd ->
     exists ipt pt ds start end_,
       ipt ∈ Mirs.track_points track track_indices /\
       Mirs.iloc track ipt = ok pt /\
       open_dataset mirs_dir f = Some ds /\
       coverage ds start end_ /\
       Ibtracs.t_ISO_TIME pt - W * Time.hour <= start /\
       end_ <= Ibtracs.t_ISO_TIME pt + W * Time.hour).
Proof.
  split.
  - intros ds lat lon_180 t W east start end_ Hcov. split; [|split].
    + intros E. apply overlaps_true in E as (s & e & [Hs He] & Hle1 & Hle2 & _).
      destruct Hcov as [Hs' He']. rewrite Hs in Hs'. rewrite He in He'.
      inversion Hs'; inversion He'; subst. done.
    + intros Hout. by eapply overlaps_outside.
    + intros ->. eapply overlaps_outside; [done|]. right. unfold Time.second. lia.
  - intros track mirs_dir W east track_indices img snd f E Hf.
    apply find_mirs_files_ok in E as (matched & Hscan & -> & ->).
    assert (Hm : f ∈ matched).
    { apply elem_of_app in Hf as [Hf|Hf];
        apply elem_of_sorted_with_prefix in Hf as [Hf _]; done. }
    apply (scan_track_spec _ _ _ _ _ _ _ Hscan) in Hm as [Hm|(ipt & Hipt & Hm)].
    { by apply not_elem_of_empty in Hm. }
    destruct Hm as (_ & _ & pt & ds & Hpt & Hds & Hov).
    apply overlaps_true in Hov as (s & e & Hcov & Hle1 & Hle2 & _).
    exists ipt, pt, ds, s, e. done.
Qed.

(** C6. With the dateline option on, a granule whose first-scan
    longitude is [>= 0] never passes the test, whatever its times and
    footprint, and its name is in neither list returned; with the
    option off the longitude is not consulted: a granule whose
    coverage lies in the window and whose polygon contains the point
    passes, and its name is returned in the list of its prefix. *)
Theorem dateline_filter :
  (forall ds x lat lon_180 t_behind t_ahead,
     attrs ds !! "geospatial_first_scanline_first_fov_lon" = Some (AFloat (Some x)) ->
     (0 <= x)%Q ->
     Mirs._granule_overlaps_track_point ds lat lon_180 t_behind t_ahead true <> ok true) /\
  (forall track mirs_dir W track_indices img snd f ds x,
     Mirs.find_mirs_files track mirs_dir W true track_indices = ok (img, snd) ->
     open_dataset mirs_dir f = Some ds ->
     attrs ds !! "geospatial_first_scanline_first_fov_lon" = Some (AFloat (Some x)) ->
     (0 <= x)%Q ->
     (f ∉ img) /\ (f ∉ snd)) /\
  (forall ds lat lon_180 t_behind t_ahead start end_,
     coverage ds start end_ -> t_behind <= start -> end_ <= t_ahead ->
     Mirs.point_in_bounds ds lat lon_180 = ok true ->
     Mirs._granule_overlaps_track_point ds lat lon_180 t_behind t_ahead false = ok true) /\
  (forall track mirs_dir W track_indices img snd f ds ipt pt start end_,
     Mirs.find_mirs_files track mirs_dir W false track_indices = ok (img, snd) ->
     ipt ∈ Mirs.track_points track track_indices ->
     Mirs.iloc track ipt = ok pt ->
     f ∈ listdir mirs_dir -> Py.endswith f ".nc" = true ->
     open_dataset mirs_dir f = Some ds ->
     coverage ds start end_ ->
     Ibtracs.t_ISO_TIME pt - W * Time.hour <= start ->
     end_ <= Ibtracs.t_ISO_TIME pt + W * Time.hour ->
     Mirs.point_in_bounds ds (Ibtracs.t_LAT pt) (Ibtracs.t_LON_180 pt) = ok true ->
     (Py.startswith f "NPR-MIRS-IMG" = true -> f ∈ img) /\
     (Py.startswith f "NPR-MIRS-SND" = true -> f ∈ snd)).
Proof.
  assert (Hnonneg : forall ds x,
    attrs ds !! "geospatial_first_scanline_first_fov_lon" = Some (AFloat (Some x)) ->
    (0 <= x)%Q -> Mirs.first_fov_lon_nonneg ds = ok true).
  { intros ds x Hx Hle. unfold Mirs.first_fov_lon_nonneg. rewrite Hx.
    apply Qle_bool_iff in Hle. by rewrite Hle. }
  assert (Hexcl : forall ds x lat lon_180 t_behind t_ahead,
    attrs ds !! "geospatial_first_scanline_first_fov_lon" = Some (AFloat (Some x)) ->
    (0 <= x)%Q ->
    Mirs._granule_overlaps_track_point ds lat lon_180 t_behind t_ahead true <> ok true).
  { intros ds x lat lon_180 t_behind t_ahead Hx Hle E.
    apply overlaps_true in E as (s & e & _ & _ & _ & Heast & _).
    rewrite (Hnonneg _ _ Hx Hle) in Heast. specialize (Heast eq_refl). discriminate. }
  assert (Hincl : forall ds lat lon_180 t_behind t_ahead start end_,
    coverage ds start end_ -> t_behind <= start -> end_ <= t_ahead ->
    Mirs.point_in_bounds ds lat lon_180 = ok true ->
    Mirs._granule_overlaps_track_point ds lat lon_180 t_behind t_ahead false = ok true).
  { intros ds lat lon_180 t_behind t_ahead start end_ Hcov Hle1 Hle2 Hpt.
    apply overlaps_true. exists start, end_.
    split; [done|]. split; [done|]. split; [done|]. split; [discriminate|done]. }
  split; [exact Hexcl|]. split; [|split; [exact Hincl|]].
  - intros track mirs_dir W track_indices img snd f ds x E Hds Hx Hle.
    apply find_mirs_files_ok in E as (matched & Hscan & -> & ->).
    assert (Hm : f ∉ matched).
    { intros Hm.
      apply (scan_track_spec _ _ _ _ _ _ _ Hscan) in Hm as [Hm|(ipt & Hipt & Hm)].
      { by apply not_elem_of_empty in Hm. }
      destruct Hm as (_ & _ & pt & ds' & Hpt & Hds' & Hov).
      rewrite Hds in Hds'. inversion Hds'; subst ds'.
      by eapply Hexcl. }
    split; intros Hin; apply elem_of_sorted_with_prefix in Hin as [Hin _]; done.
  - intros track mirs_dir W track_indices img snd f ds ipt pt start end_
      E Hipt Hpt Hin Hnc Hds Hcov Hle1 Hle2 Hgeo.
    apply find_mirs_files_ok in E as (matched & Hscan & -> & ->).
    assert (Hm : f ∈ matched).
    { apply (scan_track_spec _ _ _ _ _ _ _ Hscan). right. exists ipt.
      split; [done|]. split; [done|]. split; [done|].
      exists pt, ds. split; [done|]. split; [done|]. by eapply Hincl. }
    split; intros Hp; apply elem_of_sorted_with_prefix; done.
Qed.

(** C8. The names [find_mirs_files] returns come from one set, the
    names matched by at least one of the track points scanned; the
    imagery list holds exactly the matched names that start with
    [NPR-MIRS-IMG], the sounding list those that start with
    [NPR-MIRS-SND]; each list is free of duplicates and sorted in
    lexical order, strictly so. *)
Theorem find_mirs_files_sorted_unique track mirs_dir W east track_indices img snd :
  Mirs.find_mirs_files track mirs_dir W east track_indices = ok (img, snd) ->
  NoDup img /\ NoDup snd /\
  StronglySorted String.le img /\ StronglySorted String.le snd /\
  StronglySorted (strict String.le) img /\ StronglySorted (strict String.le) snd /\
  exists matched : gset string,
    (forall f, f ∈ matched <->
       exists ipt, ipt ∈ Mirs.track_points track track_indices /\
                   matches_point track mirs_dir W east ipt f) /\
    (forall f, f ∈ img <-> f ∈ matched /\ Py.startswith f "NPR-MIRS-IMG" = true) /\
    (forall f, f ∈ snd <-> f ∈ matched /\ Py.startswith f "NPR-MIRS-SND" = true).
Proof.
  intros E. apply find_mirs_files_ok in E as (matched & Hscan & -> & ->).
  pose proof (NoDup_sorted_with_prefix "NPR-MIRS-IMG" matched) as Hnd1.
  pose proof (NoDup_sorted_with_prefix "NPR-MIRS-SND" matched) as Hnd2.
  pose proof (Sorted_sorted_with_prefix "NPR-MIRS-IMG" matched) as Hs1.
  pose proof (Sorted_sorted_with_prefix "NPR-MIRS-SND" matched) as Hs2.
  repeat split; try done; try (by apply StronglySorted_strict).
  exists matched. split; [|split]; intros f.
  - rewrite (scan_track_spec _ _ _ _ _ _ _ Hscan f). split.
    + intros [Hm|Hm]; [by apply not_elem_of_empty in Hm|done].
    + intros Hm. by right.
  - apply elem_of_sorted_with_prefix.
  - apply elem_of_sorted_with_prefix.
Qed.
End MirsFacts.
End MirsFacts.

(** ** The granule merger *)

Module MergeFacts.
Section MergeFacts.
Context {pandas : Pandas} {python : Python} `{Shapely} `{Xarray}.

Lemma of_option_raise {A} (e e' : exception) (o : option A) :
  of_option e o = raise e' -> e' = e.
Proof. destruct o; cbn; unfold ok, raise; congruence. Qed.

Lemma open_all_raise mirs_dir files e :
  Mirs.open_all mirs_dir files = raise e -> e = LibError "open_dataset".
Proof.
  intros E. apply mapM_raise in E as (f & _ & E). by apply of_option_raise in E.
Qed.

Lemma select_vars_raise ds names e :
  Mirs.select_vars ds names = raise e -> exists k, e = KeyError k.
Proof.
  unfold Mirs.select_vars. intros E.
  apply bind_raise in E as [E|(vs & _ & E)]; [|discriminate].
  apply mapM_raise in E as (k & _ & E).
  apply bind_raise in E as [E|(v & _ & E)]; [|discriminate].
  apply of_option_raise in E. eauto.
Qed.

Lemma select_vars_total ds names :
  (forall k, k ∈ names -> is_Some (data_vars ds !! k)) ->
  exists ds', Mirs.select_vars ds names = ok ds' /\
    attrs ds' = attrs ds /\
    forall k, k ∈ names -> data_vars ds' !! k = data_vars ds !! k.
Proof.
  intros Hall. unfold Mirs.select_vars.
  assert (Hvs : mapM (fun k => v ← of_option (KeyError k) (data_vars ds !! k); ok (k, v))
                  names = ok ((fun k => (k, default [] (data_vars ds !! k))) <$> names)).
  { apply mapM_ok. apply Forall2_fmap_r, Forall_Forall2_diag, Forall_forall.
    intros k Hk. unfold compose. cbv beta.
    destruct (Hall k Hk) as [v Hv]. rewrite Hv. done. }
  rewrite Hvs. cbn. eexists. split; [done|]. split; [done|]. cbn.
  intros k Hk. destruct (Hall k Hk) as [v Hv]. rewrite Hv.
  apply elem_of_list_to_map_1'.
  - intros v' Hv'. apply list_elem_of_fmap in Hv' as (k' & E & _).
    inversion E; subst k'. rewrite Hv. done.
  - apply list_elem_of_fmap. exists k. rewrite Hv. split; [done|exact Hk].
Qed.

(** C2. [load_and_merge_mirs] raises its [ValueError] whenever the
    imagery list or the sounding list is empty, so that no merged
    dataset comes back; for two non-empty lists it never raises a
    [ValueError], and it returns the two merged datasets as soon as
    every file opens, the concatenations succeed and the sounding
    variables to keep are there. *)
Theorem load_and_merge_empty_lists img_files snd_files mirs_dir keep remove :
  (img_files = [] \/ snd_files = [] ->
   exists msg,
     Mirs.load_and_merge_mirs img_files snd_files mirs_dir keep remove
       = raise (ValueError msg)) /\
  (img_files <> [] -> snd_files <> [] ->
   forall msg,
     Mirs.load_and_merge_mirs img_files snd_files mirs_dir keep remove
       <> raise (ValueError msg)) /\
  (img_files <> [] -> snd_files <> [] ->
   forall ds_img_list c_img ds_snd_list c_snd,
     Mirs.open_all mirs_dir img_files = ok ds_img_list ->
     xr_concat ds_img_list = Some c_img ->
     Mirs.open_all mirs_dir snd_files = ok ds_snd_list ->
     xr_concat ds_snd_list = Some c_snd ->
     (forall k, k ∈ keep -> is_Some (data_vars c_snd !! k)) ->
     exists ds_snd,
       Mirs.load_and_merge_mirs img_files snd_files mirs_dir keep remove
         = ok (Mirs.drop_vars c_img remove, ds_snd)).
Proof.
  split; [|split].
  - intros [-> | ->].
    + eexists. reflexivity.
    + destruct img_files; eexists; reflexivity.
  - intros Hi Hs msg E.
    destruct img_files as [|i img_files]; [done|].
    destruct snd_files as [|s snd_files]; [done|].
    unfold Mirs.load_and_merge_mirs in E.
    apply bind_raise in E as [E|(l1 & _ & E)].
    { apply open_all_raise in E. discriminate. }
    apply bind_raise in E as [E|(c1 & _ & E)].
    { apply of_option_raise in E. discriminate. }
    apply bind_raise in E as [E|(l2 & _ & E)].
    { apply open_all_raise in E. discriminate. }
    apply bind_raise in E as [E|(c2 & _ & E)].
    { apply of_option_raise in E. discriminate. }
    apply bind_raise in E as [E|(d & _ & E)]; [|discriminate].
    apply select_vars_raise in E as (k & E). discriminate.
  - intros Hi Hs l1 c1 l2 c2 Hl1 Hc1 Hl2 Hc2 Hkeep.
    destruct img_files as [|i img_files]; [done|].
    destruct snd_files as [|s snd_files]; [done|].
    destruct (select_vars_total c2 keep Hkeep) as (d & Hd & _).
    exists d. unfold Mirs.load_and_merge_mirs.
    apply bind_ok. exists l1. split; [done|].
    apply bind_ok. exists c1. split; [by rewrite Hc1|].
    apply bind_ok. exists l2. split; [done|].
    apply bind_ok. exists c2. split; [by rewrite Hc2|].
    apply bind_ok. exists d. split; done.
Qed.
End MergeFacts.
End MergeFacts.

(** ** The output assembler *)

(** [round(x, 2)] is a number of hundredths at most half a hundredth
    away from [x]. *)
Lemma round2_nearest (x : Q) :
  (Qabs (Py.round2 x - x) <= 1 # 200)%Q /\ exists n : Z, Py.round2 x = Qmake n 100.
Proof.
  split; [|unfold Py.round2; eauto].
  pose proof (round_half_even_near (x * 100)) as Hn.
  unfold Py.round2. set (n := Py.round_half_even (x * 100)) in *.
  assert (E : (Qmake n 100 == inject_Z n / 100)%Q).
  { rewrite (Qmake_Qdiv n 100). reflexivity. }
  rewrite E. apply Qabs_Qle_condition in Hn as [Hn1 Hn2].
  apply Qabs_Qle_condition. split.
  - apply (Qmult_le_r _ _ 100); [reflexivity|]. field_simplify. lra.
  - apply (Qmult_le_r _ _ 100); [reflexivity|]. field_simplify. lra.
Qed.

Module OutputFacts.
Section OutputFacts.
Context `{Xarray}.
Import ExtentSpec.

Lemma nanmin_spec l :
  match Output.nanmin l with
  | Some m => is_min m l
  | None => forall x, Some x ∉ l
  end.
Proof.
  induction l as [|[x|] l IH]; cbn.
  - intros x Hx. by apply elem_of_nil in Hx.
  - destruct (Output.nanmin l) as [m|].
    + destruct IH as [Hm Hle]. split.
      * unfold Qmin, GenericMinMax.gmin. destruct (x ?= m)%Q; [by left|by left|by right].
      * intros y Hy. apply elem_of_cons in Hy as [Hy|Hy].
        -- inversion Hy; subst y. apply Q.le_min_l.
        -- eapply Qle_trans; [apply Q.le_min_r|]. by apply Hle.
    + split; [by left|]. intros y Hy. apply elem_of_cons in Hy as [Hy|Hy].
      * inversion Hy. apply Qle_refl.
      * by apply IH in Hy.
  - destruct (Output.nanmin l) as [m|].
    + destruct IH as [Hm Hle]. split; [by right|].
      intros y Hy. apply elem_of_cons in Hy as [Hy|Hy]; [discriminate|auto].
    + intros y Hy. apply elem_of_cons in Hy as [Hy|Hy]; [discriminate|].
      by apply IH in Hy.
Qed.

Lemma nanmax_spec l :
  match Output.nanmax l with
  | Some m => is_max m l
  | None => forall x, Some x ∉ l
  end.
Proof.
  induction l as [|[x|] l IH]; cbn.
  - intros x Hx. by apply elem_of_nil in Hx.
  - destruct (Output.nanmax l) as [m|].
    + destruct IH as [Hm Hle]. split.
      * unfold Qmax, GenericMinMax.gmax. destruct (x ?= m)%Q; [by left|by right|by left].
      * intros y Hy. apply elem_of_cons in Hy as [Hy|Hy].
        -- inversion Hy; subst y. apply Q.le_max_l.
        -- eapply Qle_trans; [|apply Q.le_max_r]. by apply Hle.
    + split; [by left|]. intros y Hy. apply elem_of_cons in Hy as [Hy|Hy].
      * inversion Hy. apply Qle_refl.
      * by apply IH in Hy.
  - destruct (Output.nanmax l) as [m|].
    + destruct IH as [Hm Hle]. split; [by right|].
      intros y Hy. apply elem_of_cons in Hy as [Hy|Hy]; [discriminate|auto].
    + intros y Hy. apply elem_of_cons in Hy as [Hy|Hy]; [discriminate|].
      by apply IH in Hy.
Qed.

Lemma rounded_min l : rounded_extent is_min l (Some (AFloat (Py.round2 <$> Output.nanmin l))).
Proof.
  pose proof (nanmin_spec l) as Hs. unfold rounded_extent.
  destruct (Output.nanmin l) as [m|]; cbn; [left; eauto|right; eauto].
Qed.

Lemma rounded_max l : rounded_extent is_max l (Some (AFloat (Py.round2 <$> Output.nanmax l))).
Proof.
  pose proof (nanmax_spec l) as Hs. unfold rounded_extent.
  destruct (Output.nanmax l) as [m|]; cbn; [left; eauto|right; eauto].
Qed.

Lemma first_time_ok ds_storm t0 :
  Output.first_time ds_storm = ok t0 <->
  exists s, ds_storm = [s] /\ iso_time s !! 0%nat = Some t0.
Proof.
  unfold Output.first_time. split.
  - intros E. apply bind_ok in E as (t0s & Ht & E).
    destruct t0s as [|t [|]]; try discriminate. inversion E; subst t.
    apply mapM_ok in Ht. inversion Ht as [|s ? l ? Hs Hl]; subst.
    inversion Hl; subst. apply of_option_ok in Hs. eauto.
  - intros (s & -> & Hs). cbn. rewrite Hs. done.
Qed.

(** The summary attributes depend on the track subset alone. *)
Lemma build_output_dataset_attrs ds_img ds_snd ds_ibt storm_name storm_year out :
  Output.build_output_dataset ds_img ds_snd ds_ibt storm_name storm_year = ok out ->
  let sel := Output.select_storm ds_ibt storm_name storm_year in
  exists t0,
    Output.first_time sel = ok t0 /\
    attrs out !! "TC_name" = Some (AStr storm_name) /\
    attrs out !! "TC_time_start" = Some (AStr t0) /\
    attrs out !! "TC_minimum_lat"
      = Some (AFloat (Py.round2 <$> Output.nanmin (concat (lat <$> sel)))) /\
    attrs out !! "TC_minimum_lon"
      = Some (AFloat (Py.round2 <$> Output.nanmin (concat (lon <$> sel)))) /\
    attrs out !! "TC_maximum_lat"
      = Some (AFloat (Py.round2 <$> Output.nanmax (concat (lat <$> sel)))) /\
    attrs out !! "TC_maximum_lon"
      = Some (AFloat (Py.round2 <$> Output.nanmax (concat (lon <$> sel)))).
Proof.
  intros E sel. unfold Output.build_output_dataset in E. fold sel in E.
  apply bind_ok in E as (ds_merged & _ & E).
  apply bind_ok in E as (t0 & Ht0 & E).
  inversion E; subst out; clear E. cbn.
  exists t0. split; [done|].
  repeat split; by simplify_map_eq.
Qed.

End OutputFacts.
End OutputFacts.

(** ** The command line *)

Module CliFacts.
Section CliFacts.
Context {pandas : Pandas} {python : Python} `{Shapely} `{Xarray} {argparse : Cli.Argparse}.
Import Ibtracs TrackSpec TrackFacts.

Lemma iloc_nil {A} (ipt : Z) : Mirs.iloc (@nil A) ipt = raise IndexError.
Proof.
  unfold Mirs.iloc. simpl length. change (Z.of_nat 0) with 0.
  set (i := if ipt <? 0 then ipt + 0 else ipt).
  replace ((0 <=? i) && (i <? 0)) with false; [reflexivity|].
  symmetry. apply andb_false_iff. destruct (Z.ltb_spec i 0); [left|right]; lia.
Qed.

Lemma sorted_with_prefix_empty p : Mirs.sorted_with_prefix p ∅ = [].
Proof. unfold Mirs.sorted_with_prefix. rewrite elements_empty. done. Qed.

Lemma find_mirs_files_no_track mirs_dir W east :
  Mirs.find_mirs_files [] mirs_dir W east None = ok ([], []).
Proof.
  unfold Mirs.find_mirs_files. cbn. by rewrite !sorted_with_prefix_empty.
Qed.

Lemma find_mirs_files_empty_track mirs_dir W east track_indices :
  Mirs.find_mirs_files [] mirs_dir W east track_indices = ok ([], []) \/
  Mirs.find_mirs_files [] mirs_dir W east track_indices = raise IndexError.
Proof.
  destruct track_indices as [[|ipt l]|].
  - left. unfold Mirs.find_mirs_files. cbn. by rewrite !sorted_with_prefix_empty.
  - right. unfold Mirs.find_mirs_files. cbn. rewrite iloc_nil. done.
  - left. apply find_mirs_files_no_track.
Qed.

Lemma filter_bool_none {A} (P : A -> bool) (l : list A) :
  (forall x, x ∈ l -> P x = false) -> filter P l = [].
Proof.
  induction l as [|x l IH]; intros Hall; [done|].
  rewrite filter_cons_False.
  - apply IH. intros y Hy. apply Hall. by right.
  - rewrite (Hall x) by (by left). cbn. auto.
Qed.

Lemma after_track_empty w args storm_name output_file :
  (exists e, Cli.after_track w args storm_name output_file [] = raise e) /\
  (forall mirs_dir,
     Cli.directory w (Cli.arg_mirs_dir args) = Some mirs_dir ->
     Cli.arg_test_indices args = None ->
     Cli.after_track w args storm_name output_file []
       = raise (ValueError "No MIRS IMG files provided.")).
Proof.
  unfold Cli.after_track. split.
  - destruct (Cli.directory w (Cli.arg_mirs_dir args)) as [mirs_dir|];
      cbn -[Mirs.find_mirs_files]; [|eauto].
    destruct (find_mirs_files_empty_track mirs_dir Config.TIME_WINDOW_HOURS true
                (Cli.arg_test_indices args)) as [E|E]; rewrite E; cbn; eauto.
  - intros mirs_dir -> ->. cbn -[Mirs.find_mirs_files].
    rewrite find_mirs_files_no_track. done.
Qed.

(** C9. For a four-digit year and a table that has the columns, when
    no line is named like the storm, or when pandas has read the
    timestamps of the storm's lines and none lies in the year,
    [get_storm_track] returns the empty frame and does not raise. On
    the empty frame [find_mirs_files] returns two empty lists, on which
    [load_and_merge_mirs] raises; and whatever the command line, the
    rest of the run fails. *)
Theorem no_matching_rows name year csv flt extra :
  1000 <= year <= 9998 ->
  (forall v, v ∈ vars_to_extract extra -> v ∈ columns csv) ->
  (named name csv = [] \/
   exists times,
     read_times name csv times /\
     forall rt, rt ∈ stamped name csv times ->
       selected (year_start year) (year_start (year + 1)) rt = false) ->
  get_storm_track name year csv flt extra = ok [] /\
  (forall mirs_dir W east,
     Mirs.find_mirs_files [] mirs_dir W east None = ok ([], [])) /\
  (forall mirs_dir keep remove,
     Mirs.load_and_merge_mirs [] [] mirs_dir keep remove
       = raise (ValueError "No MIRS IMG files provided.")) /\
  (forall w args storm_name output_file,
     exists e, Cli.after_track w args storm_name output_file [] = raise e) /\
  (forall w args storm_name output_file mirs_dir,
     Cli.directory w (Cli.arg_mirs_dir args) = Some mirs_dir ->
     Cli.arg_test_indices args = None ->
     Cli.after_track w args storm_name output_file []
       = raise (ValueError "No MIRS IMG files provided.")).
Proof.
  intros Hy Hcols Hnone. split; [|split; [|split; [|split]]].
  - assert (Hread : exists times,
              read_times name csv times /\
              forall rt, rt ∈ stamped name csv times ->
                selected (year_start year) (year_start (year + 1)) rt = false).
    { destruct Hnone as [Hnil|Hread]; [|exact Hread].
      exists []. unfold read_times, stamped. rewrite Hnil. split.
      - apply to_datetime_series_nil.
      - intros rt Hrt. by apply elem_of_nil in Hrt. }
    destruct Hread as (times & Hread & Hout).
    apply get_storm_track_ok.
    exists (Some (year_start year)), (Some (year_start (year + 1))), (mkSeries false times).
    split; [apply year_bound_four_digits; lia|].
    split; [apply year_bound_four_digits; lia|].
    assert (Hin : forall v, v ∈ Config.IBTRACS_EXTRACT_VARS -> v ∈ columns csv).
    { intros v Hv. apply Hcols. unfold vars_to_extract. apply elem_of_app. by left. }
    split. { apply check_columns_ok. intros v Hv. apply Hin.
             apply list_elem_of_singleton in Hv as ->. by left. }
    split. { apply check_columns_ok. intros v Hv. apply Hin.
             apply list_elem_of_singleton in Hv as ->. right. by left. }
    split; [exact Hread|]. split; [done|]. split; [done|].
    split; [by apply check_columns_ok|]. cbn [stamps].
    assert (Hempty : masked (Some (year_start year)) (Some (year_start (year + 1)))
                       (zip (named name csv) times) = []).
    { pose proof (masked_spec (Some (year_start year)) (Some (year_start (year + 1)))
                    (zip (named name csv) times)) as HF.
      rewrite filter_bool_none in HF.
      - by inversion HF.
      - intros rt Hrt. rewrite in_year_selected. by apply Hout. }
    rewrite Hempty. by destruct flt.
  - intros. apply find_mirs_files_no_track.
  - done.
  - intros. apply after_track_empty.
  - intros w args storm_name output_file. apply after_track_empty.
Qed.

Lemma set_value_filter opt v p p' :
  Cli.set_value opt v p = Cli.Parsed p' ->
  Cli.p_filter_missing_wmo p' = Cli.p_filter_missing_wmo p.
Proof.
  unfold Cli.set_value. intros E.
  repeat match type of E with
  | (if ?b then _ else _) = _ => destruct b
  | match ?o with Some _ => _ | None => _ end = _ => destruct o
  end;
  try discriminate; inversion E; subst p'; reflexivity.
Qed.

Lemma read_option_filter tok p p' st' :
  Cli.read_option tok p = Cli.Parsed (p', st') ->
  tok <> "--no-filter-missing-wmo" ->
  Cli.p_filter_missing_wmo p = true -> Cli.p_filter_missing_wmo p' = true.
Proof.
  unfold Cli.read_option. intros E Htok Hp.
  destruct (bool_decide _); [by inversion E; subst|].
  destruct (String.eqb tok "--test-indices"); [by inversion E; subst|].
  destruct (String.eqb tok "--filter-missing-wmo"); [by inversion E; subst|].
  destruct (String.eqb tok "--no-filter-missing-wmo") eqn:Hno.
  - by apply String.eqb_eq in Hno.
  - destruct (_ || _); [discriminate|]. destruct (Py.startswith tok "-"); discriminate.
Qed.

(** The toggle stays on unless [--no-filter-missing-wmo] is read. *)
Lemma parse_tokens_filter argv :
  forall p st p',
  Cli.parse_tokens argv p st = Cli.Parsed p' ->
  "--no-filter-missing-wmo" ∉ argv ->
  Cli.p_filter_missing_wmo p = true -> Cli.p_filter_missing_wmo p' = true.
Proof.
  induction argv as [|tok argv IH]; intros p st p' E Hno Hp.
  - destruct st as [| |[|i l]]; cbn in E; try discriminate; by inversion E; subst.
  - assert (Htok : tok <> "--no-filter-missing-wmo").
    { intros ->. apply Hno. by left. }
    assert (Hno' : "--no-filter-missing-wmo" ∉ argv).
    { intros Hin. apply Hno. by right. }
    destruct st as [|opt|l]; cbn [Cli.parse_tokens] in E.
    + destruct (Cli.read_option tok p) as [[p1 st1]| |] eqn:Hr; try discriminate.
      eapply IH; [exact E|done|]. by eapply read_option_filter.
    + destruct (Py.startswith tok "-"); [discriminate|].
      destruct (Cli.set_value opt tok p) as [p1| |] eqn:Hs; try discriminate.
      eapply IH; [exact E|done|]. by rewrite (set_value_filter _ _ _ _ Hs).
    + destruct (bool_decide (tok ∈ Cli.option_strings)).
      * destruct l as [|i l]; [discriminate|].
        destruct (Cli.read_option tok (Cli.set_indices (i :: l) p))
          as [[p1 st1]| |] eqn:Hr; try discriminate.
        eapply IH; [exact E|done|]. by eapply read_option_filter.
      * destruct (Py.int tok) as [i|]; [|discriminate].
        eapply IH; [exact E|done|done].
Qed.

(** What [parse_args] returns on a plain command line. *)
Lemma parse_args_plain argv args :
  CliSpec.plain argv -> Cli.parse_args argv = ok args ->
  exists p, Cli.parse_tokens argv Cli.defaults Cli.Ready = Cli.Parsed p /\
    Cli.p_name p = Some (Cli.arg_name args) /\ Cli.p_year p = Some (Cli.arg_year args) /\
    Cli.p_filter_missing_wmo p = Cli.arg_filter_missing_wmo args /\
    Cli.p_output p = Cli.arg_output args /\
    Cli.p_test_indices p = Cli.arg_test_indices args.
Proof.
  unfold CliSpec.plain, Cli.parse_args. intros Hplain E.
  destruct (Cli.parse_tokens argv Cli.defaults Cli.Ready) as [p| |]; [|discriminate|done].
  exists p. split; [done|].
  destruct (Cli.p_name p) as [n|]; [|discriminate].
  destruct (Cli.p_year p) as [y|]; [|discriminate].
  inversion E; subst args. done.
Qed.

End CliFacts.
End CliFacts.

(** ** Further properties of the code *)

(** A failure anywhere in the list makes the whole map fail. *)
Lemma mapM_fails {A B} (f : A -> result B) (xs : list A) (x : A) (e : exception) :
  x ∈ xs -> f x = raise e -> exists e', mapM f xs = raise e'.
Proof.
  induction xs as [|y xs IH]; intros Hx Hf.
  - by apply elem_of_nil in Hx.
  - cbn. destruct (f y) as [e1|b] eqn:Hy; cbn; [eauto|].
    apply elem_of_cons in Hx as [->|Hx].
    + rewrite Hf in Hy. discriminate.
    + destruct (IH Hx Hf) as [e' ->]. cbn. eauto.
Qed.

Lemma result_cases {A} (m : result A) : (exists a, m = ok a) \/ (exists e, m = raise e).
Proof. destruct m; [right|left]; eauto. Qed.

Lemma bind_ok_l {A B} (m : result A) (k : A -> result B) (a : A) :
  m = ok a -> (x ← m; k x) = k a.
Proof. intros ->. reflexivity. Qed.

Lemma bind_raise_l {A B} (m : result A) (k : A -> result B) (e : exception) :
  m = raise e -> (x ← m; k x) = raise e.
Proof. intros ->. reflexivity. Qed.

Module TrackMore.
Section TrackMore.
Import Ibtracs TrackSpec TrackFacts.

Context {pandas : Pandas} {python : Python}.

Lemma check_columns_raise cols vars v :
  v ∈ vars -> (v ∉ cols) ->
  exists k, k ∈ vars /\ (k ∉ cols) /\ check_columns cols vars = raise (KeyError k).
Proof.
  induction vars as [|w vars IH]; intros Hv Hc.
  - by apply elem_of_nil in Hv.
  - cbn. destruct (bool_decide (w ∈ cols)) eqn:Hw.
    + apply bool_decide_eq_true in Hw.
      apply elem_of_cons in Hv as [->|Hv]; [done|].
      destruct (IH Hv Hc) as (k & Hk & Hkc & E).
      exists k. split; [by right|done].
    + apply bool_decide_eq_false in Hw. exists w. split; [by left|done].
Qed.

(** The rows returned, each with the line and the instant it was
    converted from. *)
Lemma get_storm_track_converted name year csv flt extra out :
  get_storm_track name year csv flt extra = ok out ->
  exists s,
    to_datetime_series (ISO_TIME <$> named name csv) = Some s /\
    Forall (fun tr => exists r t,
              (r, Some t) ∈ zip (named name csv) (stamps s) /\
              convert (vars_to_extract extra) (r, t) = ok tr) out.
Proof.
  intros E. apply get_storm_track_ok in E
    as (lo & hi & s & _ & _ & _ & _ & Hs & _ & _ & _ & E).
  exists s. split; [done|]. apply mapM_ok in E.
  apply Forall_forall. intros tr Htr.
  destruct (Forall2_elem_of_r _ _ _ _ E Htr) as ([r t] & Hrt & Hc).
  assert (Hm : (r, t) ∈ masked lo hi (zip (named name csv) (stamps s))).
  { destruct flt; [|done]. by apply list_elem_of_filter in Hrt as [_ Hrt]. }
  destruct (Forall2_elem_of_r _ _ _ _ (masked_spec lo hi _) Hm) as ([r' t'] & Hin & E1 & E2).
  cbn in E1, E2. subst r' t'. apply list_elem_of_filter in Hin as [_ Hin].
  exists r, t. done.
Qed.

Lemma elem_of_vars_to_extract extra k :
  k ∈ vars_to_extract extra <->
  k ∈ Config.IBTRACS_EXTRACT_VARS \/ exists vs, extra = Some vs /\ k ∈ vs.
Proof.
  unfold vars_to_extract. rewrite elem_of_app. destruct extra as [vs|].
  - rewrite list_elem_of_filter. split.
    + intros [Hk|[_ Hk]]; [by left|right; eauto].
    + intros [Hk|(vs' & E & Hk)]; [by left|]. inversion E; subst vs'.
      destruct (decide (k ∈ Config.IBTRACS_EXTRACT_VARS)) as [Hd|Hd]; [by left|].
      right. split; [|done]. apply Is_true_true, negb_true_iff.
      by apply bool_decide_eq_false.
  - split.
    + intros [Hk|Hk]; [by left|]. by apply elem_of_nil in Hk.
    + intros [Hk|(vs & E & _)]; [by left|discriminate].
Qed.

Lemma elem_of_named name csv r : r ∈ named name csv <-> r ∈ body csv /\ NAME r = name.
Proof.
  unfold named. rewrite list_elem_of_filter. split.
  - intros [Hn Hr]. split; [done|]. by apply Is_true_true, String.eqb_eq in Hn.
  - intros [Hr Hn]. split; [|done]. by apply Is_true_true, String.eqb_eq.
Qed.

(** X3. Every row returned keeps the longitude in both conventions:
    [LON_180] is the text of a line of the storm, and [LON] is the
    float read from that text, normalised: for a finite float a value
    of [[0, 360)] at most [2^-43] away from a whole number of turns
    from it, and NaN otherwise. *)
Theorem track_keeps_both_longitudes name year csv flt extra out tr :
  get_storm_track name year csv flt extra = ok out -> tr ∈ out ->
  exists r x,
    r ∈ body csv /\ NAME r = name /\ t_LON_180 tr = LON r /\
    Lib.float (t_LON_180 tr) = Some x /\ t_LON tr = _lon_to_360 x /\
    (forall q, x = Py.Ffin q ->
       TurnSpec.in_turn (t_LON tr) /\
       TurnSpec.near_congruent_360 (2 ^ (-43)) (t_LON tr) x) /\
    ((forall q, x <> Py.Ffin q) -> t_LON tr = Py.Fnan).
Proof.
  intros E Htr.
  destruct (get_storm_track_converted _ _ _ _ _ _ E) as (s & _ & HF).
  rewrite Forall_forall in HF. destruct (HF tr Htr) as (r & t & Hin & Hc).
  apply elem_of_zip_l, elem_of_named in Hin as [Hr Hn].
  apply convert_ok in Hc as (x & Hx & ->). cbn.
  exists r, x. repeat (split; [done|]). split.
  - intros q ->.
    destruct (FloatFacts.lon_to_360_finite q) as (p & k & Ep & Hp0 & Hp1 & Herr).
    rewrite Ep. split.
    + exists p. done.
    + exists p, q, k. done.
  - apply FloatFacts.lon_to_360_not_finite.
Qed.

(** X4. Only the lines named like the storm count: two tables with the
    same columns and the same such lines under the line of units give
    the same result, failures included. *)
Theorem other_storms_irrelevant name year csv csv' flt extra :
  columns csv = columns csv' ->
  filter (fun r => String.eqb (NAME r) name) (body csv)
    = filter (fun r => String.eqb (NAME r) name) (body csv') ->
  get_storm_track name year csv flt extra = get_storm_track name year csv' flt extra.
Proof.
  intros Hc Hf. unfold get_storm_track. fold (body csv) (body csv').
  rewrite Hc, Hf. reflexivity.
Qed.

(** X6. When pandas has read the timestamps of the storm's lines and
    the table lacks a column to extract, the call raises a [KeyError]
    naming a missing column, also when no line matches the storm and
    the year. *)
Theorem missing_column_raises name year csv flt extra v times :
  1000 <= year <= 9998 ->
  "NAME" ∈ columns csv -> "ISO_TIME" ∈ columns csv ->
  read_times name csv times ->
  v ∈ vars_to_extract extra -> (v ∉ columns csv) ->
  exists k, k ∈ vars_to_extract extra /\ (k ∉ columns csv) /\
    get_storm_track name year csv flt extra = raise (KeyError k).
Proof.
  intros Hy Hc1 Hc2 Hread Hv Hmiss.
  destruct (check_columns_raise _ _ _ Hv Hmiss) as (k & Hk & Hkc & E).
  exists k. split; [done|]. split; [done|].
  unfold get_storm_track, parse_times. fold (body csv). fold (named name csv).
  rewrite (bind_ok_l _ _ _ (year_bound_four_digits year ltac:(lia))).
  rewrite (bind_ok_l _ _ _ (year_bound_four_digits (year + 1) ltac:(lia))).
  rewrite (bind_ok_l (check_columns (columns csv) ["NAME"]) _ tt).
  2:{ apply check_columns_ok. intros w Hw. by apply list_elem_of_singleton in Hw as ->. }
  rewrite (bind_ok_l (check_columns (columns csv) ["ISO_TIME"]) _ tt).
  2:{ apply check_columns_ok. intros w Hw. by apply list_elem_of_singleton in Hw as ->. }
  unfold read_times in Hread. rewrite Hread. cbn -[check_columns masked vars_to_extract].
  by apply bind_raise_l.
Qed.

(** X7. A row returned carries, besides the six named fields, exactly
    the cells of its line whose column is one of the default variables
    or one of the extra variables asked for. *)
Theorem track_carries_extracted_columns name year csv flt extra out tr :
  get_storm_track name year csv flt extra = ok out -> tr ∈ out ->
  exists r t, r ∈ body csv /\ produced_from (r, Some t) tr /\
    forall k v, (k, v) ∈ t_other tr <->
      (k, v) ∈ other r /\
      (k ∈ Config.IBTRACS_EXTRACT_VARS \/ exists vs, extra = Some vs /\ k ∈ vs).
Proof.
  intros E Htr.
  destruct (get_storm_track_converted _ _ _ _ _ _ E) as (s & _ & HF).
  rewrite Forall_forall in HF. destruct (HF tr Htr) as (r & t & Hin & Hc).
  apply elem_of_zip_l, elem_of_named in Hin as [Hr Hn].
  exists r, t. split; [done|]. split.
  { eapply (convert_produced _ (r, Some t) (r, t)); [|exact Hc]. split; done. }
  apply convert_ok in Hc as (x & _ & ->). cbn. intros k v.
  unfold project. rewrite list_elem_of_filter. cbn.
  rewrite <- elem_of_vars_to_extract.
  split.
  - intros [Hk Hin]. split; [done|]. by apply Is_true_true, bool_decide_eq_true in Hk.
  - intros [Hin Hk]. split; [|done]. by apply Is_true_true, bool_decide_eq_true.
Qed.
End TrackMore.
End TrackMore.

(** ** The longitude normalisation on floats *)

Module LonMore.
Import Py.
Local Open Scope Q_scope.

Lemma on_grid_coarser (c : Q) (u u' : Z) : (u <= u')%Z -> on_grid c u' -> on_grid c u.
Proof.
  intros Hu [k Hk]. destruct (FloatFacts.on_grid_finer k u' u Hu) as [k' Hk'].
  exists k'. rewrite Hk. exact Hk'.
Qed.

Lemma on_grid_eq (c d : Q) (u : Z) : c == d -> on_grid c u -> on_grid d u.
Proof. intros E [k Hk]. exists k. rewrite <- E. exact Hk. Qed.

Lemma on_grid_plus (c d : Q) (u : Z) : on_grid c u -> on_grid d u -> on_grid (c + d) u.
Proof. intros [k Hk] [j Hj]. exists (k + j)%Z. rewrite inject_Z_plus, Hk, Hj. ring. Qed.

Lemma on_grid_turns (n u : Z) : (u <= 3)%Z -> on_grid (360 * inject_Z n) u.
Proof.
  intros Hu. destruct (FloatFacts.on_grid_finer (45 * n) 3 u Hu) as [k Hk]. exists k.
  rewrite <- Hk, inject_Z_mult. change (2 ^ 3) with 8. change (inject_Z 45) with 45. ring.
Qed.

(** A value of the grid is not rounded. *)
Lemma rnd_exact (q : Q) :
  ~ q == 0 -> Qabs q < 1024 -> on_grid q (-43) -> exists r, rnd q = Ffin r /\ r == q.
Proof.
  intros Hq Hsm Hg. destruct (FloatFacts.rnd_small q Hq Hsm) as (Hu & r & Hr & _ & _).
  exists r. split; [done|].
  destruct (FloatFacts.rnd_grid q q r Hq Hsm (on_grid_coarser _ _ _ Hu Hg) Hr) as [A B].
  apply Qle_antisym; [apply A|apply B]; apply Qle_refl.
Qed.

(** [q % 360] on the grid: exact. *)
Lemma mod_360_exact (q : Q) :
  on_grid q (-43) ->
  exists (r : Q) (n : Z),
    mod_ (Ffin q) 360 = Ffin r /\ 0 <= r /\ r < 360 /\ r == q - 360 * inject_Z n.
Proof.
  intros Hg.
  destruct (FloatFacts.fmod_spec q 360 ltac:(reflexivity)) as (f & n & Ef & Efq & Hpos & Hneg).
  unfold mod_. rewrite Ef. change (Qle_bool 0 360) with true. cbn [negb xorb].
  destruct (Qeq_bool f 0) eqn:E0.
  - apply Qeq_bool_iff in E0. exists 0, n. split; [reflexivity|]. lra.
  - assert (Hf0 : ~ f == 0).
    { intros E. apply Qeq_bool_iff in E. congruence. }
    destruct (Qle_bool 0 f) eqn:E1; cbn [negb].
    + apply Qle_bool_iff in E1.
      assert (Hq : 0 <= q).
      { apply Qnot_lt_le. intros Hq. destruct Hneg as [_ Hle]; lra. }
      destruct (Hpos Hq) as [_ Hlt].
      exists f, n. split; [reflexivity|]. lra.
    + assert (Hfneg : f < 0).
      { apply Qnot_le_lt. intros Hle. apply Qle_bool_iff in Hle. congruence. }
      assert (Hq : q <= 0).
      { apply Qnot_lt_le. intros Hq. destruct Hpos as [Hge _]; lra. }
      destruct (Hneg Hq) as [Hgt _].
      assert (Hnz : ~ f + 360 == 0) by lra.
      assert (Hsm : Qabs (f + 360) < 1024) by (apply Qabs_Qlt_condition; lra).
      assert (En : inject_Z (n - 1) == inject_Z n - 1).
      { replace (n - 1)%Z with (n + -1)%Z by lia.
        rewrite inject_Z_plus. change (inject_Z (-1)) with (-1). ring. }
      assert (Hgf : on_grid (f + 360) (-43)).
      { apply (on_grid_eq (q + 360 * inject_Z (- (n - 1)))).
        - rewrite inject_Z_opp, En. lra.
        - apply on_grid_plus; [exact Hg|]. apply on_grid_turns. lia. }
      destruct (rnd_exact _ Hnz Hsm Hgf) as (r & Hr & Er).
      exists r, (n - 1)%Z. split; [exact Hr|]. rewrite En. lra.
Qed.

(** The only value of [[0, 360)] a whole number of turns from [q]. *)
Lemma turn_of_unique (q r : Q) (k : Z) :
  0 <= r -> r < 360 -> r == q + 360 * inject_Z k -> r == TurnSpec.turn_of q.
Proof.
  intros H0 H1 Er. unfold TurnSpec.turn_of.
  assert (Eq : q == 360 * (q / 360)) by (field; lra).
  pose proof (Qfloor_le (q / 360)) as F1. pose proof (Qlt_floor (q / 360)) as F2.
  set (x := q / 360) in *. set (t := Qfloor x) in *.
  rewrite inject_Z_plus in F2. change (inject_Z 1) with 1 in F2.
  assert (Et : t = (- k)%Z).
  { assert (A : (t < 1 - k)%Z).
    { rewrite Zlt_Qlt. replace (1 - k)%Z with (1 + - k)%Z by lia.
      rewrite inject_Z_plus, inject_Z_opp. change (inject_Z 1) with 1. lra. }
    assert (B : (- k < t + 1)%Z).
    { rewrite Zlt_Qlt, inject_Z_plus, inject_Z_opp. change (inject_Z 1) with 1. lra. }
    lia. }
  rewrite Et, inject_Z_opp. lra.
Qed.

(** X1. A longitude that is a whole multiple of [2^-43] degrees (every
    whole number of degrees, halves, quarters, ...) is converted
    without rounding: the result is the longitude of [[0, 360)] a
    whole number of turns from it. *)
Theorem lon_to_360_exact_on_grid (q : Q) :
  on_grid q (-43) ->
  exists r, Ibtracs._lon_to_360 (Ffin q) = Ffin r /\ r == TurnSpec.turn_of q.
Proof.
  intros Hg.
  destruct (mod_360_exact q Hg) as (r1 & n1 & E1 & H10 & H11 & Er1).
  assert (Hg1 : on_grid (360 + r1) (-43)).
  { apply (on_grid_eq (q + 360 * inject_Z (1 - n1))).
    - replace (1 - n1)%Z with (1 + - n1)%Z by lia.
      rewrite inject_Z_plus, inject_Z_opp. change (inject_Z 1) with 1. lra.
    - apply on_grid_plus; [exact Hg|]. apply on_grid_turns. lia. }
  destruct (rnd_exact (360 + r1)) as (s & E2 & Es); [lra|apply Qabs_Qlt_condition; lra|done|].
  destruct (mod_360_exact s) as (r & n2 & E3 & Hr0 & Hr1 & Er).
  { apply (on_grid_eq (360 + r1)); [by symmetry|done]. }
  exists r. unfold Ibtracs._lon_to_360. rewrite E1. cbn [add]. rewrite E2, E3.
  split; [reflexivity|].
  apply (turn_of_unique q r (1 - n1 - n2)); [done|done|].
  replace (1 - n1 - n2)%Z with (1 + - n1 + - n2)%Z by lia.
  rewrite !inject_Z_plus, !inject_Z_opp. change (inject_Z 1) with 1. lra.
Qed.


Lemma Qred_idem (q : Q) : Qred (Qred q) = Qred q.
Proof. apply Qred_complete, Qred_correct. Qed.

(** The finite values the float operations return are fractions in
    lowest terms. *)
Lemma rnd_reduced (q r : Q) : rnd q = Ffin r -> Qred r = r.
Proof.
  unfold rnd. destruct (Qeq_bool q 0).
  - intros E. inversion E. reflexivity.
  - destruct (Qle_bool _ _); [discriminate|]. intros E. inversion E. apply Qred_idem.
Qed.

Lemma mod_reduced (x : float64) (m r : Q) : mod_ x m = Ffin r -> Qred r = r.
Proof.
  unfold mod_, fmod. destruct x as [|b|q]; [discriminate|discriminate|].
  destruct (Qeq_bool _ 0).
  - intros E. inversion E. reflexivity.
  - destruct (xorb _ _).
    + apply rnd_reduced.
    + intros E. inversion E. apply Qred_idem.
Qed.

Lemma reduced_eq (p q : Q) : Qred p = p -> Qred q = q -> p == q -> p = q.
Proof. intros Hp Hq E. rewrite <- Hp, <- Hq. by apply Qred_complete. Qed.

Lemma log2_floor_ge (q : Q) (k : Z) : ~ q == 0 -> 2 ^ k <= Qabs q -> (k <= log2_floor q)%Z.
Proof.
  intros Hq Hk. destruct (FloatFacts.log2_floor_spec q Hq) as [_ Hhi].
  assert (k < log2_floor q + 1)%Z; [|lia].
  apply (Qpower_lt_compat_l_inv 2); [|reflexivity].
  eapply Qle_lt_trans; [exact Hk|exact Hhi].
Qed.

Lemma ulp_exponent_256 (q : Q) : 256 <= q -> q < 512 -> ulp_exponent q = (-44)%Z.
Proof.
  intros H0 H1. assert (Hq : ~ q == 0) by lra.
  assert (Ea : Qabs q == q) by (apply Qabs_pos; lra).
  pose proof (log2_floor_ge q 8 Hq) as A. pose proof (FloatFacts.log2_floor_lt q 9 Hq) as B.
  rewrite Ea in A, B. change (2 ^ 8) with 256 in A. change (2 ^ 9) with 512 in B.
  specialize (A H0). specialize (B H1). unfold ulp_exponent. lia.
Qed.

Lemma ulp_exponent_512 (q : Q) : 512 <= q -> q < 1024 -> ulp_exponent q = (-43)%Z.
Proof.
  intros H0 H1. assert (Hq : ~ q == 0) by lra.
  assert (Ea : Qabs q == q) by (apply Qabs_pos; lra).
  pose proof (log2_floor_ge q 9 Hq) as A. pose proof (FloatFacts.log2_floor_lt q 10 Hq) as B.
  rewrite Ea in A, B. change (2 ^ 9) with 512 in A. change (2 ^ 10) with 1024 in B.
  specialize (A H0). specialize (B H1). unfold ulp_exponent. lia.
Qed.

Lemma on_grid_512 (u : Z) : (u <= 9)%Z -> on_grid 512 u.
Proof.
  intros Hu. destruct (FloatFacts.on_grid_finer 1 9 u Hu) as [k Hk]. exists k.
  rewrite <- Hk. reflexivity.
Qed.

(** A value rounded once is not rounded again, here between 360 and
    720. *)
Lemma rnd_idem_range (x s x' : Q) :
  360 <= x -> x <= 720 -> rnd x = Ffin s -> x' == s -> rnd x' = Ffin s.
Proof.
  intros H0 H1 Hs Ex'.
  assert (Hnz : ~ x == 0) by lra.
  assert (Hsm : Qabs x < 1024) by (apply Qabs_Qlt_condition; lra).
  destruct (FloatFacts.rnd_small x Hnz Hsm) as (Hu & s0 & Hs0 & Es0 & _).
  rewrite Hs in Hs0. inversion Hs0; subst s0. clear Hs0.
  assert (Hgs : on_grid s (ulp_exponent x)) by (eexists; exact Es0).
  assert (Hu3 : (ulp_exponent x <= 3)%Z) by lia.
  destruct (FloatFacts.rnd_grid _ 360 s Hnz Hsm (FloatFacts.on_grid_360 _ Hu3) Hs) as [_ Hlo].
  destruct (FloatFacts.rnd_grid _ 720 s Hnz Hsm (FloatFacts.on_grid_720 _ Hu3) Hs) as [Hhi _].
  specialize (Hlo H0). specialize (Hhi H1).
  assert (Hu9 : (ulp_exponent x <= 9)%Z) by lia.
  destruct (FloatFacts.rnd_grid _ 512 s Hnz Hsm (on_grid_512 _ Hu9) Hs) as [H512a H512b].
  assert (Hnz' : ~ x' == 0) by lra.
  assert (Hsm' : Qabs x' < 1024) by (apply Qabs_Qlt_condition; lra).
  assert (Hg' : on_grid x' (ulp_exponent x')).
  { destruct (Qlt_le_dec x 512) as [Hx|Hx].
    - rewrite (ulp_exponent_256 x) in Hgs by lra.
      specialize (H512a ltac:(lra)).
      destruct (Qlt_le_dec x' 512) as [Hx'|Hx'].
      + rewrite (ulp_exponent_256 x') by lra.
        apply (on_grid_eq s); [by symmetry|done].
      + rewrite (ulp_exponent_512 x') by lra.
        apply (on_grid_eq 512); [lra|]. apply on_grid_512. lia.
    - rewrite (ulp_exponent_512 x) in Hgs by lra.
      specialize (H512b Hx).
      rewrite (ulp_exponent_512 x') by lra.
      apply (on_grid_eq s); [by symmetry|done]. }
  destruct (FloatFacts.rnd_small x' Hnz' Hsm') as (_ & s' & Hs' & _ & _).
  destruct (FloatFacts.rnd_grid x' x' s' Hnz' Hsm' Hg' Hs') as [A B].
  rewrite Hs'. f_equal. apply reduced_eq.
  - by apply (rnd_reduced x').
  - by apply (rnd_reduced x).
  - rewrite <- Ex'. apply Qle_antisym; [apply A|apply B]; apply Qle_refl.
Qed.

Lemma Qfloor_unit (x : Q) : 0 <= x -> x < 1 -> Qfloor x = 0%Z.
Proof.
  intros H0 H1. pose proof (Qfloor_le x) as F1. pose proof (Qlt_floor x) as F2.
  rewrite inject_Z_plus in F2. change (inject_Z 1) with 1 in F2.
  assert (A : (Qfloor x < 1)%Z) by (rewrite Zlt_Qlt; change (inject_Z 1) with 1; lra).
  assert (B : (0 < Qfloor x + 1)%Z).
  { rewrite Zlt_Qlt, inject_Z_plus. change (inject_Z 0) with 0. change (inject_Z 1) with 1. lra. }
  lia.
Qed.

(** [r % 360] is [r] for a float [r] of [[0, 360)]. *)
Lemma mod_360_fix (r : Q) : Qred r = r -> 0 <= r -> r < 360 -> mod_ (Ffin r) 360 = Ffin r.
Proof.
  intros Hred H0 H1.
  assert (Et : trunc (r / 360) = 0%Z).
  { assert (Ex : r == 360 * (r / 360)) by (field; lra).
    set (x := r / 360) in *. unfold trunc.
    assert (Hx0 : 0 <= x) by lra.
    destruct (Qle_bool 0 x) eqn:Hb.
    - apply Qfloor_unit; lra.
    - exfalso. apply Qle_bool_iff in Hx0. congruence. }
  assert (Ef : fmod (Ffin r) 360 = Ffin r).
  { unfold fmod. rewrite Et. f_equal. rewrite <- Hred at 2. apply Qred_complete.
    change (inject_Z 0) with 0. ring. }
  unfold mod_. rewrite Ef. destruct (Qeq_bool r 0) eqn:E0.
  - apply Qeq_bool_iff in E0. f_equal. symmetry. by apply reduced_eq.
  - change (Qle_bool 0 360) with true. cbn [negb xorb].
    destruct (Qle_bool 0 r) eqn:E1; [reflexivity|].
    exfalso. apply Qle_bool_iff in H0. congruence.
Qed.

(** X2. Converting twice is converting once, on every float: the
    value [_lon_to_360] returns is a float of [[0, 360)] (or NaN) that
    the conversion leaves as it is. *)
Theorem lon_to_360_idempotent (x : float64) :
  Ibtracs._lon_to_360 (Ibtracs._lon_to_360 x) = Ibtracs._lon_to_360 x.
Proof.
  destruct x as [|b|q]; [reflexivity|reflexivity|].
  destruct (FloatFacts.mod_360_spec q) as (r1 & n1 & E1 & H10 & H11 & _ & _).
  destruct (FloatFacts.add_360_spec r1 H10 H11) as (s & E2 & Hs0 & Hs1 & _).
  destruct (FloatFacts.mod_360_spec s) as (r & n2 & E3 & Hr0 & _ & _ & Hexact).
  destruct (Hexact ltac:(lra)) as [Er Hr1].
  assert (E : Ibtracs._lon_to_360 (Ffin q) = Ffin r).
  { unfold Ibtracs._lon_to_360. by rewrite E1, E2, E3. }
  rewrite E.
  pose proof (mod_reduced _ _ _ E3) as Hred.
  assert (A : (0 < n2)%Z) by (rewrite Zlt_Qlt; change (inject_Z 0) with 0; lra).
  assert (B : (n2 < 3)%Z) by (rewrite Zlt_Qlt; change (inject_Z 3) with 3; lra).
  assert (Hn : n2 = 1%Z \/ n2 = 2%Z) by lia.
  destruct Hn as [-> | ->].
  - change (inject_Z 1) with 1 in Er.
    unfold Ibtracs._lon_to_360. rewrite (mod_360_fix r Hred Hr0 Hr1). cbn [add].
    cbn [add] in E2.
    rewrite (rnd_idem_range (360 + r1) s (360 + r)); [exact E3|lra|lra|exact E2|lra].
  - change (inject_Z 2) with 2 in Er.
    assert (E0 : r = 0); [|rewrite E0; vm_compute; reflexivity].
    apply reduced_eq; [done|reflexivity|lra].
Qed.

End LonMore.

Module MirsMore.
Section MirsMore.
Context {pandas : Pandas} {python : Python} `{Shapely} `{Xarray}.
Import GranuleSpec MirsFacts.

(** [.iloc] answers for the positions [-len .. len - 1], a negative one
    counted from the end. *)
Lemma iloc_ok {A} (l : list A) (ipt : Z) (x : A) :
  Mirs.iloc l ipt = ok x <->
  exists j : nat,
    l !! j = Some x /\
    (ipt = Z.of_nat j \/ ipt = Z.of_nat j - Z.of_nat (length l)).
Proof.
  unfold Mirs.iloc.
  set (n := Z.of_nat (length l)).
  set (i := if ipt <? 0 then ipt + n else ipt).
  split.
  - destruct ((0 <=? i) && (i <? n)) eqn:Hin; [|discriminate].
    apply andb_true_iff in Hin as [H1 H2].
    intros E. apply of_option_ok in E. exists (Z.to_nat i). split; [done|].
    rewrite Z2Nat.id by lia. clear E. subst i n. revert H1 H2.
    destruct (ipt <? 0) eqn:Hneg; intros H1 H2; [right; lia|left; reflexivity].
  - intros (j & Hj & Hipt).
    pose proof (lookup_lt_Some _ _ _ Hj) as Hlt.
    subst i n.
    assert (Hi : (if ipt <? 0 then ipt + Z.of_nat (length l) else ipt) = Z.of_nat j).
    { destruct Hipt as [-> | ->].
      - replace (Z.of_nat j <? 0) with false by lia. done.
      - replace (Z.of_nat j - Z.of_nat (length l) <? 0) with true by lia. lia. }
    rewrite Hi.
    replace ((0 <=? Z.of_nat j) && (Z.of_nat j <? Z.of_nat (length l))) with true.
    + rewrite Nat2Z.id. by apply of_option_ok.
    + symmetry. apply andb_true_iff. split; lia.
Qed.

Lemma iloc_out_of_range {A} (l : list A) (ipt : Z) :
  ~ (- Z.of_nat (length l) <= ipt < Z.of_nat (length l)) ->
  Mirs.iloc l ipt = raise IndexError.
Proof.
  intros Hout. unfold Mirs.iloc.
  set (n := Z.of_nat (length l)) in *.
  set (i := if ipt <? 0 then ipt + n else ipt).
  replace ((0 <=? i) && (i <? n)) with false; [reflexivity|].
  symmetry. apply andb_false_iff. subst i n.
  destruct (ipt <? 0) eqn:Hneg.
  - destruct (Z.leb_spec 0 (ipt + Z.of_nat (length l))); [right|left]; lia.
  - destruct (Z.ltb_spec ipt (Z.of_nat (length l))); [left|right]; lia.
Qed.

Lemma iloc_in_range {A} (l : list A) (ipt : Z) :
  - Z.of_nat (length l) <= ipt < Z.of_nat (length l) ->
  exists x, Mirs.iloc l ipt = ok x.
Proof.
  intros Hin.
  destruct (Z.ltb_spec ipt 0) as [Hneg|Hpos].
  - destruct (lookup_lt_is_Some_2 l (Z.to_nat (ipt + Z.of_nat (length l)))) as [x Hx];
      [lia|].
    exists x. apply iloc_ok. exists (Z.to_nat (ipt + Z.of_nat (length l))).
    split; [done|]. right. lia.
  - destruct (lookup_lt_is_Some_2 l (Z.to_nat ipt)) as [x Hx]; [lia|].
    exists x. apply iloc_ok. exists (Z.to_nat ipt). split; [done|]. left. lia.
Qed.

(** The scan of one track point fails on a file that cannot be opened. *)
Lemma scan_files_unreadable mirs_dir lat lon tb ta east files f :
  f ∈ files -> Py.endswith f ".nc" = true -> open_dataset mirs_dir f = None ->
  forall matched, exists e,
    Mirs.scan_files mirs_dir lat lon tb ta east files matched = raise e.
Proof.
  intros Hf Hnc Hopen. induction files as [|g files IH]; intros matched.
  - by apply elem_of_nil in Hf.
  - cbn. destruct (Py.endswith g ".nc") eqn:Hg; cbn.
    + destruct (open_dataset mirs_dir g) as [ds|] eqn:Hds; cbn; [|eauto].
      destruct (Mirs._granule_overlaps_track_point ds lat lon tb ta east) as [e|b];
        cbn; [eauto|].
      apply elem_of_cons in Hf as [->|Hf]; [congruence|]. by apply IH.
    + apply elem_of_cons in Hf as [->|Hf]; [congruence|]. by apply IH.
Qed.

(** Without a file ending in [.nc] the scan changes nothing and opens
    nothing. *)
Lemma scan_files_no_nc mirs_dir lat lon tb ta east files matched :
  (forall f, f ∈ files -> Py.endswith f ".nc" = false) ->
  Mirs.scan_files mirs_dir lat lon tb ta east files matched = ok matched.
Proof.
  induction files as [|g files IH]; intros Hall; [done|].
  cbn. rewrite (Hall g) by (by left). cbn. apply IH.
  intros f Hf. apply Hall. by right.
Qed.

Lemma scan_track_no_nc track mirs_dir W east indices matched :
  (forall f, f ∈ listdir mirs_dir -> Py.endswith f ".nc" = false) ->
  (forall ipt, ipt ∈ indices ->
     - Z.of_nat (length track) <= ipt < Z.of_nat (length track)) ->
  Mirs.scan_track track mirs_dir W east indices matched = ok matched.
Proof.
  intros Hnc. induction indices as [|ipt indices IH]; intros Hall; [done|].
  cbn. destruct (iloc_in_range track ipt (Hall ipt ltac:(by left))) as [pt ->].
  cbn -[Mirs.scan_files]. rewrite scan_files_no_nc by done. cbn. apply IH.
  intros i Hi. apply Hall. by right.
Qed.

Lemma scan_track_bad_index track mirs_dir W east indices ipt :
  ipt ∈ indices ->
  ~ (- Z.of_nat (length track) <= ipt < Z.of_nat (length track)) ->
  forall matched, exists e,
    Mirs.scan_track track mirs_dir W east indices matched = raise e.
Proof.
  intros Hin Hout. induction indices as [|i indices IH]; intros matched.
  - by apply elem_of_nil in Hin.
  - cbn. destruct (Mirs.iloc track i) as [e|pt] eqn:Hi; cbn -[Mirs.scan_files]; [eauto|].
    destruct (Mirs.scan_files _ _ _ _ _ _ _ _) as [e|m]; cbn; [eauto|].
    apply elem_of_cons in Hin as [->|Hin].
    + rewrite iloc_out_of_range in Hi by done. discriminate.
    + by apply IH.
Qed.

(** Two scans that match the same names return the same lists. *)
Lemma find_mirs_files_same track mirs_dir W east ti track' mirs_dir' W' east' ti' r r' :
  Mirs.find_mirs_files track mirs_dir W east ti = ok r ->
  Mirs.find_mirs_files track' mirs_dir' W' east' ti' = ok r' ->
  (forall f,
     (exists ipt, ipt ∈ Mirs.track_points track ti /\
                  matches_point track mirs_dir W east ipt f) <->
     (exists ipt, ipt ∈ Mirs.track_points track' ti' /\
                  matches_point track' mirs_dir' W' east' ipt f)) ->
  r = r'.
Proof.
  destruct r as [img snd], r' as [img' snd']. intros E E' Hsame.
  apply find_mirs_files_ok in E as (matched & Hscan & -> & ->).
  apply find_mirs_files_ok in E' as (matched' & Hscan' & -> & ->).
  assert (Hm : matched = matched').
  { apply set_eq. intros f.
    rewrite (scan_track_spec _ _ _ _ _ _ _ Hscan f).
    rewrite (scan_track_spec _ _ _ _ _ _ _ Hscan' f).
    rewrite (Hsame f). split; (intros [Hin|Hex]; [by apply not_elem_of_empty in Hin|by right]). }
  by rewrite Hm.
Qed.

(** A scan that matches no more names than another returns sublists. *)
Lemma find_mirs_files_incl track mirs_dir W east ti track' mirs_dir' W' east' ti'
    img snd img' snd' :
  Mirs.find_mirs_files track mirs_dir W east ti = ok (img, snd) ->
  Mirs.find_mirs_files track' mirs_dir' W' east' ti' = ok (img', snd') ->
  (forall f ipt, ipt ∈ Mirs.track_points track ti ->
     matches_point track mirs_dir W east ipt f ->
     exists ipt', ipt' ∈ Mirs.track_points track' ti' /\
                  matches_point track' mirs_dir' W' east' ipt' f) ->
  img ⊆ img' /\ snd ⊆ snd'.
Proof.
  intros E E' Hincl.
  apply find_mirs_files_ok in E as (matched & Hscan & -> & ->).
  apply find_mirs_files_ok in E' as (matched' & Hscan' & -> & ->).
  assert (Hm : forall f, f ∈ matched -> f ∈ matched').
  { intros f Hf.
    apply (scan_track_spec _ _ _ _ _ _ _ Hscan) in Hf as [Hf|(ipt & Hipt & Hmp)];
      [by apply not_elem_of_empty in Hf|].
    apply (scan_track_spec _ _ _ _ _ _ _ Hscan'). right. eauto. }
  split; intros f Hf; apply elem_of_sorted_with_prefix in Hf as [Hf Hp];
    apply elem_of_sorted_with_prefix; auto.
Qed.

Lemma overlaps_wider ds lat lon tb ta tb' ta' east :
  tb' <= tb -> ta <= ta' ->
  Mirs._granule_overlaps_track_point ds lat lon tb ta east = ok true ->
  Mirs._granule_overlaps_track_point ds lat lon tb' ta' east = ok true.
Proof.
  intros Hb Ha E. apply overlaps_true in E as (s & e & Hcov & H1 & H2 & Heast & Hpt).
  apply overlaps_true. exists s, e.
  split; [done|]. split; [lia|]. split; [lia|]. done.
Qed.

Lemma overlaps_without_dateline ds lat lon tb ta :
  Mirs._granule_overlaps_track_point ds lat lon tb ta true = ok true ->
  Mirs._granule_overlaps_track_point ds lat lon tb ta false = ok true.
Proof.
  intros E. apply overlaps_true in E as (s & e & Hcov & H1 & H2 & Heast & Hpt).
  apply overlaps_true. exists s, e.
  split; [done|]. split; [done|]. split; [done|]. split; [discriminate|done].
Qed.

(** X9. Widening the time window never loses a match: a granule that
    passes the test for a window passes it for any window containing
    it, and the lists found with [W] hours are within those found with
    [W' >= W] hours. *)
Theorem wider_window_keeps_matches :
  (forall ds lat lon tb ta tb' ta' east,
     tb' <= tb -> ta <= ta' ->
     Mirs._granule_overlaps_track_point ds lat lon tb ta east = ok true ->
     Mirs._granule_overlaps_track_point ds lat lon tb' ta' east = ok true) /\
  (forall track mirs_dir W W' east ti img snd img' snd',
     W <= W' ->
     Mirs.find_mirs_files track mirs_dir W east ti = ok (img, snd) ->
     Mirs.find_mirs_files track mirs_dir W' east ti = ok (img', snd') ->
     img ⊆ img' /\ snd ⊆ snd').
Proof.
  split; [exact overlaps_wider|].
  intros track mirs_dir W W' east ti img snd img' snd' HW E E'.
  eapply find_mirs_files_incl; [exact E|exact E'|].
  intros f ipt Hipt (Hin & Hnc & pt & ds & Hpt & Hds & Hov).
  exists ipt. split; [done|]. split; [done|]. split; [done|].
  exists pt, ds. split; [done|]. split; [done|].
  eapply overlaps_wider; [| |exact Hov]; unfold Time.hour, Time.second; nia.
Qed.

(** X10. Turning the dateline option off never loses a match. *)
Theorem dateline_off_keeps_matches :
  (forall ds lat lon tb ta,
     Mirs._granule_overlaps_track_point ds lat lon tb ta true = ok true ->
     Mirs._granule_overlaps_track_point ds lat lon tb ta false = ok true) /\
  (forall track mirs_dir W ti img snd img' snd',
     Mirs.find_mirs_files track mirs_dir W true ti = ok (img, snd) ->
     Mirs.find_mirs_files track mirs_dir W false ti = ok (img', snd') ->
     img ⊆ img' /\ snd ⊆ snd').
Proof.
  split; [exact overlaps_without_dateline|].
  intros track mirs_dir W ti img snd img' snd' E E'.
  eapply find_mirs_files_incl; [exact E|exact E'|].
  intros f ipt Hipt (Hin & Hnc & pt & ds & Hpt & Hds & Hov).
  exists ipt. split; [done|]. split; [done|]. split; [done|].
  exists pt, ds. split; [done|]. split; [done|]. by apply overlaps_without_dateline.
Qed.

(** X11. The lists returned do not depend on the order in which the
    directory is listed or the track points are given, nor on
    repetitions: two calls that list the same names, read the same
    files and scan the same positions return the same lists. *)
Theorem find_mirs_files_order_independent track mirs_dir mirs_dir' W east ti ti' r r' :
  (forall f, f ∈ listdir mirs_dir <-> f ∈ listdir mirs_dir') ->
  (forall f, open_dataset mirs_dir f = open_dataset mirs_dir' f) ->
  (forall ipt, ipt ∈ Mirs.track_points track ti <-> ipt ∈ Mirs.track_points track ti') ->
  Mirs.find_mirs_files track mirs_dir W east ti = ok r ->
  Mirs.find_mirs_files track mirs_dir' W east ti' = ok r' ->
  r = r'.
Proof.
  intros Hlist Hopen Hidx E E'.
  eapply find_mirs_files_same; [exact E|exact E'|].
  intros f. split.
  - intros (ipt & Hipt & Hin & Hnc & pt & ds & Hpt & Hds & Hov).
    exists ipt. split; [by apply Hidx|]. split; [by apply Hlist|]. split; [done|].
    exists pt, ds. rewrite <- Hopen. done.
  - intros (ipt & Hipt & Hin & Hnc & pt & ds & Hpt & Hds & Hov).
    exists ipt. split; [by apply Hidx|]. split; [by apply Hlist|]. split; [done|].
    exists pt, ds. rewrite Hopen. done.
Qed.

(** X12. Restricting the scan to some track rows can only lose
    matches: what is found for given row indices is within what is
    found for the whole track. *)
Theorem track_indices_restrict track mirs_dir W east idx img snd img' snd' :
  Mirs.find_mirs_files track mirs_dir W east (Some idx) = ok (img, snd) ->
  Mirs.find_mirs_files track mirs_dir W east None = ok (img', snd') ->
  img ⊆ img' /\ snd ⊆ snd'.
Proof.
  intros E E'. eapply find_mirs_files_incl; [exact E|exact E'|].
  intros f ipt Hipt (Hin & Hnc & pt & ds & Hpt & Hds & Hov).
  apply iloc_ok in Hpt as (j & Hj & _).
  exists (Z.of_nat j). split.
  - cbn. apply list_elem_of_fmap. exists j. split; [done|].
    apply elem_of_seq. pose proof (lookup_lt_Some _ _ _ Hj). lia.
  - split; [done|]. split; [done|]. exists pt, ds.
    split; [|done]. apply iloc_ok. exists j. split; [done|]. by left.
Qed.

Lemma prefixes_disjoint f :
  Py.startswith f "NPR-MIRS-IMG" = true -> Py.startswith f "NPR-MIRS-SND" = true -> False.
Proof.
  unfold Py.startswith. intros H1 H2.
  apply String.prefix_correct in H1, H2. cbn [String.length] in H1, H2.
  rewrite H1 in H2. discriminate.
Qed.

(** X13. Every name returned is a name of the directory listing that
    ends in [.nc], whose file opens, and that starts with the prefix of
    its list; no name is in both lists. *)
Theorem found_names_wellformed track mirs_dir W east ti img snd f :
  Mirs.find_mirs_files track mirs_dir W east ti = ok (img, snd) ->
  f ∈ img ++ snd ->
  f ∈ listdir mirs_dir /\ Py.endswith f ".nc" = true /\
  is_Some (open_dataset mirs_dir f) /\
  (f ∈ img -> Py.startswith f "NPR-MIRS-IMG" = true /\ (f ∉ snd)) /\
  (f ∈ snd -> Py.startswith f "NPR-MIRS-SND" = true /\ (f ∉ img)).
Proof.
  intros E Hf.
  apply find_mirs_files_ok in E as (matched & Hscan & -> & ->).
  assert (Hm : f ∈ matched).
  { apply elem_of_app in Hf as [Hf|Hf];
      apply elem_of_sorted_with_prefix in Hf as [Hf _]; done. }
  apply (scan_track_spec _ _ _ _ _ _ _ Hscan) in Hm as [Hm|(ipt & _ & Hm)];
    [by apply not_elem_of_empty in Hm|].
  destruct Hm as (Hin & Hnc & pt & ds & _ & Hds & _).
  split; [done|]. split; [done|]. split; [by rewrite Hds|].
  split; intros Hi; apply elem_of_sorted_with_prefix in Hi as [_ Hp]; (split; [done|]);
    intros Hs; apply elem_of_sorted_with_prefix in Hs as [_ Hp'];
    eauto using prefixes_disjoint.
Qed.

(** X14. One [.nc] file of the directory that cannot be opened makes
    the whole search fail as soon as one track point is scanned: no
    partial lists are returned. *)
Theorem unreadable_granule_fails track mirs_dir W east ti f :
  f ∈ listdir mirs_dir -> Py.endswith f ".nc" = true ->
  open_dataset mirs_dir f = None ->
  Mirs.track_points track ti <> [] ->
  exists e, Mirs.find_mirs_files track mirs_dir W east ti = raise e.
Proof.
  intros Hf Hnc Hopen Hpts. unfold Mirs.find_mirs_files.
  destruct (Mirs.track_points track ti) as [|ipt rest]; [done|].
  cbn -[Mirs.scan_files].
  destruct (Mirs.iloc track ipt) as [e|pt]; cbn -[Mirs.scan_files]; [eauto|].
  edestruct (scan_files_unreadable mirs_dir) as [e He]; [exact Hf|exact Hnc|exact Hopen|].
  rewrite He. cbn. eauto.
Qed.

(** X15. A row index outside [-len .. len - 1] makes the search fail;
    when it is the first index given, the failure is an [IndexError]
    raised before any file is opened. *)
Theorem bad_track_index_fails track mirs_dir W east :
  (forall ti ipt,
     ipt ∈ Mirs.track_points track ti ->
     ~ (- Z.of_nat (length track) <= ipt < Z.of_nat (length track)) ->
     exists e, Mirs.find_mirs_files track mirs_dir W east ti = raise e) /\
  (forall ipt rest,
     ~ (- Z.of_nat (length track) <= ipt < Z.of_nat (length track)) ->
     Mirs.find_mirs_files track mirs_dir W east (Some (ipt :: rest)) = raise IndexError).
Proof.
  split.
  - intros ti ipt Hin Hout. unfold Mirs.find_mirs_files.
    destruct (scan_track_bad_index track mirs_dir W east _ ipt Hin Hout ∅) as [e He].
    rewrite He. cbn. eauto.
  - intros ipt rest Hout. unfold Mirs.find_mirs_files. cbn -[Mirs.scan_files].
    rewrite iloc_out_of_range by done. reflexivity.
Qed.

(** X16. A directory without any name ending in [.nc] (an empty one, or
    one holding other files only) gives two empty lists, and no file is
    opened, provided the row indices are in range. *)
Theorem no_granule_files_found_empty track mirs_dir W east ti :
  (forall f, f ∈ listdir mirs_dir -> Py.endswith f ".nc" = false) ->
  (forall ipt, ipt ∈ Mirs.track_points track ti ->
     - Z.of_nat (length track) <= ipt < Z.of_nat (length track)) ->
  Mirs.find_mirs_files track mirs_dir W east ti = ok ([], []).
Proof.
  intros Hnc Hidx. unfold Mirs.find_mirs_files.
  rewrite scan_track_no_nc by done. cbn -[Mirs.sorted_with_prefix].
  unfold Mirs.sorted_with_prefix. rewrite elements_empty. reflexivity.
Qed.

(** X17. With the dateline option on, a granule whose coverage lies in
    the window and whose first-scan longitude is [>= 0] is answered
    [False] before its polygon or the point's coordinates are read:
    malformed bounds or coordinates do not make the test fail. *)
Theorem dateline_skips_before_polygon ds lat lon tb ta start end_ x :
  coverage ds start end_ -> tb <= start -> end_ <= ta ->
  attrs ds !! "geospatial_first_scanline_first_fov_lon" = Some (AFloat (Some x)) ->
  (0 <= x)%Q ->
  Mirs._granule_overlaps_track_point ds lat lon tb ta true = ok false.
Proof.
  intros [Hs He] Hb Ha Hx Hle. unfold Mirs._granule_overlaps_track_point.
  rewrite Hs, He. cbn.
  replace (tb <=? start) with true by lia. cbn.
  replace (end_ <=? ta) with true by lia. cbn.
  unfold Mirs.first_fov_lon_nonneg. rewrite Hx.
  apply Qle_bool_iff in Hle. by rewrite Hle.
Qed.
End MirsMore.
End MirsMore.

Module MergeMore.
Section MergeMore.
Context {pandas : Pandas} {python : Python} `{Shapely} `{Xarray}.
Import MergeFacts.

Lemma select_vars_ok ds names d :
  Mirs.select_vars ds names = ok d ->
  attrs d = attrs ds /\
  (forall k, k ∈ names -> is_Some (data_vars ds !! k) /\
                          data_vars d !! k = data_vars ds !! k) /\
  (forall k, (k ∉ names) -> data_vars d !! k = None).
Proof.
  unfold Mirs.select_vars. intros E.
  apply bind_ok in E as (vs & Hvs & E). inversion E; subst d; clear E. cbn.
  apply mapM_ok in Hvs.
  assert (Hall : forall k v, (k, v) ∈ vs -> k ∈ names /\ data_vars ds !! k = Some v).
  { clear -Hvs. induction Hvs as [|k kv names vs Hk Hvs IH]; intros k' v' Hin.
    - by apply elem_of_nil in Hin.
    - apply bind_ok in Hk as (v & Hv & Hk). apply of_option_ok in Hv.
      inversion Hk; subst kv.
      apply elem_of_cons in Hin as [Hin|Hin].
      + inversion Hin; subst. split; [by left|done].
      + destruct (IH _ _ Hin). split; [by right|done]. }
  assert (Hcov : forall k, k ∈ names -> exists v, (k, v) ∈ vs).
  { clear -Hvs. induction Hvs as [|k kv names vs Hk Hvs IH]; intros k' Hin.
    - by apply elem_of_nil in Hin.
    - apply bind_ok in Hk as (v & Hv & Hk). inversion Hk; subst kv.
      apply elem_of_cons in Hin as [->|Hin].
      + exists v. by left.
      + destruct (IH _ Hin) as [v' Hv']. exists v'. by right. }
  split; [done|]. split.
  - intros k Hk. destruct (Hcov k Hk) as [v Hv].
    destruct (Hall k v Hv) as [_ Hlook]. rewrite Hlook. split; [eauto|].
    apply elem_of_list_to_map_1'; [|done].
    intros v' Hv'. destruct (Hall k v' Hv') as [_ Hlook']. congruence.
  - intros k Hk. apply not_elem_of_list_to_map_1.
    intros Hin. apply list_elem_of_fmap in Hin as ([k' v'] & -> & Hin).
    destruct (Hall _ _ Hin). done.
Qed.

Lemma open_all_unreadable mirs_dir files f :
  f ∈ files -> open_dataset mirs_dir f = None ->
  Mirs.open_all mirs_dir files = raise (LibError "open_dataset").
Proof.
  intros Hf Hopen. unfold Mirs.open_all.
  edestruct (mapM_fails (fun f => of_option (LibError "open_dataset")
                                    (open_dataset mirs_dir f)) files f) as [e He];
    [exact Hf|by rewrite Hopen|].
  rewrite He. f_equal. by apply open_all_raise in He.
Qed.

(** X18. In the pair returned by [load_and_merge_mirs], the imagery
    dataset is the concatenation of the imagery files less the
    variables to remove, and the sounding dataset holds exactly the
    variables to keep, with the data of the concatenation of the
    sounding files; attributes are those of the concatenations. *)
Theorem merged_variables img_files snd_files mirs_dir keep remove ds_img ds_snd :
  Mirs.load_and_merge_mirs img_files snd_files mirs_dir keep remove = ok (ds_img, ds_snd) ->
  exists ds_img_list c_img ds_snd_list c_snd,
    Forall2 (fun f ds => open_dataset mirs_dir f = Some ds) img_files ds_img_list /\
    Forall2 (fun f ds => open_dataset mirs_dir f = Some ds) snd_files ds_snd_list /\
    xr_concat ds_img_list = Some c_img /\ xr_concat ds_snd_list = Some c_snd /\
    attrs ds_img = attrs c_img /\ attrs ds_snd = attrs c_snd /\
    (forall k, k ∈ remove -> data_vars ds_img !! k = None) /\
    (forall k, (k ∉ remove) -> data_vars ds_img !! k = data_vars c_img !! k) /\
    (forall k, k ∈ keep ->
       is_Some (data_vars ds_snd !! k) /\ data_vars ds_snd !! k = data_vars c_snd !! k) /\
    (forall k, (k ∉ keep) -> data_vars ds_snd !! k = None).
Proof.
  unfold Mirs.load_and_merge_mirs. intros E.
  destruct img_files as [|i img_files]; [discriminate|].
  destruct snd_files as [|s snd_files]; [discriminate|].
  apply bind_ok in E as (l1 & Hl1 & E). apply bind_ok in E as (c1 & Hc1 & E).
  apply bind_ok in E as (l2 & Hl2 & E). apply bind_ok in E as (c2 & Hc2 & E).
  apply bind_ok in E as (d & Hd & E). inversion E; subst ds_img ds_snd; clear E.
  apply of_option_ok in Hc1, Hc2.
  apply select_vars_ok in Hd as (Ha & Hkeep & Hrest).
  exists l1, c1, l2, c2.
  split. { apply mapM_ok in Hl1. eapply Forall2_impl; [exact Hl1|].
           intros f ds Hf. by apply of_option_ok in Hf. }
  split. { apply mapM_ok in Hl2. eapply Forall2_impl; [exact Hl2|].
           intros f ds Hf. by apply of_option_ok in Hf. }
  split; [done|]. split; [done|]. split; [done|]. split; [done|].
  split; [|split; [|split; [|done]]].
  - intros k Hk. cbn. apply map_lookup_filter_None. right. intros v _ Hn. by apply Hn.
  - intros k Hk. cbn. destruct (data_vars c1 !! k) as [v|] eqn:Hv.
    + apply map_lookup_filter_Some. done.
    + apply map_lookup_filter_None. by left.
  - intros k Hk. destruct (Hkeep k Hk) as [Hs He]. rewrite He. done.
Qed.

(** X19. A listed file that cannot be opened makes the merge fail, with
    nothing returned; when it is an imagery file and both lists are
    non-empty, the failure is the one of opening it. *)
Theorem unreadable_file_fails_merge img_files snd_files mirs_dir keep remove f :
  f ∈ img_files ++ snd_files -> open_dataset mirs_dir f = None ->
  (exists e, Mirs.load_and_merge_mirs img_files snd_files mirs_dir keep remove = raise e) /\
  (f ∈ img_files -> snd_files <> [] ->
   Mirs.load_and_merge_mirs img_files snd_files mirs_dir keep remove
     = raise (LibError "open_dataset")).
Proof.
  intros Hf Hopen. split.
  - destruct (result_cases
      (Mirs.load_and_merge_mirs img_files snd_files mirs_dir keep remove))
      as [[[d1 d2] E]|]; [exfalso|done].
    unfold Mirs.load_and_merge_mirs in E.
    destruct img_files as [|i img_files]; [discriminate|].
    destruct snd_files as [|s snd_files]; [discriminate|].
    apply bind_ok in E as (l1 & Hl1 & E). apply bind_ok in E as (c1 & Hc1 & E).
    apply bind_ok in E as (l2 & Hl2 & E).
    apply elem_of_app in Hf as [Hf|Hf].
    + rewrite (open_all_unreadable _ _ _ Hf Hopen) in Hl1. discriminate.
    + rewrite (open_all_unreadable _ _ _ Hf Hopen) in Hl2. discriminate.
  - intros Hi Hs. unfold Mirs.load_and_merge_mirs.
    destruct img_files as [|i img_files]; [by apply elem_of_nil in Hi|].
    destruct snd_files as [|s snd_files]; [done|].
    by rewrite (open_all_unreadable _ _ _ Hi Hopen).
Qed.

(** X20. When the concatenated sounding data lack a variable to keep,
    the merge raises a [KeyError] naming a variable to keep, although
    every file was read. *)
Theorem missing_sounding_variable_raises img_files snd_files mirs_dir keep remove
    ds_img_list c_img ds_snd_list c_snd k :
  img_files <> [] -> snd_files <> [] ->
  Mirs.open_all mirs_dir img_files = ok ds_img_list ->
  xr_concat ds_img_list = Some c_img ->
  Mirs.open_all mirs_dir snd_files = ok ds_snd_list ->
  xr_concat ds_snd_list = Some c_snd ->
  k ∈ keep -> data_vars c_snd !! k = None ->
  exists k', k' ∈ keep /\
    Mirs.load_and_merge_mirs img_files snd_files mirs_dir keep remove = raise (KeyError k').
Proof.
  intros Hi Hs Hl1 Hc1 Hl2 Hc2 Hk Hmiss.
  assert (Hsel : exists k', k' ∈ keep /\ Mirs.select_vars c_snd keep = raise (KeyError k')).
  { unfold Mirs.select_vars.
    edestruct (mapM_fails
      (fun k => v ← of_option (KeyError k) (data_vars c_snd !! k); ok (k, v)) keep k)
      as [e He]; [exact Hk|by rewrite Hmiss|].
    rewrite He. cbn.
    apply mapM_raise in He as (k' & Hk' & He).
    apply bind_raise in He as [He|(v & _ & He)]; [|discriminate].
    apply of_option_raise in He. subst e. eauto. }
  destruct Hsel as (k' & Hk' & Hsel). exists k'. split; [done|].
  unfold Mirs.load_and_merge_mirs.
  destruct img_files as [|i img_files]; [done|].
  destruct snd_files as [|s snd_files]; [done|].
  rewrite (bind_ok_l _ _ _ Hl1).
  rewrite (bind_ok_l (of_option (LibError "concat") (xr_concat ds_img_list)) _ c_img)
    by (by rewrite Hc1).
  rewrite (bind_ok_l _ _ _ Hl2).
  rewrite (bind_ok_l (of_option (LibError "concat") (xr_concat ds_snd_list)) _ c_snd)
    by (by rewrite Hc2).
  by apply bind_raise_l.
Qed.
End MergeMore.
End MergeMore.

Lemma round2_mono (x y : Q) : (x <= y)%Q -> (Py.round2 x <= Py.round2 y)%Q.
Proof.
  intros Hxy. unfold Py.round2, Qle. cbn.
  apply Z.mul_le_mono_nonneg_r; [lia|].
  apply round_half_even_mono. lra.
Qed.

Module OutputMore.
Section OutputMore.
Context `{Xarray}.
Import ExtentSpec OutputFacts.

(** X21. [build_output_dataset] returns a dataset exactly when the
    merge succeeds and one storm, with a first record, is selected by
    name and season: an unknown storm, or two storms of that name and
    season, make it fail. *)
Theorem build_output_dataset_succeeds ds_img ds_snd ds_ibt storm_name storm_year :
  (exists out,
     Output.build_output_dataset ds_img ds_snd ds_ibt storm_name storm_year = ok out) <->
  is_Some (xr_merge ds_img ds_snd (Output.select_storm ds_ibt storm_name storm_year)) /\
  exists s t0,
    Output.select_storm ds_ibt storm_name storm_year = [s] /\
    iso_time s !! 0%nat = Some t0.
Proof.
  unfold Output.build_output_dataset.
  set (sel := Output.select_storm ds_ibt storm_name storm_year).
  split.
  - intros [out E].
    apply bind_ok in E as (merged & Hm & E). apply of_option_ok in Hm.
    apply bind_ok in E as (t0 & Ht0 & _).
    split; [rewrite Hm; by eexists|].
    apply first_time_ok in Ht0 as (s & Hs & Hs0). eauto.
  - intros [[merged Hm] (s & t0 & Hs & Ht0)].
    assert (Hft : Output.first_time sel = ok t0) by (apply first_time_ok; eauto).
    rewrite Hm. cbn -[Output.first_time]. rewrite Hft. cbn. eauto.
Qed.

(** X22. The output keeps the variables of the merged dataset and all
    of its attributes but the six summary attributes it sets. *)
Theorem build_output_dataset_preserves ds_img ds_snd ds_ibt storm_name storm_year out :
  Output.build_output_dataset ds_img ds_snd ds_ibt storm_name storm_year = ok out ->
  exists ds_merged,
    xr_merge ds_img ds_snd (Output.select_storm ds_ibt storm_name storm_year)
      = Some ds_merged /\
    data_vars out = data_vars ds_merged /\
    forall k, (k ∉ summary_attrs) -> attrs out !! k = attrs ds_merged !! k.
Proof.
  unfold Output.build_output_dataset. intros E.
  apply bind_ok in E as (merged & Hm & E). apply of_option_ok in Hm.
  apply bind_ok in E as (t0 & Ht0 & E). inversion E; subst out; clear E.
  exists merged. split; [done|]. split; [done|].
  intros k Hk. cbn. unfold summary_attrs in Hk.
  rewrite !lookup_insert_ne; [done|..]; intros <-; apply Hk;
    repeat first [by left | right].
Qed.

Lemma nan_extremes l :
  match Output.nanmin l, Output.nanmax l with
  | Some a, Some b => (a <= b)%Q
  | None, None => True
  | _, _ => False
  end.
Proof.
  pose proof (nanmin_spec l) as Hmin. pose proof (nanmax_spec l) as Hmax.
  destruct (Output.nanmin l) as [a|], (Output.nanmax l) as [b|].
  - destruct Hmin as [Ha _], Hmax as [_ Hb]. by apply Hb.
  - destruct Hmin as [Ha _]. by apply Hmax in Ha.
  - destruct Hmax as [Hb _]. by apply Hmin in Hb.
  - done.
Qed.

(** X23. The bounding box is consistent: each minimum attribute is at
    most the matching maximum attribute, and the two are NaN together
    (when the storm has no position at all). *)
Theorem bounding_box_consistent ds_img ds_snd ds_ibt storm_name storm_year out :
  Output.build_output_dataset ds_img ds_snd ds_ibt storm_name storm_year = ok out ->
  (exists a b,
     attrs out !! "TC_minimum_lat" = Some (AFloat a) /\
     attrs out !! "TC_maximum_lat" = Some (AFloat b) /\
     match a, b with
     | Some x, Some y => (x <= y)%Q
     | None, None => True
     | _, _ => False
     end) /\
  (exists a b,
     attrs out !! "TC_minimum_lon" = Some (AFloat a) /\
     attrs out !! "TC_maximum_lon" = Some (AFloat b) /\
     match a, b with
     | Some x, Some y => (x <= y)%Q
     | None, None => True
     | _, _ => False
     end).
Proof.
  intros E.
  destruct (build_output_dataset_attrs _ _ _ _ _ _ E)
    as (t0 & _ & _ & _ & H1 & H2 & H3 & H4).
  split.
  - set (l := concat (lat <$> (Output.select_storm ds_ibt storm_name storm_year))) in *.
    pose proof (nan_extremes l) as Hx.
    exists (Py.round2 <$> Output.nanmin l), (Py.round2 <$> Output.nanmax l).
    split; [exact H1|]. split; [exact H3|].
    destruct (Output.nanmin l), (Output.nanmax l); cbn; try done. by apply round2_mono.
  - set (l := concat (lon <$> (Output.select_storm ds_ibt storm_name storm_year))) in *.
    pose proof (nan_extremes l) as Hx.
    exists (Py.round2 <$> Output.nanmin l), (Py.round2 <$> Output.nanmax l).
    split; [exact H2|]. split; [exact H4|].
    destruct (Output.nanmin l), (Output.nanmax l); cbn; try done. by apply round2_mono.
Qed.
End OutputMore.
End OutputMore.

Lemma upper_ascii_idempotent (c : ascii) :
  Py.upper_ascii (Py.upper_ascii c) = Py.upper_ascii c.
Proof. destruct c as [[] [] [] [] [] [] [] []]; reflexivity. Qed.

Lemma upper_idempotent (s : string) : Py.upper (Py.upper s) = Py.upper s.
Proof.
  induction s as [|c s IH]; [done|]. cbn. by rewrite upper_ascii_idempotent, IH.
Qed.

Module CliMore.
Section CliMore.
Context {pandas : Pandas} {python : Python} `{Shapely} `{Xarray} {argparse : Cli.Argparse}.
Import CliFacts OutputFacts.

Lemma read_toggle tok b p :
  tok = "--filter-missing-wmo" /\ b = true \/
  tok = "--no-filter-missing-wmo" /\ b = false ->
  Cli.read_option tok p = Cli.Parsed (Cli.set_filter b p, Cli.Ready) /\
  Py.startswith tok "-" = true /\ bool_decide (tok ∈ Cli.option_strings) = true.
Proof. intros [[-> ->]|[-> ->]]; repeat split; reflexivity. Qed.

Lemma parse_tokens_last_toggle tok b argv :
  tok = "--filter-missing-wmo" /\ b = true \/
  tok = "--no-filter-missing-wmo" /\ b = false ->
  forall p st p',
  Cli.parse_tokens (argv ++ [tok]) p st = Cli.Parsed p' -> Cli.p_filter_missing_wmo p' = b.
Proof.
  intros Htok. induction argv as [|t argv IH]; intros p st p' E.
  - cbn [app] in E. destruct st as [|opt|l]; cbn [Cli.parse_tokens] in E.
    + destruct (read_toggle tok b p Htok) as (Hr & _ & _). rewrite Hr in E.
      inversion E; subst p'. reflexivity.
    + destruct (read_toggle tok b p Htok) as (_ & Hs & _). rewrite Hs in E. discriminate.
    + destruct (read_toggle tok b (Cli.set_indices l p) Htok) as (Hr & _ & Hi).
      rewrite Hi in E. destruct l as [|i l]; [discriminate|].
      rewrite Hr in E. inversion E; subst p'. reflexivity.
  - cbn [app] in E. destruct st as [|opt|l]; cbn [Cli.parse_tokens] in E.
    + destruct (Cli.read_option t p) as [[p1 st1]| |]; try discriminate. eauto.
    + destruct (Py.startswith t "-"); [discriminate|].
      destruct (Cli.set_value opt t p) as [p1| |]; try discriminate. eauto.
    + destruct (bool_decide (t ∈ Cli.option_strings)).
      * destruct l as [|i l]; [discriminate|].
        destruct (Cli.read_option t (Cli.set_indices (i :: l) p)) as [[p1 st1]| |];
          try discriminate. eauto.
      * destruct (Py.int t) as [i|]; [eauto|discriminate].
Qed.

(** X24. The toggle written last wins: on a command line of option
    strings written in full, each value a token of its own, one ending
    in [--no-filter-missing-wmo] parses with the filter off and one
    ending in [--filter-missing-wmo] with the filter on, whatever came
    before. *)
Theorem last_toggle_wins argv args :
  (CliSpec.plain (argv ++ ["--no-filter-missing-wmo"]) ->
   Cli.parse_args (argv ++ ["--no-filter-missing-wmo"]) = ok args ->
   Cli.arg_filter_missing_wmo args = false) /\
  (CliSpec.plain (argv ++ ["--filter-missing-wmo"]) ->
   Cli.parse_args (argv ++ ["--filter-missing-wmo"]) = ok args ->
   Cli.arg_filter_missing_wmo args = true).
Proof.
  split; intros Hplain E;
    destruct (parse_args_plain _ _ Hplain E) as (p & Hp & _ & _ & Hf & _); rewrite <- Hf.
  - apply (parse_tokens_last_toggle _ false) in Hp; [done|by right].
  - apply (parse_tokens_last_toggle _ true) in Hp; [done|by left].
Qed.

(** The steps of a run that succeeds. *)
Lemma main_ok w argv path ds :
  Cli.main w argv = ok (path, ds) ->
  exists args csv track mirs_dir img_files snd_files ds_img ds_snd ds_ibt,
    Cli.parse_args argv = ok args /\
    Cli.read_csv w (Cli.arg_ibt_csv args) = Some csv /\
    Ibtracs.get_storm_track (Py.upper (Cli.arg_name args)) (Cli.arg_year args) csv
      (Cli.arg_filter_missing_wmo args && negb (Cli.arg_year args =? 2021)) None
      = ok track /\
    Cli.directory w (Cli.arg_mirs_dir args) = Some mirs_dir /\
    Mirs.find_mirs_files track mirs_dir Config.TIME_WINDOW_HOURS true
      (Cli.arg_test_indices args) = ok (img_files, snd_files) /\
    Mirs.load_and_merge_mirs img_files snd_files mirs_dir
      Config.SND_VARS_TO_KEEP Config.IMG_VARS_TO_REMOVE = ok (ds_img, ds_snd) /\
    Cli.open_ibt w (Cli.arg_ibt_nc args) = Some ds_ibt /\
    Output.build_output_dataset ds_img ds_snd ds_ibt
      (Py.upper (Cli.arg_name args)) (Cli.arg_year args) = ok ds /\
    path = match Cli.arg_output args with
           | Some o =>
               if String.eqb o ""
               then Cli.default_output (Py.upper (Cli.arg_name args)) (Cli.arg_year args)
               else o
           | None => Cli.default_output (Py.upper (Cli.arg_name args)) (Cli.arg_year args)
           end.
Proof.
  unfold Cli.main. intros E.
  apply bind_ok in E as (args & Hargs & E). cbv zeta in E.
  apply bind_ok in E as (track & Htrack & E).
  unfold Cli.load_track in Htrack.
  apply bind_ok in Htrack as (csv & Hcsv & Htrack). apply of_option_ok in Hcsv.
  unfold Cli.after_track in E.
  apply bind_ok in E as (mirs_dir & Hdir & E). apply of_option_ok in Hdir.
  apply bind_ok in E as ([img snd] & Hfind & E).
  apply bind_ok in E as ([ds_img ds_snd] & Hload & E).
  apply bind_ok in E as (ds_ibt & Hibt & E). apply of_option_ok in Hibt.
  apply bind_ok in E as (ds_out & Hout & E). inversion E; subst path ds_out.
  exists args, csv, track, mirs_dir, img, snd, ds_img, ds_snd, ds_ibt.
  repeat (split; [done|]). done.
Qed.

(** X25. A run that succeeds writes under the name given with
    [--output], or under [<NAME>_<YEAR>_all_data.nc] when none (or an
    empty one) is given; the storm name it records is the name typed,
    put in upper case. *)
Theorem main_output_name w argv path ds :
  Cli.main w argv = ok (path, ds) ->
  exists args n,
    Cli.parse_args argv = ok args /\
    attrs ds !! "TC_name" = Some (AStr n) /\
    n = Py.upper (Cli.arg_name args) /\ Py.upper n = n /\
    (Cli.arg_output args = None \/ Cli.arg_output args = Some "" ->
     path = n +:+ "_" +:+ Time.str (Cli.arg_year args) +:+ "_all_data.nc") /\
    (forall o, Cli.arg_output args = Some o -> o <> "" -> path = o).
Proof.
  intros E.
  apply main_ok in E as (args & csv & track & mirs_dir & img & snd & ds_img & ds_snd &
                         ds_ibt & Hargs & _ & _ & _ & _ & _ & _ & Hout & ->).
  destruct (build_output_dataset_attrs _ _ _ _ _ _ Hout) as (t0 & _ & Hname & _).
  exists args, (Py.upper (Cli.arg_name args)).
  split; [done|]. split; [done|]. split; [done|]. split; [apply upper_idempotent|].
  split.
  - intros [-> | ->]; reflexivity.
  - intros o -> Ho. apply String.eqb_neq in Ho. by rewrite Ho.
Qed.

(** X26. A run that succeeds has loaded at least one track row and
    matched at least one imagery and one sounding granule, and the
    IBTrACS file holds exactly one storm of that name and year. *)
Theorem main_success_needs_matches w argv path ds :
  Cli.main w argv = ok (path, ds) ->
  exists args csv track mirs_dir img_files snd_files ds_ibt s,
    Cli.parse_args argv = ok args /\
    Cli.read_csv w (Cli.arg_ibt_csv args) = Some csv /\
    Ibtracs.get_storm_track (Py.upper (Cli.arg_name args)) (Cli.arg_year args) csv
      (Cli.arg_filter_missing_wmo args && negb (Cli.arg_year args =? 2021)) None
      = ok track /\
    track <> [] /\
    Cli.directory w (Cli.arg_mirs_dir args) = Some mirs_dir /\
    Mirs.find_mirs_files track mirs_dir Config.TIME_WINDOW_HOURS true
      (Cli.arg_test_indices args) = ok (img_files, snd_files) /\
    img_files <> [] /\ snd_files <> [] /\
    Cli.open_ibt w (Cli.arg_ibt_nc args) = Some ds_ibt /\
    Output.select_storm ds_ibt (Py.upper (Cli.arg_name args)) (Cli.arg_year args) = [s].
Proof.
  intros E.
  apply main_ok in E as (args & csv & track & mirs_dir & img & snd & ds_img & ds_snd &
                         ds_ibt & Hargs & Hcsv & Htrack & Hdir & Hfind & Hload & Hibt &
                         Hout & _).
  assert (Himg : img <> []).
  { intros ->. discriminate Hload. }
  assert (Hsnd : snd <> []).
  { intros ->. destruct img; discriminate Hload. }
  assert (Htr : track <> []).
  { intros ->.
    destruct (find_mirs_files_empty_track mirs_dir Config.TIME_WINDOW_HOURS true
                (Cli.arg_test_indices args)) as [E|E]; rewrite E in Hfind.
    - inversion Hfind. congruence.
    - discriminate. }
  destruct (build_output_dataset_attrs _ _ _ _ _ _ Hout) as (t0 & Ht0 & _).
  apply first_time_ok in Ht0 as (s & Hs & _).
  exists args, csv, track, mirs_dir, img, snd, ds_ibt, s.
  repeat (split; [done|]). done.
Qed.
End CliMore.
End CliMore.

(** ** The properties on the sample world *)

Module Witnesses.
Import Sample.
#[local] Existing Instance iso_only.
#[local] Existing Instance decimals_only.
#[local] Existing Instance full_options.
#[local] Existing Instance boxes.
#[local] Existing Instance lists.

(** The float [-90.2]. *)
Lemma lon_to_360_normalizes_witness :
  TurnSpec.in_turn
    (Ibtracs._lon_to_360 (Py.Ffin (-6347260724825293 # 70368744177664))) /\
  TurnSpec.near_congruent_360 (2 ^ (-43))
    (Ibtracs._lon_to_360 (Py.Ffin (-6347260724825293 # 70368744177664)))
    (Py.Ffin (-6347260724825293 # 70368744177664)).
Proof.
  apply (proj1 (lon_to_360_normalizes (Py.Ffin (-6347260724825293 # 70368744177664)))
           (-6347260724825293 # 70368744177664)).
  reflexivity.
Defined.

(** C7 as it is written fails on the float [-90.2]: the code returns
    [269.79999999999995], which is no whole number of turns away from
    it. *)
Lemma lon_to_360_exact_counterexample : ~ TurnSpec.normalizes_exactly.
Proof.
  intros Hexact.
  destruct (Hexact (-6347260724825293 # 70368744177664)) as [_ (p & q & k & Ep & Eq & Hk)].
  assert (E : Ibtracs._lon_to_360 (Py.Ffin (-6347260724825293 # 70368744177664))
              = Py.Ffin (1186592948695859 # 4398046511104)) by (vm_compute; reflexivity).
  rewrite E in Ep. inversion Ep; subst p. inversion Eq; subst q.
  unfold Qeq, Qplus, Qmult, inject_Z in Hk. cbn in Hk. lia.
Qed.

Lemma img_c_coverage :
  GranuleSpec.coverage img_c 1598486400000000000 (t1 + 12 * Time.hour + Time.second).
Proof. split; vm_compute; reflexivity. Defined.

Lemma img_a_coverage :
  GranuleSpec.coverage img_a 1598436000000000000 1598437800000000000.
Proof. split; vm_compute; reflexivity. Defined.

Lemma granule_time_containment_witness :
  Mirs._granule_overlaps_track_point img_c "26.004" "-90.25"
    (t1 - 12 * Time.hour) (t1 + 12 * Time.hour) true = ok false /\
  (t1 - 12 * Time.hour <= 1598436000000000000 /\
   1598437800000000000 <= t1 + 12 * Time.hour).
Proof.
  destruct MirsFacts.granule_time_containment as [Hpoint _]. split.
  - destruct (Hpoint img_c "26.004" "-90.25" t1 12 true _ _ img_c_coverage)
      as (_ & _ & Hsecond).
    apply Hsecond. reflexivity.
  - destruct (Hpoint img_a "26.004" "-90.25" t1 12 true _ _ img_a_coverage)
      as (Honly & _).
    apply Honly. vm_compute. reflexivity.
Defined.

Lemma sample_found :
  Mirs.find_mirs_files track dir 12 false None
    = ok (["NPR-MIRS-IMG_a.nc"; "NPR-MIRS-IMG_d.nc"], ["NPR-MIRS-SND_a.nc"]).
Proof. vm_compute. reflexivity. Defined.

Lemma dateline_filter_witness :
  Mirs._granule_overlaps_track_point img_d "25.10" "-89.60"
    (1598443200000000000 - 12 * Time.hour) (1598443200000000000 + 12 * Time.hour) true
    <> ok true /\
  "NPR-MIRS-IMG_d.nc" ∈ ["NPR-MIRS-IMG_a.nc"; "NPR-MIRS-IMG_d.nc"].
Proof.
  destruct MirsFacts.dateline_filter as (Hexcl & _ & _ & Hincl). split.
  - apply (Hexcl img_d 5%Q).
    + vm_compute. reflexivity.
    + discriminate.
  - refine (proj1 (Hincl track dir 12 None _ _ "NPR-MIRS-IMG_d.nc" img_d 0
                     {| Ibtracs.t_NAME := "TEST";
                        Ibtracs.t_ISO_TIME := 1598443200000000000;
                        Ibtracs.t_WMO_WIND := "35";
                        Ibtracs.t_WMO_PRES := "998";
                        Ibtracs.t_LAT := "25.10";
                        Ibtracs.t_LON := Py.Ffin (2378463553205043 # 8796093022208);
                        Ibtracs.t_LON_180 := "-89.60";
                        Ibtracs.t_other := [("USA_R34_NE", " ")] |}
                     1598436000000000000 1598437800000000000
                     sample_found _ _ _ _ _ _ _ _ _) _).
    + vm_compute. by left.
    + vm_compute. reflexivity.
    + vm_compute. do 4 right. by left.
    + vm_compute. reflexivity.
    + vm_compute. reflexivity.
    + split; vm_compute; reflexivity.
    + vm_compute. discriminate.
    + vm_compute. discriminate.
    + vm_compute. reflexivity.
    + vm_compute. reflexivity.
Defined.

Lemma find_mirs_files_sorted_unique_witness :
  NoDup ["NPR-MIRS-IMG_a.nc"; "NPR-MIRS-IMG_d.nc"] /\
  StronglySorted (strict String.le) ["NPR-MIRS-IMG_a.nc"; "NPR-MIRS-IMG_d.nc"].
Proof.
  destruct (MirsFacts.find_mirs_files_sorted_unique _ _ _ _ _ _ _ sample_found)
    as (Hnd & _ & _ & _ & Hst & _).
  split; assumption.
Defined.

Lemma load_and_merge_empty_lists_witness :
  (exists msg,
     Mirs.load_and_merge_mirs [] ["NPR-MIRS-SND_a.nc"] dir
       Config.SND_VARS_TO_KEEP Config.IMG_VARS_TO_REMOVE = raise (ValueError msg)) /\
  Mirs.load_and_merge_mirs ["NPR-MIRS-IMG_a.nc"] ["NPR-MIRS-SND_a.nc"] dir
    Config.SND_VARS_TO_KEEP Config.IMG_VARS_TO_REMOVE
    <> raise (ValueError "No MIRS IMG files provided.").
Proof.
  split.
  - apply (MergeFacts.load_and_merge_empty_lists [] ["NPR-MIRS-SND_a.nc"] dir
             Config.SND_VARS_TO_KEEP Config.IMG_VARS_TO_REMOVE).
    left. reflexivity.
  - apply (MergeFacts.load_and_merge_empty_lists
             ["NPR-MIRS-IMG_a.nc"] ["NPR-MIRS-SND_a.nc"] dir
             Config.SND_VARS_TO_KEEP Config.IMG_VARS_TO_REMOVE); discriminate.
Defined.

Lemma sample_output_built :
  Output.build_output_dataset img_a snd_a ibt "TEST" 2020 = ok sample_output.
Proof. vm_compute. reflexivity. Defined.


Lemma sample_track_filtered :
  Ibtracs.get_storm_track "TEST" 2020 table true None = ok track_filtered.
Proof. vm_compute. reflexivity. Defined.

Lemma sample_track :
  Ibtracs.get_storm_track "TEST" 2020 table false None = ok track.
Proof. vm_compute. reflexivity. Defined.

Lemma sample_track_2021 :
  Ibtracs.get_storm_track "IDA" 2021 table_2021 false None = ok track_2021.
Proof. vm_compute. reflexivity. Defined.

Lemma sample_times_2021 (times : list (option Z)) :
  TrackSpec.read_times "IDA" table_2021 times ->
  times = [Some 1640995199000000000; Some 1640995200000000000].
Proof.
  unfold TrackSpec.read_times. intros E.
  assert (E' : to_datetime_series (Ibtracs.ISO_TIME <$> TrackSpec.named "IDA" table_2021)
               = Some (mkSeries false [Some 1640995199000000000; Some 1640995200000000000]))
    by (vm_compute; reflexivity).
  rewrite E' in E. inversion E. reflexivity.
Defined.

Lemma track_rows_exact_witness :
  (exists times,
     TrackSpec.read_times "TEST" table times /\
     Forall2 TrackSpec.produced_from
       (filter (TrackSpec.kept (TrackSpec.year_start 2020) (TrackSpec.year_start (2020 + 1))
                  true) (TrackSpec.stamped "TEST" table times))
       track_filtered) /\
  exists tr, tr ∈ track_2021 /\
    TrackSpec.produced_from
      (row "IDA" "2021-12-31T23:59:59" " " " " "29.1" "-90.2",
       Some (Time.civil_ns 2021 12 31 23 59 59)) tr.
Proof.
  split.
  - destruct (TrackFacts.track_rows_exact "TEST" 2020 table true None track_filtered)
      as (times & Hread & _ & HF & _).
    + lia.
    + exact sample_track_filtered.
    + exists times. split; [exact Hread|exact HF].
  - destruct (TrackFacts.track_rows_exact "IDA" 2021 table_2021 false None track_2021)
      as (times & Hread & _ & _ & Hlast & _).
    + lia.
    + exact sample_track_2021.
    + apply Hlast; [reflexivity| |discriminate].
      rewrite (sample_times_2021 times Hread). vm_compute. by left.
Defined.

Lemma missing_field_filter_witness :
  Forall (fun tr => Ibtracs.t_WMO_WIND tr <> " " /\ Ibtracs.t_WMO_PRES tr <> " ")
    track_filtered /\
  Ibtracs.get_storm_track "TEST" 2020 table true None
    = ok (filter (fun tr => negb (TrackSpec.track_blank tr)) track).
Proof.
  destruct (TrackFacts.missing_field_filter "TEST" 2020 table None) as [Hon Hoff].
  split.
  - apply (Hon track_filtered sample_track_filtered).
  - apply (Hoff track sample_track).
Defined.

(** No line is named NOPE; the lines of TEST are all read, and none
    lies in 2018. *)
Lemma no_matching_rows_witness :
  Ibtracs.get_storm_track "NOPE" 2020 table true None = ok [] /\
  Ibtracs.get_storm_track "TEST" 2018 table true None = ok [].
Proof.
  split.
  - apply (CliFacts.no_matching_rows "NOPE" 2020 table true None).
    + lia.
    + intros v Hv. right. exact Hv.
    + left. reflexivity.
  - apply (CliFacts.no_matching_rows "TEST" 2018 table true None).
    + lia.
    + intros v Hv. right. exact Hv.
    + right.
      exists [Some 1577815200000000000; Some 1598443200000000000;
              Some 1598464800000000000; Some 1609459199000000000;
              Some 1609459200000000000].
      split; [vm_compute; reflexivity|].
      intros rt Hrt. vm_compute in Hrt.
      repeat (apply elem_of_cons in Hrt as [->|Hrt]; [vm_compute; reflexivity|]).
      by apply elem_of_nil in Hrt.
Defined.


(** C4 as it is written fails on a line of 2021 whose WMO cells are
    blank: the line is named IDA and stamped 2021-12-31T23:59:59, yet
    the call with the filter on returns no row. *)
Lemma track_rows_blank_counterexample :
  ~ TrackSpec.exact_name_year "IDA" 2021 table_2021 true None.
Proof.
  intros Hexact.
  assert (E : Ibtracs.get_storm_track "IDA" 2021 table_2021 true None = ok [])
    by (vm_compute; reflexivity).
  destruct (Hexact [] E) as (times & Hread & HF).
  rewrite (sample_times_2021 times Hread) in HF.
  assert (Hsel : filter (TrackSpec.selected (TrackSpec.year_start 2021)
                           (TrackSpec.year_start (2021 + 1)))
                   (TrackSpec.stamped "IDA" table_2021
                      [Some 1640995199000000000; Some 1640995200000000000])
                 = [(row "IDA" "2021-12-31T23:59:59" " " " " "29.1" "-90.2",
                     Some 1640995199000000000)])
    by (vm_compute; reflexivity).
  rewrite Hsel in HF. inversion HF.
Qed.
End Witnesses.

(** ** The further properties on the sample world *)

Module MoreWitnesses.
Import Sample Sample2.
#[local] Existing Instance iso_only.
#[local] Existing Instance decimals_only.
#[local] Existing Instance full_options.
#[local] Existing Instance boxes.
#[local] Existing Instance lists.

Ltac in_list := apply (bool_decide_unpack _); vm_compute; exact I.

(** The longitude [-90.5] is converted to [269.5]. *)
Lemma lon_to_360_exact_on_grid_witness :
  Py.on_grid (-181 # 2) (-43) /\
  exists r, Ibtracs._lon_to_360 (Py.Ffin (-181 # 2)) = Py.Ffin r /\
            (r == TurnSpec.turn_of (-181 # 2))%Q.
Proof.
  assert (Hg : Py.on_grid (-181 # 2) (-43)).
  { exists (-181 * 2 ^ 42)%Z. vm_compute. reflexivity. }
  split; [exact Hg|]. exact (LonMore.lon_to_360_exact_on_grid (-181 # 2) Hg).
Defined.

Lemma point0_in_track : point0 ∈ track.
Proof. vm_compute. by left. Defined.

Lemma track_keeps_both_longitudes_witness :
  exists r x,
    r ∈ TrackSpec.body table /\ Ibtracs.NAME r = "TEST" /\
    Ibtracs.t_LON_180 point0 = Ibtracs.LON r /\
    Lib.float (Ibtracs.t_LON_180 point0) = Some x /\
    Ibtracs.t_LON point0 = Ibtracs._lon_to_360 x /\
    (forall q, x = Py.Ffin q ->
       TurnSpec.in_turn (Ibtracs.t_LON point0) /\
       TurnSpec.near_congruent_360 (2 ^ (-43)) (Ibtracs.t_LON point0) x) /\
    ((forall q, x <> Py.Ffin q) -> Ibtracs.t_LON point0 = Py.Fnan).
Proof.
  exact (TrackMore.track_keeps_both_longitudes "TEST" 2020 table false None track point0
           Witnesses.sample_track point0_in_track).
Defined.

Lemma sample_times :
  TrackSpec.read_times "TEST" table
    [Some 1577815200000000000; Some 1598443200000000000; Some 1598464800000000000;
     Some 1609459199000000000; Some 1609459200000000000].
Proof. vm_compute. reflexivity. Defined.

Lemma missing_column_raises_witness :
  exists k,
    k ∈ Ibtracs.vars_to_extract (Some ["STORM_SPEED"]) /\ (k ∉ Ibtracs.columns table) /\
    Ibtracs.get_storm_track "TEST" 2020 table false (Some ["STORM_SPEED"])
      = raise (KeyError k).
Proof.
  apply (TrackMore.missing_column_raises "TEST" 2020 table false (Some ["STORM_SPEED"])
           "STORM_SPEED"
           [Some 1577815200000000000; Some 1598443200000000000; Some 1598464800000000000;
            Some 1609459199000000000; Some 1609459200000000000]).
  - lia.
  - in_list.
  - in_list.
  - exact sample_times.
  - in_list.
  - in_list.
Defined.

Lemma track_carries_extracted_columns_witness :
  exists r t, r ∈ TrackSpec.body table /\ TrackSpec.produced_from (r, Some t) point0 /\
    forall k v, (k, v) ∈ Ibtracs.t_other point0 <->
      (k, v) ∈ Ibtracs.other r /\
      (k ∈ Config.IBTRACS_EXTRACT_VARS \/
       exists vs : list string, None = Some vs /\ k ∈ vs).
Proof.
  exact (TrackMore.track_carries_extracted_columns "TEST" 2020 table false None track point0
           Witnesses.sample_track point0_in_track).
Defined.

Lemma other_storms_irrelevant_witness :
  Ibtracs.get_storm_track "TEST" 2020 table true None
    = Ibtracs.get_storm_track "TEST" 2020 table_test_only true None.
Proof.
  apply (TrackMore.other_storms_irrelevant "TEST" 2020 table table_test_only true None).
  - reflexivity.
  - vm_compute. reflexivity.
Defined.

Lemma sample_found_24 :
  Mirs.find_mirs_files track dir 24 false None = ok (found_24.1, found_24.2).
Proof. vm_compute. reflexivity. Defined.

Lemma sample_found_east :
  Mirs.find_mirs_files track dir 12 true None = ok (found_east.1, found_east.2).
Proof. vm_compute. reflexivity. Defined.

Lemma sample_found_second :
  Mirs.find_mirs_files track dir 12 false (Some [1]) = ok (found_second.1, found_second.2).
Proof. vm_compute. reflexivity. Defined.

Lemma wider_window_keeps_matches_witness :
  ["NPR-MIRS-IMG_a.nc"; "NPR-MIRS-IMG_d.nc"] ⊆ found_24.1 /\
  ["NPR-MIRS-SND_a.nc"] ⊆ found_24.2.
Proof.
  apply (proj2 MirsMore.wider_window_keeps_matches track dir 12 24 false None
           _ _ _ _ ltac:(lia) Witnesses.sample_found sample_found_24).
Defined.

Lemma dateline_off_keeps_matches_witness :
  found_east.1 ⊆ ["NPR-MIRS-IMG_a.nc"; "NPR-MIRS-IMG_d.nc"] /\
  found_east.2 ⊆ ["NPR-MIRS-SND_a.nc"].
Proof.
  apply (proj2 MirsMore.dateline_off_keeps_matches track dir 12 None
           _ _ _ _ sample_found_east Witnesses.sample_found).
Defined.

Lemma sample_found_reversed :
  Mirs.find_mirs_files track dir_reversed 12 false (Some [2; 0; 1; 0])
    = ok (["NPR-MIRS-IMG_a.nc"; "NPR-MIRS-IMG_d.nc"], ["NPR-MIRS-SND_a.nc"]).
Proof. vm_compute. reflexivity. Defined.

Lemma find_mirs_files_order_independent_witness :
  Mirs.find_mirs_files track dir 12 false None
    = ok (["NPR-MIRS-IMG_a.nc"; "NPR-MIRS-IMG_d.nc"], ["NPR-MIRS-SND_a.nc"]) /\
  Mirs.find_mirs_files track dir_reversed 12 false (Some [2; 0; 1; 0])
    = ok (["NPR-MIRS-IMG_a.nc"; "NPR-MIRS-IMG_d.nc"], ["NPR-MIRS-SND_a.nc"]) /\
  (["NPR-MIRS-IMG_a.nc"; "NPR-MIRS-IMG_d.nc"], ["NPR-MIRS-SND_a.nc"])
    = (["NPR-MIRS-IMG_a.nc"; "NPR-MIRS-IMG_d.nc"], ["NPR-MIRS-SND_a.nc"]).
Proof.
  split; [exact Witnesses.sample_found|]. split; [exact sample_found_reversed|].
  apply (MirsMore.find_mirs_files_order_independent track dir dir_reversed 12 false
           None (Some [2; 0; 1; 0]) _ _).
  - intros f. unfold dir_reversed. cbn [listdir]. by rewrite elem_of_reverse.
  - reflexivity.
  - intros ipt.
    assert (E : Mirs.track_points track None = [0; 1; 2]) by (vm_compute; reflexivity).
    rewrite E. cbn [Mirs.track_points]. rewrite !elem_of_cons, !elem_of_nil. tauto.
  - exact Witnesses.sample_found.
  - exact sample_found_reversed.
Defined.

Lemma track_indices_restrict_witness :
  found_second.1 ⊆ ["NPR-MIRS-IMG_a.nc"; "NPR-MIRS-IMG_d.nc"] /\
  found_second.2 ⊆ ["NPR-MIRS-SND_a.nc"].
Proof.
  apply (MirsMore.track_indices_restrict track dir 12 false [1]
           _ _ _ _ sample_found_second Witnesses.sample_found).
Defined.

Lemma found_names_wellformed_witness :
  "NPR-MIRS-IMG_a.nc" ∈ listdir dir /\ Py.endswith "NPR-MIRS-IMG_a.nc" ".nc" = true /\
  is_Some (open_dataset dir "NPR-MIRS-IMG_a.nc") /\
  ("NPR-MIRS-IMG_a.nc" ∈ ["NPR-MIRS-IMG_a.nc"; "NPR-MIRS-IMG_d.nc"] ->
     Py.startswith "NPR-MIRS-IMG_a.nc" "NPR-MIRS-IMG" = true /\
     ("NPR-MIRS-IMG_a.nc" ∉ ["NPR-MIRS-SND_a.nc"])) /\
  ("NPR-MIRS-IMG_a.nc" ∈ ["NPR-MIRS-SND_a.nc"] ->
     Py.startswith "NPR-MIRS-IMG_a.nc" "NPR-MIRS-SND" = true /\
     ("NPR-MIRS-IMG_a.nc" ∉ ["NPR-MIRS-IMG_a.nc"; "NPR-MIRS-IMG_d.nc"])).
Proof.
  apply (MirsMore.found_names_wellformed track dir 12 false None _ _ "NPR-MIRS-IMG_a.nc"
           Witnesses.sample_found).
  vm_compute. by left.
Defined.

Lemma unreadable_granule_fails_witness :
  exists e, Mirs.find_mirs_files track dir_broken 12 false None = raise e.
Proof.
  apply (MirsMore.unreadable_granule_fails track dir_broken 12 false None
           "NPR-MIRS-IMG_x.nc").
  - vm_compute. by left.
  - vm_compute. reflexivity.
  - vm_compute. reflexivity.
  - vm_compute. discriminate.
Defined.

Lemma bad_track_index_fails_witness :
  Mirs.find_mirs_files track dir 12 false (Some [7; 0]) = raise IndexError /\
  exists e, Mirs.find_mirs_files track dir_other 12 false (Some [0; -4]) = raise e.
Proof.
  split.
  - apply (proj2 (MirsMore.bad_track_index_fails track dir 12 false) 7 [0]).
    vm_compute. intros [_ H]. discriminate H.
  - apply (proj1 (MirsMore.bad_track_index_fails track dir_other 12 false)
             (Some [0; -4]) (-4)).
    + vm_compute. right. by left.
    + vm_compute. intros [H _]. apply H. reflexivity.
Defined.

Lemma no_granule_files_found_empty_witness :
  Mirs.find_mirs_files track dir_other 12 true (Some [0; -1]) = ok ([], []).
Proof.
  apply (MirsMore.no_granule_files_found_empty track dir_other 12 true (Some [0; -1])).
  - intros f Hf. vm_compute in Hf.
    repeat (apply elem_of_cons in Hf as [->|Hf]; [vm_compute; reflexivity|]).
    by apply elem_of_nil in Hf.
  - intros ipt Hi. cbn [Mirs.track_points] in Hi.
    repeat (apply elem_of_cons in Hi as [->|Hi];
            [change (length track) with 3%nat; lia|]).
    by apply elem_of_nil in Hi.
Defined.

Lemma img_d_coverage :
  GranuleSpec.coverage img_d 1598436000000000000 1598437800000000000.
Proof. split; vm_compute; reflexivity. Defined.

Lemma dateline_skips_before_polygon_witness :
  Mirs._granule_overlaps_track_point img_d "north" "east"
    (1598443200000000000 - 12 * Time.hour) (1598443200000000000 + 12 * Time.hour) true
    = ok false.
Proof.
  apply (MirsMore.dateline_skips_before_polygon img_d "north" "east" _ _ _ _ 5%Q
           img_d_coverage).
  - vm_compute. discriminate.
  - vm_compute. discriminate.
  - vm_compute. reflexivity.
  - unfold Qle. simpl. lia.
Defined.

Lemma sample_merged :
  Mirs.load_and_merge_mirs ["NPR-MIRS-IMG_a.nc"] ["NPR-MIRS-SND_a.nc"] dir
    Config.SND_VARS_TO_KEEP Config.IMG_VARS_TO_REMOVE = ok (merged_pair.1, merged_pair.2).
Proof. vm_compute. reflexivity. Defined.

Lemma merged_variables_witness :
  data_vars merged_pair.1 !! "Snow" = None /\
  is_Some (data_vars merged_pair.2 !! "PTemp") /\
  data_vars merged_pair.2 !! "Extra" = None.
Proof.
  destruct (MergeMore.merged_variables _ _ _ _ _ _ _ sample_merged)
    as (l1 & c1 & l2 & c2 & _ & _ & _ & _ & _ & _ & Hrem & _ & Hkeep & Hnot).
  split; [|split].
  - apply Hrem. in_list.
  - apply Hkeep. in_list.
  - apply Hnot. in_list.
Defined.

Lemma unreadable_file_fails_merge_witness :
  Mirs.load_and_merge_mirs ["NPR-MIRS-IMG_a.nc"; "missing.nc"] ["NPR-MIRS-SND_a.nc"] dir
    Config.SND_VARS_TO_KEEP Config.IMG_VARS_TO_REMOVE = raise (LibError "open_dataset").
Proof.
  apply (MergeMore.unreadable_file_fails_merge
           ["NPR-MIRS-IMG_a.nc"; "missing.nc"] ["NPR-MIRS-SND_a.nc"] dir
           Config.SND_VARS_TO_KEEP Config.IMG_VARS_TO_REMOVE "missing.nc").
  - vm_compute. right. by left.
  - vm_compute. reflexivity.
  - vm_compute. right. by left.
  - discriminate.
Defined.

Lemma missing_sounding_variable_raises_witness :
  exists k, k ∈ Config.SND_VARS_TO_KEEP /\
    Mirs.load_and_merge_mirs ["NPR-MIRS-IMG_a.nc"] ["NPR-MIRS-IMG_a.nc"] dir
      Config.SND_VARS_TO_KEEP Config.IMG_VARS_TO_REMOVE = raise (KeyError k).
Proof.
  apply (MergeMore.missing_sounding_variable_raises
           ["NPR-MIRS-IMG_a.nc"] ["NPR-MIRS-IMG_a.nc"] dir
           Config.SND_VARS_TO_KEEP Config.IMG_VARS_TO_REMOVE
           [img_a] c_img_a [img_a] c_img_a "PTemp").
  - discriminate.
  - discriminate.
  - vm_compute. reflexivity.
  - vm_compute. reflexivity.
  - vm_compute. reflexivity.
  - vm_compute. reflexivity.
  - in_list.
  - vm_compute. reflexivity.
Defined.

Lemma build_output_dataset_succeeds_witness :
  is_Some (xr_merge img_a snd_a (Output.select_storm ibt "TEST" 2020)) /\
  exists s t0,
    Output.select_storm ibt "TEST" 2020 = [s] /\ iso_time s !! 0%nat = Some t0.
Proof.
  apply (OutputMore.build_output_dataset_succeeds img_a snd_a ibt "TEST" 2020).
  exists sample_output. exact Witnesses.sample_output_built.
Defined.

Lemma build_output_dataset_preserves_witness :
  exists ds_merged,
    xr_merge img_a snd_a (Output.select_storm ibt "TEST" 2020) = Some ds_merged /\
    data_vars sample_output = data_vars ds_merged /\
    attrs sample_output !! "geospatial_bounds" = attrs ds_merged !! "geospatial_bounds".
Proof.
  destruct (OutputMore.build_output_dataset_preserves _ _ _ _ _ _
              Witnesses.sample_output_built) as (m & Hm & Hv & Ha).
  exists m. split; [exact Hm|]. split; [exact Hv|].
  apply Ha. in_list.
Defined.

Lemma bounding_box_consistent_witness :
  exists a b,
    attrs sample_output !! "TC_minimum_lat" = Some (AFloat a) /\
    attrs sample_output !! "TC_maximum_lat" = Some (AFloat b) /\
    match a, b with
    | Some x, Some y => (x <= y)%Q
    | None, None => True
    | _, _ => False
    end.
Proof.
  exact (proj1 (OutputMore.bounding_box_consistent _ _ _ _ _ _
                  Witnesses.sample_output_built)).
Defined.

Lemma last_toggle_wins_witness :
  Cli.arg_filter_missing_wmo args_off = false.
Proof.
  apply (proj1 (CliMore.last_toggle_wins argv_2021 args_off)).
  - vm_compute. discriminate.
  - vm_compute. reflexivity.
Defined.

Lemma sample_main :
  Cli.main world argv_2020 = ok (sample_run.1, sample_run.2).
Proof. vm_compute. reflexivity. Defined.

Lemma main_output_name_witness :
  sample_run.1 = "TEST_2020_all_data.nc" /\
  attrs sample_run.2 !! "TC_name" = Some (AStr "TEST").
Proof.
  destruct (CliMore.main_output_name world argv_2020 _ _ sample_main)
    as (args & n & Hp & Hn & Hname & _ & Hdefault & _).
  assert (E : Cli.parse_args argv_2020 = ok args_2020) by (vm_compute; reflexivity).
  rewrite E in Hp. injection Hp as <-.
  subst n. split.
  - apply Hdefault. left. reflexivity.
  - exact Hn.
Defined.

Lemma main_success_needs_matches_witness :
  exists args csv track mirs_dir img_files snd_files ds_ibt s,
    Cli.parse_args argv_2020 = ok args /\
    Cli.read_csv world (Cli.arg_ibt_csv args) = Some csv /\
    Ibtracs.get_storm_track (Py.upper (Cli.arg_name args)) (Cli.arg_year args) csv
      (Cli.arg_filter_missing_wmo args && negb (Cli.arg_year args =? 2021)) None
      = ok track /\
    track <> [] /\
    Cli.directory world (Cli.arg_mirs_dir args) = Some mirs_dir /\
    Mirs.find_mirs_files track mirs_dir Config.TIME_WINDOW_HOURS true
      (Cli.arg_test_indices args) = ok (img_files, snd_files) /\
    img_files <> [] /\ snd_files <> [] /\
    Cli.open_ibt world (Cli.arg_ibt_nc args) = Some ds_ibt /\
    Output.select_storm ds_ibt (Py.upper (Cli.arg_name args)) (Cli.arg_year args) = [s].
Proof.
  exact (CliMore.main_success_needs_matches world argv_2020 _ _ sample_main).
Defined.

End MoreWitnesses.
